(** * photon2d: sprite batches, sprites and the batch router

    A shallow embedding of [photon/src/photon2d.cpp] and
    [photon/include/photon2d.hpp]: the CPU side of [SpriteBatch], [Sprite],
    [Renderer2D::addSprite] and [Text::createSprites].  OpenGL, GLFW and
    stb calls have no effect on the state modelled here; the font queries
    of stb_truetype are taken as parameters of the text layout. *)

From Stdlib Require Import ZArith Lia Bool String Ascii.
From Stdlib Require Import Floats.SpecFloat.
From stdpp Require Import base option list gmap.

Local Open Scope Z_scope.

(** ** Scalars *)

(** [f32] is IEEE binary32: 24 bits of precision, exponents up to 128. *)
Definition f32 : Type := spec_float.

Definition f32_add : f32 -> f32 -> f32 := SFadd 24 128.
Definition f32_sub : f32 -> f32 -> f32 := SFsub 24 128.
Definition f32_mul : f32 -> f32 -> f32 := SFmul 24 128.

(** Conversion of an integer to [f32] (round to nearest even). *)
Definition f32_of_Z (n : Z) : f32 := binary_normalize 24 128 n 0 false.

(** The float whose four bytes are all zero, as left by [calloc] and
    [memset (_, 0, _)]. *)
Definition f32_zero : f32 := S754_zero false.

Definition sizeof_f32 : Z := 4.

(** Wrap-around of the fixed-width integer types. *)
Definition wrap_u32 (z : Z) : Z := z mod 2 ^ 32.
Definition wrap_usize (z : Z) : Z := z mod 2 ^ 64.

Definition in_i32 (z : Z) : bool := (- 2 ^ 31 <=? z) && (z <? 2 ^ 31).

(** Conversion [u32 -> i32], as in [sprite->batchIndex = spriteCount]. *)
Definition i32_of_u32 (z : Z) : Z :=
  let m := wrap_u32 z in if m <? 2 ^ 31 then m else m - 2 ^ 32.

(** ** glm vectors *)

Module vec2.
Record t : Type := mk { x : f32; y : f32 }.
End vec2.

Module vec4.
Record t : Type := mk { x : f32; y : f32; z : f32; w : f32 }.
(** glm names the same four components [r g b a] for colours. *)
Definition r := x.
Definition g := y.
Definition b := z.
Definition a := w.
End vec4.

(** ** Objects and pointers *)

(** [Texture *]: textures are only compared by address. *)
Definition TexturePtr : Type := positive.
(** [Sprite *]: sprites are owned by the caller. *)
Definition SpritePtr : Type := positive.
(** [SpriteBatch *]: batches are allocated by the renderer with [new];
    the k-th allocation has address k. *)
Definition BatchPtr : Type := nat.

Module Sprite.
Record t : Type := mk {
  batch : option BatchPtr;      (* nullptr is None *)
  batchIndex : Z;               (* i32 *)
  invisible : bool;
  pos : vec2.t;
  color : vec4.t;
  size : vec2.t;
  texture : TexturePtr;
  texCoords : vec4.t
}.

Definition set_batch (v : option BatchPtr) (s : t) : t :=
  mk v (batchIndex s) (invisible s) (pos s) (color s) (size s) (texture s) (texCoords s).
Definition set_batchIndex (v : Z) (s : t) : t :=
  mk (batch s) v (invisible s) (pos s) (color s) (size s) (texture s) (texCoords s).
Definition set_invisible (v : bool) (s : t) : t :=
  mk (batch s) (batchIndex s) v (pos s) (color s) (size s) (texture s) (texCoords s).
Definition set_pos (v : vec2.t) (s : t) : t :=
  mk (batch s) (batchIndex s) (invisible s) v (color s) (size s) (texture s) (texCoords s).
Definition set_texCoords (v : vec4.t) (s : t) : t :=
  mk (batch s) (batchIndex s) (invisible s) (pos s) (color s) (size s) (texture s) v.

(** [Sprite::Sprite(pos, size, texture)] with the default member
    initialisers of the header. *)
Definition new (p sz : vec2.t) (tex : TexturePtr) : t :=
  let one := f32_of_Z 1 in
  mk None 0 false p (vec4.mk one one one one) sz tex
     (vec4.mk f32_zero f32_zero one one).

(** [Sprite::isAdded] *)
Definition isAdded (s : t) : bool :=
  match batch s with Some _ => true | None => false end.
End Sprite.

Module SpriteBatch.
(** [static constexpr u32 BATCH_SIZE = 10000].  The methods below take the
    capacity as a parameter, so that the small batches of the
    specification's scenarios can be run as well. *)
Definition BATCH_SIZE : Z := 10000.

Record t : Type := mk {
  data : list f32;              (* f32 *data *)
  texture : TexturePtr;
  spriteCount : Z;              (* u32 *)
  shouldBuffer : bool
}.

Definition set_data (v : list f32) (b : t) : t :=
  mk v (texture b) (spriteCount b) (shouldBuffer b).
Definition set_spriteCount (v : Z) (b : t) : t :=
  mk (data b) (texture b) v (shouldBuffer b).
Definition set_shouldBuffer (v : bool) (b : t) : t :=
  mk (data b) (texture b) (spriteCount b) v.
End SpriteBatch.

Module Renderer2D.
Definition VERTEX_SIZE : Z := 8.
Definition VERTEX_SIZE_BYTES : Z := VERTEX_SIZE * sizeof_f32.

(** The private [std::vector<SpriteBatch*> batches]. *)
Record t : Type := mk { batches : list BatchPtr }.
End Renderer2D.

(** ** The store *)

Record World : Type := mkWorld {
  sprites : gmap SpritePtr Sprite.t;
  heap : list SpriteBatch.t          (* heap !! p is the batch at address p *)
}.

(** The specification's error taxonomy names [CapacityExceeded]; the source
    declares no error type and contains no [throw]. *)
Inductive Error : Type := CapacityExceeded.

(** How a call ends: it returns, it throws, or its behaviour is undefined
    (an invalid pointer is dereferenced, memory is accessed out of bounds,
    a signed product overflows). *)
Inductive Outcome (A : Type) : Type :=
| Returns (a : A) (w : World)
| Throws (e : Error)
| Undefined.
Arguments Returns {A} a w.
Arguments Throws {A} e.
Arguments Undefined {A}.

Definition M (A : Type) : Type := World -> Outcome A.

#[global] Instance M_ret : MRet M := fun A a w => Returns a w.
#[global] Instance M_bind : MBind M := fun A B f m w =>
  match m w with
  | Returns a w' => f a w'
  | Throws e => Throws e
  | Undefined => Undefined
  end.

Definition undefined {A} : M A := fun _ => Undefined.

Definition load_sprite (p : SpritePtr) : M Sprite.t := fun w =>
  match sprites w !! p with Some s => Returns s w | None => Undefined end.

Definition store_sprite (p : SpritePtr) (s : Sprite.t) : M unit := fun w =>
  match sprites w !! p with
  | Some _ => Returns tt (mkWorld (<[p := s]> (sprites w)) (heap w))
  | None => Undefined
  end.

Definition load_batch (p : BatchPtr) : M SpriteBatch.t := fun w =>
  match heap w !! p with Some b => Returns b w | None => Undefined end.

Definition store_batch (p : BatchPtr) (b : SpriteBatch.t) : M unit := fun w =>
  match heap w !! p with
  | Some _ => Returns tt (mkWorld (sprites w) (<[p := b]> (heap w)))
  | None => Undefined
  end.

(** [new SpriteBatch(...)]: the next unused address. *)
Definition alloc_batch (b : SpriteBatch.t) : M BatchPtr := fun w =>
  Returns (length (heap w)) (mkWorld (sprites w) (heap w ++ [b])).

(** ** Raw memory of a batch *)

(** [n] floats read at float offset [off]. *)
Definition load_floats (mem : list f32) (off n : Z) : option (list f32) :=
  if (0 <=? off) && (0 <=? n) && (off + n <=? Z.of_nat (length mem))
  then Some (take (Z.to_nat n) (drop (Z.to_nat off) mem))
  else None.

(** [vals] written at float offset [off]. *)
Definition store_floats (mem : list f32) (off : Z) (vals : list f32) : option (list f32) :=
  if (0 <=? off) && (off + Z.of_nat (length vals) <=? Z.of_nat (length mem))
  then Some (list_inserts (Z.to_nat off) vals mem)
  else None.

(** [index * 6 * Renderer2D::VERTEX_SIZE] for an [i32 index]: the product
    [index * 6] is an [int], then it is widened to [usize]. *)
Definition slot_offset_i32 (index : Z) : option Z :=
  let p := index * 6 in
  if in_i32 p then Some (wrap_usize (p * Renderer2D.VERTEX_SIZE)) else None.

(** [(spriteCount - 1) * 6 * Renderer2D::VERTEX_SIZE]: [u32] arithmetic up
    to the last factor. *)
Definition last_slot_offset (spriteCount : Z) : Z :=
  wrap_usize (wrap_u32 (wrap_u32 (spriteCount - 1) * 6) * Renderer2D.VERTEX_SIZE).

(** Floats in one sprite's block: six vertices. *)
Definition block_floats : Z := 6 * Renderer2D.VERTEX_SIZE.

(** The block of slot [i] of a storage, when it lies inside it. *)
Definition slot (mem : list f32) (i : Z) : option (list f32) :=
  load_floats mem (i * block_floats) block_floats.

(** The local array [vertices] of [SpriteBatch::updateSprite]. *)
Definition vertices (s : Sprite.t) : list f32 :=
  let px := vec2.x (Sprite.pos s) in
  let py := vec2.y (Sprite.pos s) in
  let sx := vec2.x (Sprite.size s) in
  let sy := vec2.y (Sprite.size s) in
  let cr := vec4.r (Sprite.color s) in
  let cg := vec4.g (Sprite.color s) in
  let cb := vec4.b (Sprite.color s) in
  let ca := vec4.a (Sprite.color s) in
  let tx := vec4.x (Sprite.texCoords s) in
  let ty := vec4.y (Sprite.texCoords s) in
  let tz := vec4.z (Sprite.texCoords s) in
  let tw := vec4.w (Sprite.texCoords s) in
  [ px; py; cr; cg; cb; ca; tx; tw;
    f32_add px sx; py; cr; cg; cb; ca; tz; tw;
    f32_add px sx; f32_add py sy; cr; cg; cb; ca; tz; ty;
    f32_add px sx; f32_add py sy; cr; cg; cb; ca; tz; ty;
    px; f32_add py sy; cr; cg; cb; ca; tx; ty;
    px; py; cr; cg; cb; ca; tx; tw ].

(** ** SpriteBatch *)

Section Batch.

(** The capacity, [SpriteBatch::BATCH_SIZE] in the source. *)
Variable BATCH_SIZE : Z.

(** Number of floats of [new f32[BATCH_SIZE * 6 * Renderer2D::VERTEX_SIZE]]. *)
Definition data_length : Z :=
  wrap_usize (wrap_u32 (BATCH_SIZE * 6) * Renderer2D.VERTEX_SIZE).

(** [SpriteBatch::hasSpace] *)
Definition SpriteBatch_hasSpace (this : BatchPtr) : M bool :=
  b ← load_batch this;
  mret (SpriteBatch.spriteCount b <? BATCH_SIZE).

(** [SpriteBatch::rawSetVertices]: [6 * VERTEX_SIZE_BYTES] bytes copied
    from [vertices] to [&data[index * 6 * VERTEX_SIZE]]. *)
Definition SpriteBatch_rawSetVertices (this : BatchPtr) (index : Z)
    (verts : list f32) : M unit :=
  b ← load_batch this;
  match slot_offset_i32 index with
  | None => undefined
  | Some off =>
    match load_floats verts 0 (6 * Renderer2D.VERTEX_SIZE_BYTES / sizeof_f32) with
    | None => undefined
    | Some src =>
      match store_floats (SpriteBatch.data b) off src with
      | None => undefined
      | Some d => store_batch this (SpriteBatch.set_data d b)
      end
    end
  end.

(** [SpriteBatch::updateSprite] *)
Definition SpriteBatch_updateSprite (this : BatchPtr) (sprite : SpritePtr) : M unit :=
  s ← load_sprite sprite;
  SpriteBatch_rawSetVertices this (Sprite.batchIndex s) (vertices s);;
  b ← load_batch this;
  store_batch this (SpriteBatch.set_shouldBuffer true b).

(** [SpriteBatch::addSprite] *)
Definition SpriteBatch_addSprite (this : BatchPtr) (sprite : SpritePtr) : M unit :=
  space ← SpriteBatch_hasSpace this;
  if space : bool then
    s ← load_sprite sprite;
    store_sprite sprite (Sprite.set_batch (Some this) s);;
    s ← load_sprite sprite;
    b ← load_batch this;
    store_sprite sprite
      (Sprite.set_batchIndex (i32_of_u32 (SpriteBatch.spriteCount b)) s);;
    store_batch this
      (SpriteBatch.set_spriteCount (wrap_u32 (SpriteBatch.spriteCount b + 1)) b);;
    SpriteBatch_updateSprite this sprite
  else mret tt.

(** [SpriteBatch::removeSprite] *)
Definition SpriteBatch_removeSprite (this : BatchPtr) (sprite : SpritePtr) : M unit :=
  s ← load_sprite sprite;
  b ← load_batch this;
  let n := Renderer2D.VERTEX_SIZE * 6 * sizeof_f32 / sizeof_f32 in
  match slot_offset_i32 (Sprite.batchIndex s),
        load_floats (SpriteBatch.data b) (last_slot_offset (SpriteBatch.spriteCount b)) n with
  | Some dst, Some last =>
    match store_floats (SpriteBatch.data b) dst last with
    | None => undefined
    | Some d1 =>
      match store_floats d1 (last_slot_offset (SpriteBatch.spriteCount b))
              (replicate (Z.to_nat (6 * Renderer2D.VERTEX_SIZE_BYTES / sizeof_f32)) f32_zero) with
      | None => undefined
      | Some d2 =>
        store_batch this (SpriteBatch.set_data d2 b);;
        store_sprite sprite (Sprite.set_batchIndex 0 (Sprite.set_batch None s));;
        b ← load_batch this;
        store_batch this
          (SpriteBatch.set_shouldBuffer true
             (SpriteBatch.set_spriteCount (wrap_u32 (SpriteBatch.spriteCount b - 1)) b))
      end
    end
  | _, _ => undefined
  end.

(** ** Sprite *)

(** [Sprite::update] *)
Definition Sprite_update (this : SpritePtr) : M unit :=
  s ← load_sprite this;
  match Sprite.batch s with
  | Some batch => SpriteBatch_updateSprite batch this
  | None => mret tt
  end.

(** [Sprite::toggleInvisibility] *)
Definition Sprite_toggleInvisibility (this : SpritePtr) : M unit :=
  s ← load_sprite this;
  match Sprite.batch s with
  | Some batch =>
    if Sprite.invisible s then
      Sprite_update this;;
      s ← load_sprite this;
      store_sprite this (Sprite.set_invisible false s)
    else
      (* calloc (VERTEX_SIZE * 6, sizeof (f32)) *)
      let zeros := replicate (Z.to_nat (Renderer2D.VERTEX_SIZE * 6)) f32_zero in
      SpriteBatch_rawSetVertices batch (Sprite.batchIndex s) zeros;;
      b ← load_batch batch;
      (if negb (SpriteBatch.shouldBuffer b)
       then store_batch batch (SpriteBatch.set_shouldBuffer true b)
       else mret tt);;
      s ← load_sprite this;
      store_sprite this (Sprite.set_invisible true s)
  | None => mret tt
  end.

(** [Sprite::remove] *)
Definition Sprite_remove (this : SpritePtr) : M unit :=
  s ← load_sprite this;
  match Sprite.batch s with
  | Some batch =>
    SpriteBatch_removeSprite batch this;;
    s ← load_sprite this;
    store_sprite this (Sprite.set_batchIndex 0 (Sprite.set_batch None s))
  | None => mret tt
  end.

(** ** Renderer2D *)

(** Contents of freshly allocated, uninitialised storage. *)
Variable junk : nat -> f32.

(** [SpriteBatch::SpriteBatch(texture, shader)]: [data] is allocated and
    left uninitialised, the other members keep their default values. *)
Definition SpriteBatch_new (texture : TexturePtr) : SpriteBatch.t :=
  SpriteBatch.mk (map junk (seq 0 (Z.to_nat data_length))) texture 0 false.

(** The [for] loop of [Renderer2D::addSprite]; the result is [added]. *)
Fixpoint addSprite_scan (batches : list BatchPtr) (sprite : SpritePtr) : M bool :=
  match batches with
  | [] => mret false
  | batch :: rest =>
    b ← load_batch batch;
    s ← load_sprite sprite;
    if decide (SpriteBatch.texture b = Sprite.texture s) then
      space ← SpriteBatch_hasSpace batch;
      if space : bool then
        SpriteBatch_addSprite batch sprite;;
        mret true
      else addSprite_scan rest sprite
    else addSprite_scan rest sprite
  end.

(** [Renderer2D::addSprite] *)
Definition Renderer2D_addSprite (this : Renderer2D.t) (sprite : SpritePtr)
    : M Renderer2D.t :=
  added ← addSprite_scan (Renderer2D.batches this) sprite;
  if added : bool then mret this
  else
    s ← load_sprite sprite;
    batch ← alloc_batch (SpriteBatch_new (Sprite.texture s));
    SpriteBatch_addSprite batch sprite;;
    mret (Renderer2D.mk (Renderer2D.batches this ++ [batch])).

End Batch.

(** ** Text *)

(** [stbtt_aligned_quad] *)
Module stbtt_aligned_quad.
Record t : Type := mk {
  x0 : f32; y0 : f32; s0 : f32; t0 : f32;
  x1 : f32; y1 : f32; s1 : f32; t1 : f32
}.
End stbtt_aligned_quad.

Module Text.
Record t : Type := mk {
  str : string;
  sprites : list Sprite.t;      (* std::vector<Sprite> *)
  pos : vec2.t;
  size : f32;
  spacing : f32
}.
End Text.

(** A [char] promoted to [int] ([char] is signed on the targets of the
    build; the two range tests below give the same answers if it is not,
    and the index into the packed table is in or out of bounds for the same
    characters). *)
Definition int_of_char (c : ascii) : Z :=
  let n := Z.of_N (N_of_ascii c) in if n <? 128 then n else n - 256.

(** [Font::packedCharsBufferSize] as [Font::createFromTTF] sets it,
    ['~' - ' ']: the number of entries that are allocated for
    [Font::packedCharsBuffer] and that [stbtt_PackFontRange] fills. *)
Definition packedCharsBufferSize : Z := int_of_char "~" - int_of_char " ".

Section TextLayout.

(** The font [*font].  stb_truetype is not part of the repository: the type
    of an entry of the packed table and what the library computes are
    taken as they come. *)
Variable stbtt_packedchar : Type.
Variable packedCharsBuffer : list stbtt_packedchar.   (* font->packedCharsBuffer *)
(** The quad that [stbtt_GetPackedQuad] computes from the entry it reads,
    for the atlas size, the origin and the alignment that
    [Font::getGlyphQuad] passes. *)
Variable stbtt_GetPackedQuad : stbtt_packedchar -> stbtt_aligned_quad.t.
(** [stbtt_GetGlyphBitmapBox (&font->info, glyph, scale_x, scale_y, ...)]:
    the four integers it stores, [None] where the call is not defined. *)
Variable stbtt_GetGlyphBitmapBox : Z -> f32 -> f32 -> option (Z * Z * Z * Z).
Variable getGlyphKern : ascii -> ascii -> Z.             (* Font::getGlyphKern, an i32 *)
Variable scale : f32.                (* stbtt_ScaleForPixelHeight (&font->info, 64.0f) *)
Variable font_texture : TexturePtr.  (* &font->texture *)

(** [Font::getGlyphQuad]: [stbtt_GetPackedQuad] reads the entry
    [packedCharsBuffer[c - ' ']]; a read outside the buffer is undefined
    ([None]). *)
Definition getGlyphQuad (c : ascii) : option stbtt_aligned_quad.t :=
  let char_index := int_of_char c - int_of_char " " in
  if 0 <=? char_index
  then stbtt_GetPackedQuad <$> packedCharsBuffer !! Z.to_nat char_index
  else None.

(** [Font::getGlyphTexCoords] *)
Definition getGlyphTexCoords (c : ascii) : option vec4.t :=
  quad ← getGlyphQuad c;
  Some (vec4.mk (stbtt_aligned_quad.s0 quad) (stbtt_aligned_quad.t0 quad)
                (stbtt_aligned_quad.s1 quad) (stbtt_aligned_quad.t1 quad)).

(** The variables of the loop that change: the pen and the sprites
    pushed so far. *)
Record pen : Type := mkPen { xPos : f32; out : list Sprite.t }.

(** [kern] of iteration [i]: [0.0f] on the last character, else the kerning
    of [c1] with [str[i + 1]]. *)
Definition kern_at (str : string) (i : nat) (c1 : ascii) : f32 :=
  match String.get (S i) str with
  | Some next => f32_of_Z (getGlyphKern c1 next)
  | None => f32_zero
  end.

(** One iteration of the [for] loop of [Text::createSprites], at index
    [i] (an index past the end is not reached by the loop).  The quad and
    the bitmap box of [c], and the height of ['A'], are fetched before [c]
    is tested; [None] is an iteration whose behaviour is undefined. *)
Definition createSprites_body (this : Text.t) (i : nat) (st : pen) : option pen :=
  match String.get i (Text.str this) with
  | None => Some st
  | Some c =>
    quad ← getGlyphQuad c;
    metrics ← stbtt_GetGlyphBitmapBox (int_of_char c) scale scale;
    a1 ← getGlyphQuad "A";
    a0 ← getGlyphQuad "A";
    let maxSize := f32_sub (stbtt_aligned_quad.y1 a1) (stbtt_aligned_quad.y0 a0) in
    let size := Text.size this in
    let yPos := vec2.y (Text.pos this) in
    if int_of_char c =? int_of_char " " then
      lineQuad ← getGlyphQuad "-";
      let kern := kern_at (Text.str this) i "-" in
      Some (mkPen
        (f32_add (xPos st)
           (f32_add
              (f32_add
                 (f32_mul (f32_sub (stbtt_aligned_quad.x1 lineQuad)
                                   (stbtt_aligned_quad.x0 lineQuad)) size)
                 (Text.spacing this))
              (f32_mul (f32_mul kern size) scale)))
        (out st))
    else if (int_of_char " " <=? int_of_char c) && (int_of_char c <=? int_of_char "~") then
      let kern := kern_at (Text.str this) i c in
      let qw := f32_sub (stbtt_aligned_quad.x1 quad) (stbtt_aligned_quad.x0 quad) in
      let qh := f32_sub (stbtt_aligned_quad.y1 quad) (stbtt_aligned_quad.y0 quad) in
      texCoords ← getGlyphTexCoords c;
      let sprite :=
        Sprite.set_texCoords texCoords
          (Sprite.new
             (vec2.mk (xPos st) (f32_sub yPos (f32_mul (stbtt_aligned_quad.y1 quad) size)))
             (vec2.mk (f32_mul qw size) (f32_mul qh size))
             font_texture) in
      Some (mkPen
        (f32_add (xPos st)
           (f32_add (f32_add (f32_mul qw size) (Text.spacing this))
                    (f32_mul (f32_mul kern size) scale)))
        (out st ++ [sprite]))
    else Some st
  end.

(** The state before iteration [n]: iterations [0 .. n-1] have run. *)
Definition createSprites_upto (this : Text.t) (n : nat) : option pen :=
  foldl (fun st i => st ≫= createSprites_body this i)
        (Some (mkPen (vec2.x (Text.pos this)) (Text.sprites this))) (seq 0 n).

(** [Text::createSprites] (for strings shorter than 2^31 characters, so
    that the [i32] counter does not overflow). *)
Definition Text_createSprites (this : Text.t) : option Text.t :=
  final ← createSprites_upto this (String.length (Text.str this));
  Some (Text.mk (Text.str this) (out final) (Text.pos this) (Text.size this)
                (Text.spacing this)).

(** The characters that have an entry in the packed table: [' ' .. '}']. *)
Definition in_table (c : ascii) : bool :=
  (int_of_char " " <=? int_of_char c)
  && (int_of_char c <? int_of_char " " + packedCharsBufferSize).

(** The font's table as [Font::createFromTTF] allocates and fills it,
    [packedCharsBufferSize] entries; and stb_truetype answers for the bitmap
    box of the glyph indices that the characters of the table give. *)
Definition font_ok : Prop :=
  length packedCharsBuffer = Z.to_nat packedCharsBufferSize /\
  forall c : ascii,
    in_table c = true -> is_Some (stbtt_GetGlyphBitmapBox (int_of_char c) scale scale).

End TextLayout.

Arguments getGlyphQuad {stbtt_packedchar}.
Arguments getGlyphTexCoords {stbtt_packedchar}.
Arguments createSprites_body {stbtt_packedchar}.
Arguments createSprites_upto {stbtt_packedchar}.
Arguments Text_createSprites {stbtt_packedchar}.
Arguments font_ok {stbtt_packedchar}.

(** * Vocabulary of the statements *)

(** The capacities for which the index arithmetic of the batch stays in
    range; the header's 10000 is one. *)
Definition capacity_ok (BATCH_SIZE : Z) : Prop :=
  0 < BATCH_SIZE /\ BATCH_SIZE * 6 < 2 ^ 31.

(** A batch as its constructor and methods leave it: a count within the
    capacity and storage of the allocated length. *)
Definition batch_ok (BATCH_SIZE : Z) (b : SpriteBatch.t) : Prop :=
  0 <= SpriteBatch.spriteCount b <= BATCH_SIZE /\
  Z.of_nat (length (SpriteBatch.data b)) = data_length BATCH_SIZE.

(** The sprite and the batch after a successful [SpriteBatch::addSprite]. *)
Definition inserted_sprite (this : BatchPtr) (b : SpriteBatch.t) (s : Sprite.t) : Sprite.t :=
  Sprite.set_batchIndex (SpriteBatch.spriteCount b) (Sprite.set_batch (Some this) s).

Definition inserted_batch (b : SpriteBatch.t) (s : Sprite.t) : SpriteBatch.t :=
  SpriteBatch.mk
    (list_inserts (Z.to_nat (SpriteBatch.spriteCount b * block_floats)) (vertices s)
       (SpriteBatch.data b))
    (SpriteBatch.texture b) (SpriteBatch.spriteCount b + 1) true.

Definition inserted_world (this : BatchPtr) (sprite : SpritePtr)
    (b : SpriteBatch.t) (s : Sprite.t) (w : World) : World :=
  mkWorld (<[sprite := inserted_sprite this b s]> (sprites w))
          (<[this := inserted_batch b s]> (heap w)).

(** ** The scenario of the specification: one batch of capacity 2 *)

Definition vec2_of (a b : Z) : vec2.t := vec2.mk (f32_of_Z a) (f32_of_Z b).

Definition T : TexturePtr := 1%positive.
Definition pA : SpritePtr := 1%positive.
Definition pB : SpritePtr := 2%positive.
Definition pC : SpritePtr := 3%positive.
Definition spriteA : Sprite.t := Sprite.new (vec2_of 0 0) (vec2_of 1 1) T.
Definition spriteB : Sprite.t := Sprite.new (vec2_of 1 0) (vec2_of 1 1) T.
Definition spriteC : Sprite.t := Sprite.new (vec2_of 2 0) (vec2_of 1 1) T.

(** What the uninitialised storage of the scenario happens to hold. *)
Definition scenario_junk (i : nat) : f32 := f32_of_Z (100 + Z.of_nat i).

(** Three detached sprites and one empty batch at address 0. *)
Definition world0 : World :=
  mkWorld (<[pA := spriteA]> (<[pB := spriteB]> (<[pC := spriteC]> ∅)))
          [SpriteBatch_new 2 scenario_junk T].

(** [sprite->pos = p], a plain member assignment by the caller. *)
Definition assign_pos (sprite : SpritePtr) (p : vec2.t) : M unit :=
  s ← load_sprite sprite;
  store_sprite sprite (Sprite.set_pos p s).

(** The all-zero block. *)
Definition zero_block : list f32 := replicate (Z.to_nat block_floats) f32_zero.

(** The world a call returns; the argument itself when it does not return. *)
Definition world_after {A} (m : M A) (w : World) : World :=
  match m w with Returns _ w' => w' | _ => w end.

(** The objects behind two pointers, for reading the state of a scenario. *)
Definition batch_at (w : World) (p : BatchPtr) : SpriteBatch.t :=
  default (SpriteBatch.mk [] 1%positive 0 false) (heap w !! p).
Definition sprite_at (w : World) (p : SpritePtr) : Sprite.t :=
  default (Sprite.new (vec2_of 0 0) (vec2_of 0 0) 1%positive) (sprites w !! p).

(** A attached, then moved by the caller without [update ()]. *)
Definition world_unsynced : World :=
  world_after (SpriteBatch_addSprite 2 0%nat pA;; assign_pos pA (vec2_of 5 5)) world0.

(** The same three sprites and one empty batch of capacity 3, and that
    batch once A, B and C are inserted. *)
Definition world0_cap3 : World :=
  mkWorld (sprites world0) [SpriteBatch_new 3 scenario_junk T].
Definition world3 : World :=
  world_after (SpriteBatch_addSprite 3 0%nat pA;; SpriteBatch_addSprite 3 0%nat pB;;
               SpriteBatch_addSprite 3 0%nat pC) world0_cap3.

(** The sprites A and B attached to the batch of capacity 2. *)
Definition world2 : World :=
  world_after (SpriteBatch_addSprite 2 0%nat pA;; SpriteBatch_addSprite 2 0%nat pB) world0.

(** ** The router *)

(** The test of the loop of [Renderer2D::addSprite] on the batch at [p]. *)
Definition fits (BATCH_SIZE : Z) (w : World) (tex : TexturePtr) (p : BatchPtr) : bool :=
  match heap w !! p with
  | Some b => bool_decide (SpriteBatch.texture b = tex)
              && (SpriteBatch.spriteCount b <? BATCH_SIZE)
  | None => false
  end.

(** The first batch of the router, in creation order, that passes it. *)
Definition first_fit (BATCH_SIZE : Z) (w : World) (tex : TexturePtr)
    (batches : list BatchPtr) : option BatchPtr :=
  List.find (fits BATCH_SIZE w tex) batches.

(** Every batch of the router is allocated and well formed. *)
Definition router_ok (BATCH_SIZE : Z) (r : Renderer2D.t) (w : World) : Prop :=
  Forall (fun p => exists b, heap w !! p = Some b /\ batch_ok BATCH_SIZE b)
         (Renderer2D.batches r).

(** Three calls of [Renderer2D::addSprite] on a router without batches. *)
Definition add_three (BATCH_SIZE : Z) (junk : nat -> f32) (p1 p2 p3 : SpritePtr)
    : M Renderer2D.t :=
  r1 ← Renderer2D_addSprite BATCH_SIZE junk (Renderer2D.mk []) p1;
  r2 ← Renderer2D_addSprite BATCH_SIZE junk r1 p2;
  Renderer2D_addSprite BATCH_SIZE junk r2 p3.

(** The call returned a router with exactly two batches, one of texture
    [T1] holding 2 sprites and one of texture [T2] holding 1, and each of the
    given sprites points at the batch of its texture. *)
Definition two_batches (o : Outcome Renderer2D.t) (T1 T2 : TexturePtr)
    (added : list (SpritePtr * Sprite.t)) : Prop :=
  exists r' w' q1 q2 b1 b2,
    o = Returns r' w' /\
    length (Renderer2D.batches r') = 2%nat /\
    q1 ∈ Renderer2D.batches r' /\ q2 ∈ Renderer2D.batches r' /\ q1 <> q2 /\
    heap w' !! q1 = Some b1 /\ SpriteBatch.texture b1 = T1 /\
    SpriteBatch.spriteCount b1 = 2 /\
    heap w' !! q2 = Some b2 /\ SpriteBatch.texture b2 = T2 /\
    SpriteBatch.spriteCount b2 = 1 /\
    Forall (fun ps : SpritePtr * Sprite.t =>
              exists s', sprites w' !! ps.1 = Some s' /\
                         Sprite.batch s' =
                           Some (if bool_decide (Sprite.texture ps.2 = T1) then q1 else q2))
           added.

(** A second texture and a sprite that uses it, for the router scenario. *)
Definition T' : TexturePtr := 2%positive.
Definition pD : SpritePtr := 4%positive.
Definition spriteD : Sprite.t := Sprite.new (vec2_of 0 1) (vec2_of 1 1) T'.
Definition world_router : World :=
  mkWorld (<[pA := spriteA]> (<[pB := spriteB]> (<[pD := spriteD]> ∅))) [].

(** ** A font for the text scenario *)

(** The entry of a character of the table is its code, and its glyph is a
    box whose width is that code. *)
Definition scenario_packed : list Z := map Z.of_nat (seq 32 94).
Definition scenario_GetPackedQuad (code : Z) : stbtt_aligned_quad.t :=
  stbtt_aligned_quad.mk f32_zero f32_zero f32_zero f32_zero
    (f32_of_Z code) (f32_of_Z 10) (f32_of_Z 1) (f32_of_Z 1).
Definition scenario_box (glyph : Z) (scale_x scale_y : f32) : option (Z * Z * Z * Z) :=
  Some (0, 0, 0, 0).
Definition scenario_kern (c1 c2 : ascii) : Z := 2.
(** The string "A", space, line feed, "B". *)
Definition scenario_text : Text.t :=
  Text.mk (String "A" (String " " (String "010" (String "B" EmptyString))))
          [] (vec2_of 0 50) (f32_of_Z 1) (f32_of_Z 3).

(** * The rest of the batch, the router and the font *)

(** ** Rendering *)

(** What one [SpriteBatch::render] hands to OpenGL: the floats passed to
    [glBufferSubData] when [bufferData] ran, and the vertex count passed to
    [glDrawArrays]. *)
Record DrawCall : Type := mkDraw {
  uploaded : option (list f32);
  vertex_count : Z                  (* GLsizei *)
}.

Section Render.

Variable BATCH_SIZE : Z.

(** [SpriteBatch::bufferData]: [BATCH_SIZE * 6 * VERTEX_SIZE_BYTES] bytes of
    [data], from its start. *)
Definition SpriteBatch_bufferData (this : BatchPtr) : M (list f32) :=
  b ← load_batch this;
  match load_floats (SpriteBatch.data b) 0
          (wrap_usize (wrap_u32 (BATCH_SIZE * 6) * Renderer2D.VERTEX_SIZE_BYTES)
           / sizeof_f32) with
  | Some d => mret d
  | None => undefined
  end.

(** [SpriteBatch::render] (binding the shader, the vertex array and the
    texture changes nothing here). *)
Definition SpriteBatch_render (this : BatchPtr) : M DrawCall :=
  b ← load_batch this;
  up ← (if SpriteBatch.shouldBuffer b then
          d ← SpriteBatch_bufferData this;
          b ← load_batch this;
          store_batch this (SpriteBatch.set_shouldBuffer false b);;
          mret (Some d)
        else mret None);
  b ← load_batch this;
  mret (mkDraw up (i32_of_u32 (wrap_u32 (SpriteBatch.spriteCount b * 6)))).

(** The loop of [Renderer2D::render] over [batches] (the camera matrices
    computed before it are only passed on to the shader). *)
Fixpoint render_batches (batches : list BatchPtr) : M (list DrawCall) :=
  match batches with
  | [] => mret []
  | batch :: rest =>
    c ← SpriteBatch_render batch;
    cs ← render_batches rest;
    mret (c :: cs)
  end.

(** [Renderer2D::render] *)
Definition Renderer2D_render (this : Renderer2D.t) : M (list DrawCall) :=
  render_batches (Renderer2D.batches this).

End Render.

(** ** Text on the router *)

(** [Renderer2D::addText]: [sprites] are the addresses of the elements of
    [text->sprites], in order. *)
Fixpoint Renderer2D_addText (BATCH_SIZE : Z) (junk : nat -> f32)
    (this : Renderer2D.t) (sprites : list SpritePtr) : M Renderer2D.t :=
  match sprites with
  | [] => mret this
  | sprite :: rest =>
    r ← Renderer2D_addSprite BATCH_SIZE junk this sprite;
    Renderer2D_addText BATCH_SIZE junk r rest
  end.

(** ** The font atlas *)

(** One [u8] read from, or written to, a buffer; [None] out of bounds. *)
Definition load_u8 (buf : list Z) (i : Z) : option Z :=
  if 0 <=? i then buf !! Z.to_nat i else None.
Definition store_u8 (buf : list Z) (i : Z) (v : Z) : option (list Z) :=
  if (0 <=? i) && (i <? Z.of_nat (length buf))
  then Some (<[Z.to_nat i := v]> buf) else None.

(** The body of the conversion loop of [Font::createFromTTF] at index [i]
    (an [i32]; [None] also when [i * 4 + 3] leaves its range). *)
Definition rgba_body (fontMonochromeBuffer : list Z) (i : Z)
    (fontRgbaBuffer : list Z) : option (list Z) :=
  if in_i32 (i * 4 + 3) then
    m ← load_u8 fontMonochromeBuffer i;
    b1 ← store_u8 fontRgbaBuffer (i * 4) m;
    b2 ← store_u8 b1 (i * 4 + 1) m;
    b3 ← store_u8 b2 (i * 4 + 2) m;
    if m >? 1 then store_u8 b3 (i * 4 + 3) 255 else store_u8 b3 (i * 4 + 3) 0
  else None.

(** [for (i32 i = 0; i < fontMonochromeBufferSize; i++)] *)
Definition rgba_loop (fontMonochromeBuffer : list Z) (fontMonochromeBufferSize : nat)
    (fontRgbaBuffer : list Z) : option (list Z) :=
  foldl (fun acc i => acc ≫= rgba_body fontMonochromeBuffer (Z.of_nat i))
        (Some fontRgbaBuffer) (seq 0 fontMonochromeBufferSize).

(** The four bytes that the loop writes for one coverage byte. *)
Definition rgba_pixel (m : Z) : list Z := [m; m; m; if m >? 1 then 255 else 0].

(** ** Vocabulary of the further statements *)

(** The batch at [this] holds exactly the sprites [live], the i-th in slot
    i: each points back at the batch with index i, and slot i holds its
    encoding. *)
Definition dense (this : BatchPtr) (w : World) (live : list SpritePtr) : Prop :=
  exists b,
    heap w !! this = Some b /\
    SpriteBatch.spriteCount b = Z.of_nat (length live) /\
    forall (i : nat) (p : SpritePtr),
      live !! i = Some p ->
      exists s, sprites w !! p = Some s /\ Sprite.batch s = Some this /\
                Sprite.batchIndex s = Z.of_nat i /\
                slot (SpriteBatch.data b) (Z.of_nat i) = Some (vertices s).

(** The sprites drawn by a router: the counts of its batches, added up. *)
Definition router_count (r : Renderer2D.t) (w : World) : Z :=
  foldr Z.add 0 (map (fun p => SpriteBatch.spriteCount (batch_at w p))
                     (Renderer2D.batches r)).

(** The descriptor of a sprite: everything but its placement and flag. *)
Definition same_descriptor (s s' : Sprite.t) : Prop :=
  Sprite.pos s' = Sprite.pos s /\ Sprite.size s' = Sprite.size s /\
  Sprite.color s' = Sprite.color s /\ Sprite.texture s' = Sprite.texture s /\
  Sprite.texCoords s' = Sprite.texCoords s.

(** Only A attached to the batch of capacity 2. *)
Definition world1 : World :=
  world_after (SpriteBatch_addSprite 2 0%nat pA) world0.

(** The draw call that a batch in state [b] is due: its storage if it is
    marked for upload, and six vertices per sprite. *)
Definition draw_of (b : SpriteBatch.t) : DrawCall :=
  mkDraw (if SpriteBatch.shouldBuffer b then Some (SpriteBatch.data b) else None)
         (6 * SpriteBatch.spriteCount b).

(** The batch [b] at address [p] once the batches [bs] were rendered. *)
Definition rendered (bs : list BatchPtr) (p : BatchPtr) (b : SpriteBatch.t)
    : SpriteBatch.t :=
  if bool_decide (p ∈ bs) then SpriteBatch.set_shouldBuffer false b else b.

(** ** Vocabulary of the text statements *)

(** A sprite as [Text::createSprites] pushes it: detached, visible, white,
    on the font's texture. *)
Definition fresh_glyph (font_texture : TexturePtr) (s : Sprite.t) : Prop :=
  Sprite.batch s = None /\ Sprite.batchIndex s = 0 /\ Sprite.invisible s = false /\
  Sprite.texture s = font_texture /\
  Sprite.color s = vec4.mk (f32_of_Z 1) (f32_of_Z 1) (f32_of_Z 1) (f32_of_Z 1).

(** The text [this] with another string, and with another vector of
    sprites. *)
Definition with_str (str : string) (this : Text.t) : Text.t :=
  Text.mk str (Text.sprites this) (Text.pos this) (Text.size this) (Text.spacing this).
Definition with_sprites (sprites : list Sprite.t) (this : Text.t) : Text.t :=
  Text.mk (Text.str this) sprites (Text.pos this) (Text.size this) (Text.spacing this).

(** A text whose characters all have an entry in the table, with a sprite
    already in its vector. *)
Definition scenario_label : Text.t :=
  Text.mk (String "A" (String " " (String "}" EmptyString)))
          [spriteA] (vec2_of 0 50) (f32_of_Z 1) (f32_of_Z 3).

(** ** Vocabulary of the packing statement *)

(** Texture and count of each batch of the router, in creation order. *)
Definition router_summary (r : Renderer2D.t) (w : World) : list (TexturePtr * Z) :=
  map (fun p => (SpriteBatch.texture (batch_at w p), SpriteBatch.spriteCount (batch_at w p)))
      (Renderer2D.batches r).

(** [full] batches of [BATCH_SIZE] sprites, then one of [part] sprites unless
    [part] is 0, all of texture [tex]. *)
Definition packing (BATCH_SIZE : Z) (tex : TexturePtr) (full : nat) (part : Z)
    : list (TexturePtr * Z) :=
  map (fun c => (tex, c))
      (replicate full BATCH_SIZE ++ (if part =? 0 then [] else [part])).

(** A well-formed router whose batches are packed in that way. *)
Definition packed (BATCH_SIZE : Z) (tex : TexturePtr) (r : Renderer2D.t) (w : World)
    (full : nat) (part : Z) : Prop :=
  router_ok BATCH_SIZE r w /\ NoDup (Renderer2D.batches r) /\
  0 <= part < BATCH_SIZE /\
  router_summary r w = packing BATCH_SIZE tex full part.

(** ** Vocabulary of the counting statements *)

(** The sprites of the store that point at the batch [this]. *)
Definition attached_to (this : BatchPtr) (w : World) : gmap SpritePtr Sprite.t :=
  filter (fun ps : SpritePtr * Sprite.t => Sprite.batch ps.2 = Some this) (sprites w).

(** The batch [this] is well formed, its count is the number of sprites
    that point at it, and each of them has a slot of the storage as index. *)
Definition counted (BATCH_SIZE : Z) (this : BatchPtr) (w : World) : Prop :=
  exists b,
    heap w !! this = Some b /\ batch_ok BATCH_SIZE b /\
    SpriteBatch.spriteCount b = Z.of_nat (size (attached_to this w)) /\
    forall (p : SpritePtr) (s : Sprite.t),
      sprites w !! p = Some s -> Sprite.batch s = Some this ->
      0 <= Sprite.batchIndex s < BATCH_SIZE.

(** The first loop of [Text::update]: [sprite.remove ()] for every element
    of [sprites], given by their addresses in order. *)
Fixpoint Text_update_removals (sprites : list SpritePtr) : M unit :=
  match sprites with
  | [] => mret tt
  | sprite :: rest => Sprite_remove sprite;; Text_update_removals rest
  end.

(** * Facts *)

(** ** Offsets and raw memory *)

Lemma slot_offset_i32_in_range (i : Z) :
  0 <= i -> i * 6 < 2 ^ 31 -> slot_offset_i32 i = Some (i * block_floats).
Proof.
  intros Hi Hlt. unfold slot_offset_i32, in_i32, wrap_usize, block_floats,
    Renderer2D.VERTEX_SIZE.
  replace (- 2 ^ 31 <=? i * 6) with true by (symmetry; apply Z.leb_le; lia).
  replace (i * 6 <? 2 ^ 31) with true by (symmetry; apply Z.ltb_lt; lia).
  cbn [andb]. f_equal. rewrite Z.mod_small; lia.
Qed.

Lemma last_slot_offset_in_range (n : Z) :
  1 <= n -> (n - 1) * 6 < 2 ^ 31 -> last_slot_offset n = (n - 1) * block_floats.
Proof.
  intros Hn Hlt. unfold last_slot_offset, wrap_usize, wrap_u32, block_floats,
    Renderer2D.VERTEX_SIZE.
  rewrite (Z.mod_small (n - 1)) by lia.
  rewrite (Z.mod_small ((n - 1) * 6)) by lia.
  rewrite Z.mod_small; lia.
Qed.

Lemma store_floats_in_range (mem : list f32) (off : Z) (vals : list f32) :
  0 <= off -> off + Z.of_nat (length vals) <= Z.of_nat (length mem) ->
  store_floats mem off vals = Some (list_inserts (Z.to_nat off) vals mem).
Proof.
  intros H0 H1. unfold store_floats.
  replace (0 <=? off) with true by (symmetry; apply Z.leb_le; lia).
  replace (off + Z.of_nat (length vals) <=? Z.of_nat (length mem)) with true
    by (symmetry; apply Z.leb_le; lia).
  reflexivity.
Qed.

Lemma store_floats_inv (mem : list f32) (off : Z) (vals mem' : list f32) :
  store_floats mem off vals = Some mem' ->
  0 <= off /\ off + Z.of_nat (length vals) <= Z.of_nat (length mem) /\
  mem' = list_inserts (Z.to_nat off) vals mem.
Proof.
  unfold store_floats. intros H.
  destruct (0 <=? off) eqn:E0; cbn [andb] in H; [|discriminate].
  destruct (off + Z.of_nat (length vals) <=? Z.of_nat (length mem)) eqn:E1;
    [|discriminate].
  apply Z.leb_le in E0. apply Z.leb_le in E1. split; [lia|]. split; [lia|].
  congruence.
Qed.

Lemma load_floats_in_range (mem : list f32) (off n : Z) :
  0 <= off -> 0 <= n -> off + n <= Z.of_nat (length mem) ->
  load_floats mem off n = Some (take (Z.to_nat n) (drop (Z.to_nat off) mem)).
Proof.
  intros H0 H1 H2. unfold load_floats.
  replace (0 <=? off) with true by (symmetry; apply Z.leb_le; lia).
  replace (0 <=? n) with true by (symmetry; apply Z.leb_le; lia).
  replace (off + n <=? Z.of_nat (length mem)) with true
    by (symmetry; apply Z.leb_le; lia).
  reflexivity.
Qed.

Lemma load_floats_length (mem : list f32) (off n : Z) (blk : list f32) :
  load_floats mem off n = Some blk -> length blk = Z.to_nat n.
Proof.
  unfold load_floats. intros H.
  destruct (0 <=? off) eqn:E0; cbn [andb] in H; [|discriminate].
  destruct (0 <=? n) eqn:E1; cbn [andb] in H; [|discriminate].
  destruct (off + n <=? Z.of_nat (length mem)) eqn:E2; [|discriminate].
  apply Z.leb_le in E0. apply Z.leb_le in E1. apply Z.leb_le in E2.
  injection H as <-. rewrite length_take, length_drop. lia.
Qed.

(** Reading back the block that was just written. *)
Lemma load_list_inserts (mem vals : list f32) (off : nat) :
  (off + length vals <= length mem)%nat ->
  take (length vals) (drop off (list_inserts off vals mem)) = vals.
Proof.
  intros Hlen. apply list_eq. intros j.
  destruct (decide (j < length vals)%nat) as [Hj|Hj].
  - rewrite lookup_take_lt, lookup_drop by lia.
    rewrite list_lookup_inserts by lia. f_equal. lia.
  - rewrite lookup_take_ge by lia. symmetry. apply lookup_ge_None. lia.
Qed.

(** A write leaves every block that it does not overlap as it was. *)
Lemma load_list_inserts_disjoint (mem vals : list f32) (off off' n : nat) :
  (off' + n <= off \/ off + length vals <= off')%nat ->
  take n (drop off' (list_inserts off vals mem)) = take n (drop off' mem).
Proof.
  intros Hdis. apply list_eq. intros j.
  destruct (decide (j < n)%nat) as [Hj|Hj].
  - rewrite !lookup_take_lt, !lookup_drop by lia.
    destruct Hdis as [Hd|Hd].
    + apply list_lookup_inserts_lt. lia.
    + apply list_lookup_inserts_ge. lia.
  - rewrite !lookup_take_ge by lia. reflexivity.
Qed.

Lemma slot_after_store (mem blk mem' : list f32) (i : Z) :
  0 <= i -> length blk = Z.to_nat block_floats ->
  store_floats mem (i * block_floats) blk = Some mem' ->
  slot mem' i = Some blk.
Proof.
  intros Hi Hlen Hst. apply store_floats_inv in Hst as (H0 & H1 & ->).
  unfold slot. rewrite load_floats_in_range.
  - f_equal. rewrite <- Hlen. apply load_list_inserts. lia.
  - lia.
  - unfold block_floats, Renderer2D.VERTEX_SIZE. lia.
  - rewrite length_inserts. unfold block_floats, Renderer2D.VERTEX_SIZE in *. lia.
Qed.

Lemma slot_other_store (mem blk mem' : list f32) (i j : Z) :
  0 <= i -> i <> j -> length blk = Z.to_nat block_floats ->
  store_floats mem (i * block_floats) blk = Some mem' ->
  slot mem' j = slot mem j.
Proof.
  intros Hi Hne Hlen Hst. apply store_floats_inv in Hst as (H0 & H1 & ->).
  unfold slot, load_floats. rewrite length_inserts.
  destruct ((0 <=? j * block_floats) && (0 <=? block_floats) &&
            (j * block_floats + block_floats <=? Z.of_nat (length mem))) eqn:E;
    [|reflexivity].
  f_equal. apply andb_prop in E as [E _]. apply andb_prop in E as [E _].
  apply Z.leb_le in E.
  apply load_list_inserts_disjoint.
  unfold block_floats, Renderer2D.VERTEX_SIZE in *. lia.
Qed.

Lemma store_floats_length (mem blk mem' : list f32) (off : Z) :
  store_floats mem off blk = Some mem' -> length mem' = length mem.
Proof.
  intros Hst. apply store_floats_inv in Hst as (_ & _ & ->). apply length_inserts.
Qed.

Lemma vertices_length (s : Sprite.t) : length (vertices s) = Z.to_nat block_floats.
Proof. reflexivity. Qed.

(** ** Running the batch methods *)

Lemma data_length_ok (B : Z) : capacity_ok B -> data_length B = B * block_floats.
Proof.
  intros [H0 H1]. unfold data_length, wrap_usize, wrap_u32, block_floats,
    Renderer2D.VERTEX_SIZE.
  rewrite (Z.mod_small (B * 6)) by lia. rewrite Z.mod_small; lia.
Qed.

(** The capacity of the header satisfies what the statements below ask
    of a capacity. *)
Lemma header_capacity_ok :
  capacity_ok SpriteBatch.BATCH_SIZE /\ 2 <= SpriteBatch.BATCH_SIZE /\
  data_length SpriteBatch.BATCH_SIZE = 480000.
Proof. repeat split; discriminate. Qed.

Lemma bind_Returns {A B} (m : M A) (f : A -> M B) (w w' : World) (a : A) :
  m w = Returns a w' -> (m ≫= f) w = f a w'.
Proof. intros H. unfold mbind, M_bind. rewrite H. reflexivity. Qed.

Lemma load_batch_run (p : BatchPtr) (b : SpriteBatch.t) (w : World) :
  heap w !! p = Some b -> load_batch p w = Returns b w.
Proof. intros H. unfold load_batch. rewrite H. reflexivity. Qed.

Lemma store_batch_run (p : BatchPtr) (b0 b : SpriteBatch.t) (w : World) :
  heap w !! p = Some b0 ->
  store_batch p b w = Returns tt (mkWorld (sprites w) (<[p := b]> (heap w))).
Proof. intros H. unfold store_batch. rewrite H. reflexivity. Qed.

Lemma load_sprite_run (p : SpritePtr) (s : Sprite.t) (w : World) :
  sprites w !! p = Some s -> load_sprite p w = Returns s w.
Proof. intros H. unfold load_sprite. rewrite H. reflexivity. Qed.

Lemma store_sprite_run (p : SpritePtr) (s0 s : Sprite.t) (w : World) :
  sprites w !! p = Some s0 ->
  store_sprite p s w = Returns tt (mkWorld (<[p := s]> (sprites w)) (heap w)).
Proof. intros H. unfold store_sprite. rewrite H. reflexivity. Qed.

Lemma heap_lookup_insert (h : list SpriteBatch.t) (p : BatchPtr) (b0 b : SpriteBatch.t) :
  h !! p = Some b0 -> <[p := b]> h !! p = Some b.
Proof. intros H. apply list_lookup_insert_eq. eapply lookup_lt_Some, H. Qed.

Lemma rawSetVertices_run (this : BatchPtr) (index : Z) (verts : list f32)
    (b : SpriteBatch.t) (w : World) :
  heap w !! this = Some b ->
  0 <= index -> index * 6 < 2 ^ 31 ->
  length verts = Z.to_nat block_floats ->
  index * block_floats + block_floats <= Z.of_nat (length (SpriteBatch.data b)) ->
  SpriteBatch_rawSetVertices this index verts w =
  Returns tt (mkWorld (sprites w)
    (<[this := SpriteBatch.set_data
                 (list_inserts (Z.to_nat (index * block_floats)) verts (SpriteBatch.data b)) b]>
       (heap w))).
Proof.
  intros Hb H0 H1 Hlen Hfit. unfold SpriteBatch_rawSetVertices.
  rewrite (bind_Returns _ _ _ _ _ (load_batch_run _ _ _ Hb)).
  rewrite slot_offset_i32_in_range by assumption.
  assert (Hsrc : load_floats verts 0 (6 * Renderer2D.VERTEX_SIZE_BYTES / sizeof_f32)
                 = Some verts).
  { rewrite load_floats_in_range.
    - f_equal. rewrite drop_0. apply take_ge. rewrite Hlen.
      apply Nat.eq_le_incl. reflexivity.
    - lia.
    - discriminate.
    - rewrite Hlen. discriminate. }
  rewrite Hsrc.
  rewrite store_floats_in_range.
  - eapply store_batch_run, Hb.
  - unfold block_floats, Renderer2D.VERTEX_SIZE. lia.
  - rewrite Hlen. rewrite Z2Nat.id by discriminate. exact Hfit.
Qed.

Lemma updateSprite_run (this : BatchPtr) (sprite : SpritePtr)
    (b : SpriteBatch.t) (s : Sprite.t) (w : World) :
  heap w !! this = Some b -> sprites w !! sprite = Some s ->
  0 <= Sprite.batchIndex s -> Sprite.batchIndex s * 6 < 2 ^ 31 ->
  Sprite.batchIndex s * block_floats + block_floats
    <= Z.of_nat (length (SpriteBatch.data b)) ->
  SpriteBatch_updateSprite this sprite w =
  Returns tt (mkWorld (sprites w)
    (<[this := SpriteBatch.mk
                 (list_inserts (Z.to_nat (Sprite.batchIndex s * block_floats))
                    (vertices s) (SpriteBatch.data b))
                 (SpriteBatch.texture b) (SpriteBatch.spriteCount b) true]>
       (heap w))).
Proof.
  intros Hb Hs H0 H1 Hfit. unfold SpriteBatch_updateSprite.
  rewrite (bind_Returns _ _ _ _ _ (load_sprite_run _ _ _ Hs)).
  erewrite bind_Returns;
    [| apply rawSetVertices_run; eauto using vertices_length].
  erewrite bind_Returns;
    [| apply load_batch_run; cbn [heap]; eapply heap_lookup_insert, Hb].
  erewrite store_batch_run by (cbn [heap]; eapply heap_lookup_insert, Hb).
  cbn [sprites heap]. rewrite list_insert_insert_eq. reflexivity.
Qed.

Lemma i32_of_u32_small (z : Z) : 0 <= z < 2 ^ 31 -> i32_of_u32 z = z.
Proof.
  intros Hz. unfold i32_of_u32, wrap_u32. rewrite Z.mod_small by lia.
  destruct (z <? 2 ^ 31) eqn:E; [reflexivity|]. apply Z.ltb_ge in E. lia.
Qed.

Lemma wrap_u32_small (z : Z) : 0 <= z < 2 ^ 32 -> wrap_u32 z = z.
Proof. intros Hz. unfold wrap_u32. apply Z.mod_small. lia. Qed.

Lemma hasSpace_run (B : Z) (this : BatchPtr) (b : SpriteBatch.t) (w : World) :
  heap w !! this = Some b ->
  SpriteBatch_hasSpace B this w = Returns (SpriteBatch.spriteCount b <? B) w.
Proof.
  intros Hb. unfold SpriteBatch_hasSpace.
  rewrite (bind_Returns _ _ _ _ _ (load_batch_run _ _ _ Hb)). reflexivity.
Qed.

Lemma addSprite_run (B : Z) (this : BatchPtr) (sprite : SpritePtr)
    (b : SpriteBatch.t) (s : Sprite.t) (w : World) :
  capacity_ok B -> batch_ok B b ->
  heap w !! this = Some b -> sprites w !! sprite = Some s ->
  SpriteBatch.spriteCount b < B ->
  SpriteBatch_addSprite B this sprite w = Returns tt (inserted_world this sprite b s w).
Proof.
  intros Hcap [Hcnt Hlen] Hb Hs Hlt.
  pose proof (data_length_ok B Hcap) as HB. destruct Hcap as [Hpos H6].
  unfold SpriteBatch_addSprite.
  rewrite (bind_Returns _ _ _ _ _ (hasSpace_run B _ _ _ Hb)).
  replace (SpriteBatch.spriteCount b <? B) with true by (symmetry; apply Z.ltb_lt; lia).
  rewrite (bind_Returns _ _ _ _ _ (load_sprite_run _ _ _ Hs)).
  rewrite (bind_Returns _ _ _ _ _ (store_sprite_run _ _ _ _ Hs)).
  erewrite bind_Returns; [| apply load_sprite_run; cbn [sprites]; apply lookup_insert_eq].
  erewrite bind_Returns; [| apply load_batch_run; cbn [heap]; exact Hb].
  erewrite bind_Returns; [| eapply store_sprite_run; cbn [sprites]; apply lookup_insert_eq].
  erewrite bind_Returns; [| eapply store_batch_run; cbn [heap]; exact Hb].
  cbn [sprites heap]. rewrite insert_insert_eq.
  rewrite i32_of_u32_small by lia. rewrite wrap_u32_small by lia.
  erewrite updateSprite_run; cycle 1.
  - cbn [heap]. eapply heap_lookup_insert, Hb.
  - cbn [sprites]. apply lookup_insert_eq.
  - cbn. lia.
  - cbn. lia.
  - cbn. unfold block_floats, Renderer2D.VERTEX_SIZE in *. lia.
  - cbn [sprites heap]. rewrite list_insert_insert_eq. reflexivity.
Qed.

Lemma addSprite_full (B : Z) (this : BatchPtr) (sprite : SpritePtr)
    (b : SpriteBatch.t) (w : World) :
  heap w !! this = Some b -> B <= SpriteBatch.spriteCount b ->
  SpriteBatch_addSprite B this sprite w = Returns tt w.
Proof.
  intros Hb Hfull. unfold SpriteBatch_addSprite.
  rewrite (bind_Returns _ _ _ _ _ (hasSpace_run B _ _ _ Hb)).
  replace (SpriteBatch.spriteCount b <? B) with false by (symmetry; apply Z.ltb_ge; lia).
  reflexivity.
Qed.

Lemma inserted_batch_ok (B : Z) (b : SpriteBatch.t) (s : Sprite.t) :
  batch_ok B b -> SpriteBatch.spriteCount b < B -> batch_ok B (inserted_batch b s).
Proof.
  intros [Hcnt Hlen] Hlt. split; cbn [inserted_batch SpriteBatch.spriteCount SpriteBatch.data].
  - lia.
  - rewrite length_inserts. exact Hlen.
Qed.

(** The storage after [SpriteBatch::removeSprite]: the last live block is
    copied over block [index], then zeroed. *)
Lemma removeSprite_run (this : BatchPtr) (sprite : SpritePtr)
    (b : SpriteBatch.t) (s : Sprite.t) (w : World) :
  heap w !! this = Some b -> sprites w !! sprite = Some s ->
  0 <= Sprite.batchIndex s -> Sprite.batchIndex s * 6 < 2 ^ 31 ->
  Sprite.batchIndex s * block_floats + block_floats
    <= Z.of_nat (length (SpriteBatch.data b)) ->
  1 <= SpriteBatch.spriteCount b -> (SpriteBatch.spriteCount b - 1) * 6 < 2 ^ 31 ->
  (SpriteBatch.spriteCount b - 1) * block_floats + block_floats
    <= Z.of_nat (length (SpriteBatch.data b)) ->
  exists last d1 d2,
    load_floats (SpriteBatch.data b)
      ((SpriteBatch.spriteCount b - 1) * block_floats) block_floats = Some last /\
    store_floats (SpriteBatch.data b) (Sprite.batchIndex s * block_floats) last = Some d1 /\
    store_floats d1 ((SpriteBatch.spriteCount b - 1) * block_floats)
      (replicate (Z.to_nat block_floats) f32_zero) = Some d2 /\
    SpriteBatch_removeSprite this sprite w =
    Returns tt (mkWorld
      (<[sprite := Sprite.set_batchIndex 0 (Sprite.set_batch None s)]> (sprites w))
      (<[this := SpriteBatch.mk d2 (SpriteBatch.texture b)
                   (SpriteBatch.spriteCount b - 1) true]> (heap w))).
Proof.
  intros Hb Hs Hi0 Hi1 Hifit Hc0 Hc1 Hcfit.
  assert (Hbf : block_floats = 48) by reflexivity.
  destruct (load_floats (SpriteBatch.data b)
              ((SpriteBatch.spriteCount b - 1) * block_floats) block_floats)
    as [last|] eqn:Hload;
    [| rewrite load_floats_in_range in Hload by lia; discriminate].
  pose proof (load_floats_length _ _ _ _ Hload) as Hlast.
  destruct (store_floats (SpriteBatch.data b) (Sprite.batchIndex s * block_floats) last)
    as [d1|] eqn:Hst1;
    [| rewrite store_floats_in_range in Hst1 by lia; discriminate].
  pose proof (store_floats_length _ _ _ _ Hst1) as Hd1.
  destruct (store_floats d1 ((SpriteBatch.spriteCount b - 1) * block_floats)
              (replicate (Z.to_nat block_floats) f32_zero)) as [d2|] eqn:Hst2;
    [| rewrite store_floats_in_range in Hst2
         by (rewrite ?length_replicate; lia); discriminate].
  exists last, d1, d2. repeat split; try assumption; try reflexivity.
  unfold SpriteBatch_removeSprite.
  rewrite (bind_Returns _ _ _ _ _ (load_sprite_run _ _ _ Hs)).
  rewrite (bind_Returns _ _ _ _ _ (load_batch_run _ _ _ Hb)).
  rewrite slot_offset_i32_in_range by assumption.
  rewrite last_slot_offset_in_range by assumption.
  change (Renderer2D.VERTEX_SIZE * 6 * sizeof_f32 / sizeof_f32) with block_floats.
  change (6 * Renderer2D.VERTEX_SIZE_BYTES / sizeof_f32) with block_floats.
  rewrite Hload, Hst1, Hst2.
  rewrite (bind_Returns _ _ _ _ _ (store_batch_run _ _ _ _ Hb)).
  erewrite bind_Returns; [| eapply store_sprite_run; cbn [sprites]; exact Hs].
  erewrite bind_Returns;
    [| apply load_batch_run; cbn [heap]; eapply heap_lookup_insert, Hb].
  erewrite store_batch_run by (cbn [heap]; eapply heap_lookup_insert, Hb).
  cbn [sprites heap]. rewrite list_insert_insert_eq.
  rewrite wrap_u32_small by (cbn [SpriteBatch.set_data SpriteBatch.spriteCount]; lia).
  reflexivity.
Qed.

Lemma Sprite_remove_run (this : BatchPtr) (sprite : SpritePtr)
    (b : SpriteBatch.t) (s : Sprite.t) (w : World) :
  heap w !! this = Some b -> sprites w !! sprite = Some s ->
  Sprite.batch s = Some this ->
  0 <= Sprite.batchIndex s -> Sprite.batchIndex s * 6 < 2 ^ 31 ->
  Sprite.batchIndex s * block_floats + block_floats
    <= Z.of_nat (length (SpriteBatch.data b)) ->
  1 <= SpriteBatch.spriteCount b -> (SpriteBatch.spriteCount b - 1) * 6 < 2 ^ 31 ->
  (SpriteBatch.spriteCount b - 1) * block_floats + block_floats
    <= Z.of_nat (length (SpriteBatch.data b)) ->
  exists last d1 d2,
    load_floats (SpriteBatch.data b)
      ((SpriteBatch.spriteCount b - 1) * block_floats) block_floats = Some last /\
    store_floats (SpriteBatch.data b) (Sprite.batchIndex s * block_floats) last = Some d1 /\
    store_floats d1 ((SpriteBatch.spriteCount b - 1) * block_floats) zero_block = Some d2 /\
    Sprite_remove sprite w =
    Returns tt (mkWorld
      (<[sprite := Sprite.set_batchIndex 0 (Sprite.set_batch None s)]> (sprites w))
      (<[this := SpriteBatch.mk d2 (SpriteBatch.texture b)
                   (SpriteBatch.spriteCount b - 1) true]> (heap w))).
Proof.
  intros Hb Hs Hatt Hi0 Hi1 Hifit Hc0 Hc1 Hcfit.
  destruct (removeSprite_run this sprite b s w) as (last & d1 & d2 & Hl & H1 & H2 & Hrun);
    try assumption.
  exists last, d1, d2. repeat split; try assumption.
  unfold Sprite_remove.
  rewrite (bind_Returns _ _ _ _ _ (load_sprite_run _ _ _ Hs)). rewrite Hatt.
  rewrite (bind_Returns _ _ _ _ _ Hrun).
  erewrite bind_Returns; [| apply load_sprite_run; cbn [sprites]; apply lookup_insert_eq].
  erewrite store_sprite_run by (cbn [sprites]; apply lookup_insert_eq).
  cbn [sprites heap]. rewrite insert_insert_eq. reflexivity.
Qed.

(** ** The claims about a single batch *)

(** C4. When [spriteCount < BATCH_SIZE], [SpriteBatch::addSprite] writes the
    sprite's six vertices at slot [spriteCount], gives the sprite the index
    [spriteCount] and a back-reference to this batch, increments
    [spriteCount] and sets [shouldBuffer]. *)
Theorem C4_insert_at_count (B : Z) (this : BatchPtr) (sprite : SpritePtr)
    (b : SpriteBatch.t) (s : Sprite.t) (w : World) :
  capacity_ok B -> batch_ok B b ->
  heap w !! this = Some b -> sprites w !! sprite = Some s ->
  SpriteBatch.spriteCount b < B ->
  exists w' b' s',
    SpriteBatch_addSprite B this sprite w = Returns tt w' /\
    heap w' !! this = Some b' /\ sprites w' !! sprite = Some s' /\
    slot (SpriteBatch.data b') (SpriteBatch.spriteCount b) = Some (vertices s) /\
    Sprite.batchIndex s' = SpriteBatch.spriteCount b /\
    Sprite.batch s' = Some this /\
    SpriteBatch.spriteCount b' = SpriteBatch.spriteCount b + 1 /\
    SpriteBatch.shouldBuffer b' = true.
Proof.
  intros Hcap Hok Hb Hs Hlt.
  exists (inserted_world this sprite b s w), (inserted_batch b s), (inserted_sprite this b s).
  split; [apply addSprite_run; assumption|].
  split; [cbn [inserted_world heap]; eapply heap_lookup_insert, Hb|].
  split; [cbn [inserted_world sprites]; apply lookup_insert_eq|].
  split; [| repeat split].
  pose proof (data_length_ok B Hcap) as HB.
  destruct Hcap as [Hpos H6]. destruct Hok as [Hcnt Hlen].
  apply (slot_after_store (SpriteBatch.data b)); [lia | apply vertices_length |].
  unfold inserted_batch. cbn [SpriteBatch.data].
  apply store_floats_in_range.
  - unfold block_floats, Renderer2D.VERTEX_SIZE. lia.
  - rewrite vertices_length. unfold block_floats, Renderer2D.VERTEX_SIZE in *.
    rewrite Z2Nat.id by lia. lia.
Qed.

Lemma C4_insert_at_count_witness :
  exists w' b' s',
    SpriteBatch_addSprite 2 0%nat pA world0 = Returns tt w' /\
    heap w' !! 0%nat = Some b' /\ sprites w' !! pA = Some s' /\
    slot (SpriteBatch.data b') 0 = Some (vertices spriteA) /\
    Sprite.batchIndex s' = 0 /\
    Sprite.batch s' = Some 0%nat /\
    SpriteBatch.spriteCount b' = 0 + 1 /\
    SpriteBatch.shouldBuffer b' = true.
Proof.
  apply (C4_insert_at_count 2 0%nat pA (SpriteBatch_new 2 scenario_junk T) spriteA world0).
  - split; reflexivity.
  - split; [split; discriminate | reflexivity].
  - reflexivity.
  - reflexivity.
  - reflexivity.
Defined.

(** C2, as the code has it. When [spriteCount] equals [BATCH_SIZE],
    [hasSpace] answers false and [SpriteBatch::addSprite] is a silent no-op:
    it returns normally, throws nothing, and leaves the batch (count,
    storage, dirty flag) and the sprite as they were. *)
Theorem C2_full_batch_drops_insert (B : Z) (this : BatchPtr) (sprite : SpritePtr)
    (b : SpriteBatch.t) (w : World) :
  heap w !! this = Some b -> SpriteBatch.spriteCount b = B ->
  SpriteBatch_hasSpace B this w = Returns false w /\
  SpriteBatch_addSprite B this sprite w = Returns tt w /\
  SpriteBatch_addSprite B this sprite w <> Throws CapacityExceeded.
Proof.
  intros Hb Hfull.
  assert (Hadd : SpriteBatch_addSprite B this sprite w = Returns tt w)
    by (eapply addSprite_full; [exact Hb | lia]).
  split; [| split].
  - rewrite (hasSpace_run B this b w Hb).
    replace (SpriteBatch.spriteCount b <? B) with false
      by (symmetry; apply Z.ltb_ge; lia).
    reflexivity.
  - exact Hadd.
  - rewrite Hadd. discriminate.
Qed.

(** The world of the scenario after A and B were inserted. *)
Lemma two_inserts_fill_the_batch :
  exists w2 b2,
    (SpriteBatch_addSprite 2 0%nat pA;; SpriteBatch_addSprite 2 0%nat pB) world0
      = Returns tt w2 /\
    heap w2 !! 0%nat = Some b2 /\ SpriteBatch.spriteCount b2 = 2.
Proof.
  eexists. eexists. split; [vm_compute; reflexivity|].
  split; [vm_compute; reflexivity|]. reflexivity.
Qed.

Lemma C2_full_batch_drops_insert_witness :
  exists w2,
    (SpriteBatch_addSprite 2 0%nat pA;; SpriteBatch_addSprite 2 0%nat pB) world0
      = Returns tt w2 /\
    SpriteBatch_hasSpace 2 0%nat w2 = Returns false w2 /\
    SpriteBatch_addSprite 2 0%nat pC w2 = Returns tt w2 /\
    SpriteBatch_addSprite 2 0%nat pC w2 <> Throws CapacityExceeded.
Proof.
  eexists. split; [vm_compute; reflexivity|].
  eapply (C2_full_batch_drops_insert 2 0%nat pC).
  - vm_compute. reflexivity.
  - reflexivity.
Defined.

(** C2, as the specification has it, fails on the scenario: after A and B
    fill the batch of capacity 2, inserting C does not fail with
    [CapacityExceeded]; the call returns and nothing has changed. *)
Lemma C2_third_insert_does_not_fail :
  ~ (forall w2 b2,
       (SpriteBatch_addSprite 2 0%nat pA;; SpriteBatch_addSprite 2 0%nat pB) world0
         = Returns tt w2 ->
       heap w2 !! 0%nat = Some b2 -> SpriteBatch.spriteCount b2 = 2 ->
       SpriteBatch_addSprite 2 0%nat pC w2 = Throws CapacityExceeded).
Proof.
  intros Hclaim.
  destruct two_inserts_fill_the_batch as (w2 & b2 & Hrun & Hb & Hcnt).
  specialize (Hclaim w2 b2 Hrun Hb Hcnt).
  rewrite (addSprite_full 2 0%nat pC b2 w2 Hb) in Hclaim by lia.
  discriminate.
Qed.

(** ** Detached sprites *)

(** C7. On a detached sprite ([batch] is null) [Sprite::update] and
    [Sprite::remove] return without any effect: the sprite and every batch
    are left as they were. *)
Theorem C7_detached_noop (sprite : SpritePtr) (s : Sprite.t) (w : World) :
  sprites w !! sprite = Some s -> Sprite.batch s = None ->
  Sprite_update sprite w = Returns tt w /\ Sprite_remove sprite w = Returns tt w.
Proof.
  intros Hs Hdet. split.
  - unfold Sprite_update.
    rewrite (bind_Returns _ _ _ _ _ (load_sprite_run _ _ _ Hs)).
    rewrite Hdet. reflexivity.
  - unfold Sprite_remove.
    rewrite (bind_Returns _ _ _ _ _ (load_sprite_run _ _ _ Hs)).
    rewrite Hdet. reflexivity.
Qed.

Lemma C7_detached_noop_witness :
  Sprite_update pC world0 = Returns tt world0 /\
  Sprite_remove pC world0 = Returns tt world0.
Proof.
  apply (C7_detached_noop pC spriteC world0); reflexivity.
Defined.

(** ** Removal *)

(** C10. Removing an attached sprite from a batch with [spriteCount >= 1]
    writes only the block of the sprite's slot and the block of slot
    [spriteCount - 1]: every other slot of the storage reads as before, and
    the storage keeps its length.  (The index may be any slot of the
    storage, so the statement covers a sprite whose index is stale.) *)
Theorem C10_remove_writes_two_slots (B : Z) (this : BatchPtr) (sprite : SpritePtr)
    (b : SpriteBatch.t) (s : Sprite.t) (w : World) :
  capacity_ok B -> batch_ok B b ->
  heap w !! this = Some b -> sprites w !! sprite = Some s ->
  Sprite.batch s = Some this ->
  1 <= SpriteBatch.spriteCount b ->
  0 <= Sprite.batchIndex s < B ->
  exists w' b',
    Sprite_remove sprite w = Returns tt w' /\
    heap w' !! this = Some b' /\
    length (SpriteBatch.data b') = length (SpriteBatch.data b) /\
    forall j : Z,
      j <> Sprite.batchIndex s -> j <> SpriteBatch.spriteCount b - 1 ->
      slot (SpriteBatch.data b') j = slot (SpriteBatch.data b) j.
Proof.
  intros Hcap Hok Hb Hs Hatt Hc1 Hidx.
  pose proof (data_length_ok B Hcap) as HB.
  destruct Hcap as [Hpos H6]. destruct Hok as [Hcnt Hlen].
  assert (Hbf : block_floats = 48) by reflexivity.
  destruct (Sprite_remove_run this sprite b s w)
    as (last & d1 & d2 & Hl & H1 & H2 & Hrun); try assumption; try lia.
  eexists. eexists. split; [exact Hrun|].
  split; [cbn [heap]; eapply heap_lookup_insert, Hb|].
  cbn [SpriteBatch.data]. split.
  - rewrite (store_floats_length _ _ _ _ H2). apply (store_floats_length _ _ _ _ H1).
  - intros j Hj1 Hj2.
    rewrite (slot_other_store d1 zero_block d2 (SpriteBatch.spriteCount b - 1) j);
      [| lia | congruence | reflexivity | exact H2].
    apply (slot_other_store _ last _ (Sprite.batchIndex s) j);
      [lia | congruence | | exact H1].
    apply (load_floats_length _ _ _ _ Hl).
Qed.

Lemma C10_remove_writes_two_slots_witness :
  exists w' b',
    Sprite_remove pA world3 = Returns tt w' /\
    heap w' !! 0%nat = Some b' /\
    length (SpriteBatch.data b') = length (SpriteBatch.data (batch_at world3 0%nat)) /\
    forall j : Z,
      j <> 0 -> j <> 3 - 1 ->
      slot (SpriteBatch.data b') j = slot (SpriteBatch.data (batch_at world3 0%nat)) j.
Proof.
  apply (C10_remove_writes_two_slots 3 0%nat pA
           (batch_at world3 0%nat) (sprite_at world3 pA) world3).
  - split; reflexivity.
  - split; [split; vm_compute; discriminate | vm_compute; reflexivity].
  - vm_compute. reflexivity.
  - vm_compute. reflexivity.
  - vm_compute. reflexivity.
  - vm_compute. discriminate.
  - split; vm_compute; [discriminate | reflexivity].
Defined.

(** What removal does do: the block of the last live slot lands in the
    vacated slot, the last live slot is zeroed, the count drops by one, the
    batch is marked for upload and the removed sprite is detached. *)
Lemma Sprite_remove_compacts (B : Z) (this : BatchPtr) (sprite : SpritePtr)
    (b : SpriteBatch.t) (s : Sprite.t) (w : World) :
  capacity_ok B -> batch_ok B b ->
  heap w !! this = Some b -> sprites w !! sprite = Some s ->
  Sprite.batch s = Some this ->
  0 <= Sprite.batchIndex s < SpriteBatch.spriteCount b - 1 ->
  exists w' b',
    Sprite_remove sprite w = Returns tt w' /\
    heap w' !! this = Some b' /\
    sprites w' = <[sprite := Sprite.set_batchIndex 0 (Sprite.set_batch None s)]> (sprites w) /\
    slot (SpriteBatch.data b') (Sprite.batchIndex s)
      = slot (SpriteBatch.data b) (SpriteBatch.spriteCount b - 1) /\
    slot (SpriteBatch.data b') (SpriteBatch.spriteCount b - 1) = Some zero_block /\
    SpriteBatch.spriteCount b' = SpriteBatch.spriteCount b - 1 /\
    SpriteBatch.shouldBuffer b' = true.
Proof.
  intros Hcap Hok Hb Hs Hatt Hidx.
  pose proof (data_length_ok B Hcap) as HB.
  destruct Hcap as [Hpos H6]. destruct Hok as [Hcnt Hlen].
  assert (Hbf : block_floats = 48) by reflexivity.
  destruct (Sprite_remove_run this sprite b s w)
    as (last & d1 & d2 & Hl & H1 & H2 & Hrun); try assumption; try lia.
  pose proof (load_floats_length _ _ _ _ Hl) as Hlast.
  eexists. eexists. split; [exact Hrun|].
  split; [cbn [heap]; eapply heap_lookup_insert, Hb|].
  split; [reflexivity|]. cbn [SpriteBatch.data SpriteBatch.spriteCount SpriteBatch.shouldBuffer].
  split; [| split; [| split; reflexivity]].
  - rewrite (slot_other_store d1 zero_block d2 (SpriteBatch.spriteCount b - 1)
               (Sprite.batchIndex s)); [| lia | lia | reflexivity | exact H2].
    rewrite (slot_after_store (SpriteBatch.data b) last d1 (Sprite.batchIndex s));
      [| lia | exact Hlast | exact H1].
    symmetry. exact Hl.
  - apply (slot_after_store d1); [lia | reflexivity | exact H2].
Qed.

(** ** Invisibility *)

Lemma toggle_on_run (this : BatchPtr) (sprite : SpritePtr)
    (b : SpriteBatch.t) (s : Sprite.t) (w : World) :
  heap w !! this = Some b -> sprites w !! sprite = Some s ->
  Sprite.batch s = Some this -> Sprite.invisible s = false ->
  0 <= Sprite.batchIndex s -> Sprite.batchIndex s * 6 < 2 ^ 31 ->
  Sprite.batchIndex s * block_floats + block_floats
    <= Z.of_nat (length (SpriteBatch.data b)) ->
  Sprite_toggleInvisibility sprite w =
  Returns tt (mkWorld
    (<[sprite := Sprite.set_invisible true s]> (sprites w))
    (<[this := SpriteBatch.mk
                 (list_inserts (Z.to_nat (Sprite.batchIndex s * block_floats))
                    zero_block (SpriteBatch.data b))
                 (SpriteBatch.texture b) (SpriteBatch.spriteCount b) true]> (heap w))).
Proof.
  intros Hb Hs Hatt Hvis H0 H1 Hfit. unfold Sprite_toggleInvisibility.
  rewrite (bind_Returns _ _ _ _ _ (load_sprite_run _ _ _ Hs)). rewrite Hatt, Hvis.
  erewrite bind_Returns;
    [| apply rawSetVertices_run; eauto; reflexivity].
  erewrite bind_Returns;
    [| apply load_batch_run; cbn [heap]; eapply heap_lookup_insert, Hb].
  cbn [SpriteBatch.set_data SpriteBatch.shouldBuffer].
  destruct (SpriteBatch.shouldBuffer b) eqn:Hdirty; cbn [negb].
  - unfold mret at 1, M_ret at 1.
    erewrite bind_Returns; [| reflexivity].
    erewrite bind_Returns; [| apply load_sprite_run; cbn [sprites]; exact Hs].
    erewrite store_sprite_run by (cbn [sprites]; exact Hs).
    cbn [sprites heap]. unfold SpriteBatch.set_data. rewrite Hdirty. reflexivity.
  - erewrite bind_Returns;
      [| eapply store_batch_run; cbn [heap]; eapply heap_lookup_insert, Hb].
    erewrite bind_Returns; [| apply load_sprite_run; cbn [sprites]; exact Hs].
    erewrite store_sprite_run by (cbn [sprites]; exact Hs).
    cbn [sprites heap]. rewrite list_insert_insert_eq. reflexivity.
Qed.

Lemma toggle_off_run (this : BatchPtr) (sprite : SpritePtr)
    (b : SpriteBatch.t) (s : Sprite.t) (w : World) :
  heap w !! this = Some b -> sprites w !! sprite = Some s ->
  Sprite.batch s = Some this -> Sprite.invisible s = true ->
  0 <= Sprite.batchIndex s -> Sprite.batchIndex s * 6 < 2 ^ 31 ->
  Sprite.batchIndex s * block_floats + block_floats
    <= Z.of_nat (length (SpriteBatch.data b)) ->
  Sprite_toggleInvisibility sprite w =
  Returns tt (mkWorld
    (<[sprite := Sprite.set_invisible false s]> (sprites w))
    (<[this := SpriteBatch.mk
                 (list_inserts (Z.to_nat (Sprite.batchIndex s * block_floats))
                    (vertices s) (SpriteBatch.data b))
                 (SpriteBatch.texture b) (SpriteBatch.spriteCount b) true]> (heap w))).
Proof.
  intros Hb Hs Hatt Hinv H0 H1 Hfit. unfold Sprite_toggleInvisibility.
  rewrite (bind_Returns _ _ _ _ _ (load_sprite_run _ _ _ Hs)). rewrite Hatt, Hinv.
  assert (Hupd : Sprite_update sprite w =
    Returns tt (mkWorld (sprites w)
      (<[this := SpriteBatch.mk
                 (list_inserts (Z.to_nat (Sprite.batchIndex s * block_floats))
                    (vertices s) (SpriteBatch.data b))
                 (SpriteBatch.texture b) (SpriteBatch.spriteCount b) true]> (heap w)))).
  { unfold Sprite_update.
    rewrite (bind_Returns _ _ _ _ _ (load_sprite_run _ _ _ Hs)). rewrite Hatt.
    apply updateSprite_run; assumption. }
  rewrite (bind_Returns _ _ _ _ _ Hupd).
  erewrite bind_Returns; [| apply load_sprite_run; cbn [sprites]; exact Hs].
  erewrite store_sprite_run by (cbn [sprites]; exact Hs).
  reflexivity.
Qed.

(** C6, as the code has it. For an attached, visible sprite whose fields
    are not changed between the two calls, the first
    [toggleInvisibility] writes the all-zero block to the sprite's slot and
    the second rewrites the slot with the six-vertex encoding of the sprite's
    fields, leaving the sprite as it was; the slot therefore holds the data
    it held before the first call whenever it then held that encoding. *)
Theorem C6_toggle_pair (B : Z) (this : BatchPtr) (sprite : SpritePtr)
    (b : SpriteBatch.t) (s : Sprite.t) (w : World) :
  capacity_ok B -> batch_ok B b ->
  heap w !! this = Some b -> sprites w !! sprite = Some s ->
  Sprite.batch s = Some this -> Sprite.invisible s = false ->
  0 <= Sprite.batchIndex s < B ->
  exists w1 b1 w2 b2,
    Sprite_toggleInvisibility sprite w = Returns tt w1 /\
    heap w1 !! this = Some b1 /\
    slot (SpriteBatch.data b1) (Sprite.batchIndex s) = Some zero_block /\
    Sprite_toggleInvisibility sprite w1 = Returns tt w2 /\
    heap w2 !! this = Some b2 /\
    sprites w2 !! sprite = Some s /\
    slot (SpriteBatch.data b2) (Sprite.batchIndex s) = Some (vertices s) /\
    (slot (SpriteBatch.data b) (Sprite.batchIndex s) = Some (vertices s) ->
     slot (SpriteBatch.data b2) (Sprite.batchIndex s)
       = slot (SpriteBatch.data b) (Sprite.batchIndex s)).
Proof.
  intros Hcap Hok Hb Hs Hatt Hvis Hidx.
  pose proof (data_length_ok B Hcap) as HB.
  destruct Hcap as [Hpos H6]. destruct Hok as [Hcnt Hlen].
  assert (Hbf : block_floats = 48) by reflexivity.
  pose proof (toggle_on_run this sprite b s w Hb Hs Hatt Hvis) as Hon.
  specialize (Hon ltac:(lia) ltac:(lia) ltac:(lia)).
  set (d1 := list_inserts (Z.to_nat (Sprite.batchIndex s * block_floats))
               zero_block (SpriteBatch.data b)) in *.
  set (b1 := SpriteBatch.mk d1 (SpriteBatch.texture b) (SpriteBatch.spriteCount b) true) in *.
  set (w1 := mkWorld (<[sprite := Sprite.set_invisible true s]> (sprites w))
                     (<[this := b1]> (heap w))) in *.
  assert (Hb1 : heap w1 !! this = Some b1) by (eapply heap_lookup_insert, Hb).
  assert (Hs1 : sprites w1 !! sprite = Some (Sprite.set_invisible true s))
    by apply lookup_insert_eq.
  assert (Hd1 : length d1 = length (SpriteBatch.data b)) by apply length_inserts.
  pose proof (toggle_off_run this sprite b1 _ w1 Hb1 Hs1 Hatt eq_refl) as Hoff.
  cbn [Sprite.set_invisible Sprite.batchIndex SpriteBatch.data b1] in Hoff.
  specialize (Hoff ltac:(lia) ltac:(lia) ltac:(lia)).
  assert (Hslot2 : slot (list_inserts (Z.to_nat (Sprite.batchIndex s * block_floats))
                           (vertices s) d1) (Sprite.batchIndex s) = Some (vertices s)).
  { apply (slot_after_store d1); [lia | apply vertices_length |].
    apply store_floats_in_range; [lia |]. rewrite vertices_length. lia. }
  eexists w1, b1, _, _.
  split; [exact Hon|]. split; [exact Hb1|].
  split.
  { apply (slot_after_store (SpriteBatch.data b)); [lia | reflexivity |].
    apply store_floats_in_range; [lia |]. change (length zero_block) with 48%nat. lia. }
  split; [exact Hoff|].
  split; [cbn [heap]; eapply heap_lookup_insert, Hb1|].
  split.
  { cbn [sprites w1]. rewrite insert_insert_eq, lookup_insert_eq.
    f_equal. destruct s. cbn in Hvis. subst. reflexivity. }
  split; [exact Hslot2|].
  intros Hsync. cbn [SpriteBatch.data]. rewrite Hsync. exact Hslot2.
Qed.

Lemma C6_toggle_pair_witness :
  exists w1 b1 w2 b2,
    Sprite_toggleInvisibility pB world3 = Returns tt w1 /\
    heap w1 !! 0%nat = Some b1 /\
    slot (SpriteBatch.data b1) 1 = Some zero_block /\
    Sprite_toggleInvisibility pB w1 = Returns tt w2 /\
    heap w2 !! 0%nat = Some b2 /\
    sprites w2 !! pB = Some (sprite_at world3 pB) /\
    slot (SpriteBatch.data b2) 1 = Some (vertices (sprite_at world3 pB)) /\
    (slot (SpriteBatch.data (batch_at world3 0%nat)) 1
       = Some (vertices (sprite_at world3 pB)) ->
     slot (SpriteBatch.data b2) 1 = slot (SpriteBatch.data (batch_at world3 0%nat)) 1).
Proof.
  apply (C6_toggle_pair 3 0%nat pB (batch_at world3 0%nat) (sprite_at world3 pB) world3).
  - split; reflexivity.
  - split; [split; vm_compute; discriminate | vm_compute; reflexivity].
  - vm_compute. reflexivity.
  - vm_compute. reflexivity.
  - vm_compute. reflexivity.
  - vm_compute. reflexivity.
  - split; vm_compute; [discriminate | reflexivity].
Defined.

(** C6, as the specification has it, fails when the slot is out of date:
    A is attached, the caller moves it without [update ()], then toggles
    twice with no field change in between.  The sprite is as it was, but
    the slot holds the encoding of the new position, not the data it held
    before the first toggle. *)
Lemma C6_toggle_pair_changes_stale_slot :
  Sprite.batch (sprite_at world_unsynced pA) = Some 0%nat /\
  Sprite.invisible (sprite_at world_unsynced pA) = false /\
  exists w2,
    (Sprite_toggleInvisibility pA;; Sprite_toggleInvisibility pA) world_unsynced
      = Returns tt w2 /\
    sprites w2 = sprites world_unsynced /\
    slot (SpriteBatch.data (batch_at w2 0%nat)) 0
      <> slot (SpriteBatch.data (batch_at world_unsynced 0%nat)) 0.
Proof.
  split; [vm_compute; reflexivity|]. split; [vm_compute; reflexivity|].
  eexists. split; [vm_compute; reflexivity|].
  split; [vm_compute; reflexivity|].
  vm_compute. discriminate.
Qed.

(** ** Removal and the index of the moved sprite *)

(** C1 on the scenario of the specification. After A is removed from the
    batch holding A (slot 0) and B (slot 1), the count is 1 and slot 0 holds
    B's block, but B still carries index 1: [removeSprite] has no way to
    reach B.  When B is then moved and updated, slot 0 keeps the old block
    and the new one lands in slot 1, outside the live range. *)
Theorem C1_moved_sprite_keeps_old_index :
  exists w3,
    Sprite_remove pA world2 = Returns tt w3 /\
    SpriteBatch.spriteCount (batch_at w3 0%nat) = 1 /\
    slot (SpriteBatch.data (batch_at w3 0%nat)) 0 = Some (vertices spriteB) /\
    Sprite.batch (sprite_at w3 pB) = Some 0%nat /\
    Sprite.batchIndex (sprite_at w3 pB) = 1 /\
    exists w4,
      (assign_pos pB (vec2_of 5 5);; Sprite_update pB) w3 = Returns tt w4 /\
      SpriteBatch.spriteCount (batch_at w4 0%nat) = 1 /\
      slot (SpriteBatch.data (batch_at w4 0%nat)) 0 = Some (vertices spriteB) /\
      slot (SpriteBatch.data (batch_at w4 0%nat)) 1
        = Some (vertices (sprite_at w4 pB)) /\
      vertices (sprite_at w4 pB) <> vertices spriteB.
Proof.
  eexists. split; [vm_compute; reflexivity|].
  split; [vm_compute; reflexivity|]. split; [vm_compute; reflexivity|].
  split; [vm_compute; reflexivity|]. split; [vm_compute; reflexivity|].
  eexists. split; [vm_compute; reflexivity|].
  split; [vm_compute; reflexivity|]. split; [vm_compute; reflexivity|].
  split; [vm_compute; reflexivity|].
  vm_compute. discriminate.
Qed.

(** C3 on a sequence of inserts and removes. After insert A, insert B,
    remove A, insert C, remove B on a batch of capacity 2, the only live
    sprite is C and the count is 1, but slot 0 holds the block of the
    removed B and C's block is gone: removing B, whose index was never
    moved from 1 to 0, zeroed the slot that C had been given. *)
Theorem C3_live_block_lost :
  exists w,
    (SpriteBatch_addSprite 2 0%nat pA;; SpriteBatch_addSprite 2 0%nat pB;;
     Sprite_remove pA;; SpriteBatch_addSprite 2 0%nat pC;; Sprite_remove pB) world0
      = Returns tt w /\
    Sprite.batch (sprite_at w pA) = None /\
    Sprite.batch (sprite_at w pB) = None /\
    Sprite.batch (sprite_at w pC) = Some 0%nat /\
    SpriteBatch.spriteCount (batch_at w 0%nat) = 1 /\
    slot (SpriteBatch.data (batch_at w 0%nat)) 0 = Some (vertices spriteB) /\
    slot (SpriteBatch.data (batch_at w 0%nat)) 0 <> Some (vertices (sprite_at w pC)) /\
    slot (SpriteBatch.data (batch_at w 0%nat)) 1 = Some zero_block.
Proof.
  eexists. split; [vm_compute; reflexivity|].
  split; [vm_compute; reflexivity|]. split; [vm_compute; reflexivity|].
  split; [vm_compute; reflexivity|]. split; [vm_compute; reflexivity|].
  split; [vm_compute; reflexivity|].
  split; [vm_compute; discriminate|].
  vm_compute. reflexivity.
Qed.

(** ** The router *)

Lemma fits_true (B : Z) (w : World) (tex : TexturePtr) (p : BatchPtr) :
  fits B w tex p = true ->
  exists b, heap w !! p = Some b /\ SpriteBatch.texture b = tex /\
            SpriteBatch.spriteCount b < B.
Proof.
  unfold fits. destruct (heap w !! p) as [b|]; [|discriminate].
  intros H. apply andb_prop in H as [Ht Hc].
  exists b. split; [reflexivity|]. split.
  - apply bool_decide_eq_true in Ht. exact Ht.
  - apply Z.ltb_lt. exact Hc.
Qed.

(** The loop stops at the first batch that fits and inserts there; it
    changes nothing when no batch fits. *)
Lemma addSprite_scan_spec (B : Z) (sprite : SpritePtr) (s : Sprite.t) (w : World)
    (bs : list BatchPtr) :
  capacity_ok B ->
  Forall (fun p => exists b, heap w !! p = Some b /\ batch_ok B b) bs ->
  sprites w !! sprite = Some s ->
  addSprite_scan B bs sprite w =
  match first_fit B w (Sprite.texture s) bs with
  | Some p => Returns true (inserted_world p sprite (batch_at w p) s w)
  | None => Returns false w
  end.
Proof.
  intros Hcap Hall Hs. induction Hall as [| p bs (b & Hb & Hok) Hall IH].
  - reflexivity.
  - cbn [addSprite_scan first_fit List.find].
    rewrite (bind_Returns _ _ _ _ _ (load_batch_run _ _ _ Hb)).
    rewrite (bind_Returns _ _ _ _ _ (load_sprite_run _ _ _ Hs)).
    unfold fits at 1. rewrite Hb.
    destruct (decide (SpriteBatch.texture b = Sprite.texture s)) as [Ht|Ht].
    + rewrite (bool_decide_eq_true_2 _ Ht). cbn [andb].
      rewrite (bind_Returns _ _ _ _ _ (hasSpace_run B _ _ _ Hb)).
      destruct (SpriteBatch.spriteCount b <? B) eqn:Hc.
      * apply Z.ltb_lt in Hc.
        rewrite (bind_Returns _ _ _ _ _
                   (addSprite_run B p sprite b s w Hcap Hok Hb Hs Hc)).
        unfold batch_at. rewrite Hb. reflexivity.
      * exact IH.
    + rewrite (bool_decide_eq_false_2 _ Ht). cbn [andb]. exact IH.
Qed.

Lemma SpriteBatch_new_ok (B : Z) (junk : nat -> f32) (tex : TexturePtr) :
  capacity_ok B -> batch_ok B (SpriteBatch_new B junk tex).
Proof.
  intros Hcap. pose proof (data_length_ok B Hcap) as HB. destruct Hcap as [Hpos H6].
  split; cbn [SpriteBatch_new SpriteBatch.spriteCount SpriteBatch.data].
  - lia.
  - rewrite length_map, length_seq. rewrite Z2Nat.id; [reflexivity|].
    rewrite HB. unfold block_floats, Renderer2D.VERTEX_SIZE. lia.
Qed.

(** [Renderer2D::addSprite] is first fit: the sprite goes to the first
    batch, in creation order, with its texture and with space; when there
    is none a batch is created for the texture, the sprite goes there, and
    the batch is pushed at the back. *)
Lemma Renderer2D_addSprite_spec (B : Z) (junk : nat -> f32) (r : Renderer2D.t)
    (sprite : SpritePtr) (s : Sprite.t) (w : World) :
  capacity_ok B -> router_ok B r w -> sprites w !! sprite = Some s ->
  Renderer2D_addSprite B junk r sprite w =
  match first_fit B w (Sprite.texture s) (Renderer2D.batches r) with
  | Some p => Returns r (inserted_world p sprite (batch_at w p) s w)
  | None =>
    let fresh := SpriteBatch_new B junk (Sprite.texture s) in
    Returns (Renderer2D.mk (Renderer2D.batches r ++ [length (heap w)]))
            (inserted_world (length (heap w)) sprite fresh s
               (mkWorld (sprites w) (heap w ++ [fresh])))
  end.
Proof.
  intros Hcap Hok Hs. unfold Renderer2D_addSprite.
  unfold mbind at 1, M_bind at 1.
  rewrite (addSprite_scan_spec B sprite s w) by assumption.
  destruct (first_fit B w (Sprite.texture s) (Renderer2D.batches r)) as [p|] eqn:Hff.
  - reflexivity.
  - rewrite (bind_Returns _ _ _ _ _ (load_sprite_run _ _ _ Hs)).
    erewrite bind_Returns; [| reflexivity].
    erewrite bind_Returns; [reflexivity |].
    apply (addSprite_run B (length (heap w)) sprite
             (SpriteBatch_new B junk (Sprite.texture s)) s).
    + exact Hcap.
    + apply SpriteBatch_new_ok, Hcap.
    + cbn [heap]. apply list_lookup_middle. reflexivity.
    + exact Hs.
    + destruct Hcap. cbn. lia.
Qed.

Lemma first_fit_Some (B : Z) (w : World) (tex : TexturePtr) (bs : list BatchPtr)
    (p : BatchPtr) :
  first_fit B w tex bs = Some p ->
  p ∈ bs /\ exists b, heap w !! p = Some b /\ SpriteBatch.texture b = tex /\
                      SpriteBatch.spriteCount b < B.
Proof.
  intros H. apply List.find_some in H as [Hin Hfit]. split.
  - apply list_elem_of_In, Hin.
  - apply fits_true, Hfit.
Qed.

Lemma router_ok_insert (B : Z) (r : Renderer2D.t) (w : World) (S' : gmap SpritePtr Sprite.t)
    (p : BatchPtr) (b' : SpriteBatch.t) :
  router_ok B r w -> batch_ok B b' ->
  router_ok B r (mkWorld S' (<[p := b']> (heap w))).
Proof.
  intros Hok Hb'. unfold router_ok in *. eapply Forall_impl; [exact Hok|].
  intros q (b & Hq & Hbok). cbn [heap].
  destruct (decide (p = q)) as [->|Hne].
  - exists b'. split; [eapply heap_lookup_insert, Hq | exact Hb'].
  - exists b. split; [rewrite list_lookup_insert_ne by exact Hne; exact Hq | exact Hbok].
Qed.

Lemma router_ok_alloc (B : Z) (r : Renderer2D.t) (w : World) (S' : gmap SpritePtr Sprite.t)
    (fresh : SpriteBatch.t) :
  router_ok B r w -> batch_ok B fresh ->
  router_ok B (Renderer2D.mk (Renderer2D.batches r ++ [length (heap w)]))
            (mkWorld S' (heap w ++ [fresh])).
Proof.
  intros Hok Hfresh. unfold router_ok in *. cbn [Renderer2D.batches heap].
  apply Forall_app. split.
  - eapply Forall_impl; [exact Hok|]. intros q (b & Hq & Hbok).
    exists b. split; [apply lookup_app_l_Some, Hq | exact Hbok].
  - apply Forall_singleton. exists fresh. split; [|exact Hfresh].
    apply list_lookup_middle. reflexivity.
Qed.

(** C9. Whatever batches the router holds, after [Renderer2D::addSprite]
    the sprite is attached to a batch of the router whose texture is the
    sprite's; when no batch with that texture has space, this is a newly
    created batch, which holds the sprite as its only one.  The router stays
    well formed. *)
Theorem C9_router_always_attaches (B : Z) (junk : nat -> f32) (r : Renderer2D.t)
    (sprite : SpritePtr) (s : Sprite.t) (w : World) :
  capacity_ok B -> router_ok B r w -> sprites w !! sprite = Some s ->
  exists r' w' s' p b',
    Renderer2D_addSprite B junk r sprite w = Returns r' w' /\
    sprites w' !! sprite = Some s' /\
    Sprite.batch s' = Some p /\
    Sprite.texture s' = Sprite.texture s /\
    p ∈ Renderer2D.batches r' /\
    heap w' !! p = Some b' /\
    SpriteBatch.texture b' = Sprite.texture s' /\
    (first_fit B w (Sprite.texture s) (Renderer2D.batches r) = None ->
     Renderer2D.batches r' = Renderer2D.batches r ++ [p] /\
     p = length (heap w) /\ SpriteBatch.spriteCount b' = 1) /\
    router_ok B r' w'.
Proof.
  intros Hcap Hok Hs.
  rewrite (Renderer2D_addSprite_spec B junk r sprite s w Hcap Hok Hs).
  destruct (first_fit B w (Sprite.texture s) (Renderer2D.batches r)) as [p|] eqn:Hff.
  - apply first_fit_Some in Hff as (Hin & b & Hb & Htex & Hlt).
    assert (Hbok : batch_ok B b).
    { unfold router_ok in Hok. rewrite Forall_forall in Hok.
      destruct (Hok p Hin) as (b0 & Hb0 & Hb0ok). congruence. }
    unfold batch_at. rewrite Hb. cbn [default].
    exists r, (inserted_world p sprite b s w), (inserted_sprite p b s), p,
      (inserted_batch b s).
    split; [reflexivity|].
    split; [apply lookup_insert_eq|].
    split; [reflexivity|]. split; [reflexivity|]. split; [exact Hin|].
    split; [eapply heap_lookup_insert, Hb|].
    split; [exact Htex|]. split; [discriminate|].
    apply router_ok_insert; [exact Hok|]. apply inserted_batch_ok; assumption.
  - set (fresh := SpriteBatch_new B junk (Sprite.texture s)).
    pose proof (SpriteBatch_new_ok B junk (Sprite.texture s) Hcap) as Hfresh.
    exists (Renderer2D.mk (Renderer2D.batches r ++ [length (heap w)])),
      (inserted_world (length (heap w)) sprite fresh s
         (mkWorld (sprites w) (heap w ++ [fresh]))),
      (inserted_sprite (length (heap w)) fresh s), (length (heap w)),
      (inserted_batch fresh s).
    split; [reflexivity|].
    split; [apply lookup_insert_eq|].
    split; [reflexivity|]. split; [reflexivity|].
    split; [cbn [Renderer2D.batches]; apply elem_of_app; right; apply list_elem_of_singleton; reflexivity|].
    split; [eapply heap_lookup_insert; cbn [heap]; apply list_lookup_middle; reflexivity|].
    split; [reflexivity|].
    split; [intros _; repeat split|].
    unfold inserted_world.
    apply (router_ok_insert B _ (mkWorld (sprites w) (heap w ++ [fresh]))).
    + apply router_ok_alloc; assumption.
    + apply inserted_batch_ok; [exact Hfresh|]. destruct Hcap. cbn. lia.
Qed.

Lemma C9_router_always_attaches_witness :
  exists r' w' s' p b',
    Renderer2D_addSprite 2 scenario_junk (Renderer2D.mk [0%nat]) pC world2
      = Returns r' w' /\
    sprites w' !! pC = Some s' /\
    Sprite.batch s' = Some p /\
    Sprite.texture s' = Sprite.texture spriteC /\
    p ∈ Renderer2D.batches r' /\
    heap w' !! p = Some b' /\
    SpriteBatch.texture b' = Sprite.texture s' /\
    (first_fit 2 world2 (Sprite.texture spriteC) [0%nat] = None ->
     Renderer2D.batches r' = [0%nat] ++ [p] /\
     p = length (heap world2) /\ SpriteBatch.spriteCount b' = 1) /\
    router_ok 2 r' w'.
Proof.
  apply (C9_router_always_attaches 2 scenario_junk (Renderer2D.mk [0%nat]) pC spriteC world2).
  - split; reflexivity.
  - apply Forall_singleton. exists (batch_at world2 0%nat).
    split; [vm_compute; reflexivity|].
    split; [split; vm_compute; discriminate | vm_compute; reflexivity].
  - vm_compute. reflexivity.
Defined.

(** ** The router on two textures *)

Lemma fits_lookup (B : Z) (w : World) (tex : TexturePtr) (p : BatchPtr) (b : SpriteBatch.t) :
  heap w !! p = Some b ->
  fits B w tex p = bool_decide (SpriteBatch.texture b = tex)
                   && (SpriteBatch.spriteCount b <? B).
Proof. intros H. unfold fits. rewrite H. reflexivity. Qed.

Lemma fits_same (B : Z) (w : World) (tex : TexturePtr) (p : BatchPtr) (b : SpriteBatch.t) :
  heap w !! p = Some b -> SpriteBatch.texture b = tex ->
  SpriteBatch.spriteCount b < B -> fits B w tex p = true.
Proof.
  intros H Ht Hc. rewrite (fits_lookup B w tex p b H).
  rewrite (bool_decide_eq_true_2 _ Ht). apply Z.ltb_lt in Hc. rewrite Hc. reflexivity.
Qed.

Lemma fits_other (B : Z) (w : World) (tex : TexturePtr) (p : BatchPtr) (b : SpriteBatch.t) :
  heap w !! p = Some b -> SpriteBatch.texture b <> tex -> fits B w tex p = false.
Proof.
  intros H Ht. rewrite (fits_lookup B w tex p b H).
  rewrite (bool_decide_eq_false_2 _ Ht). reflexivity.
Qed.

Lemma insert_snoc {A} (h : list A) (x y : A) : <[length h := y]> (h ++ [x]) = h ++ [y].
Proof.
  pose proof (insert_app_r h [x] 0 y) as H. rewrite Nat.add_0_r in H. exact H.
Qed.

(** The two outcomes of [Renderer2D::addSprite], with the heap in the
    shape in which the next call finds it. *)
Lemma add_creates (B : Z) (junk : nat -> f32) (r : Renderer2D.t) (sprite : SpritePtr)
    (s : Sprite.t) (S0 : gmap SpritePtr Sprite.t) (h : list SpriteBatch.t) :
  capacity_ok B -> router_ok B r (mkWorld S0 h) -> S0 !! sprite = Some s ->
  first_fit B (mkWorld S0 h) (Sprite.texture s) (Renderer2D.batches r) = None ->
  Renderer2D_addSprite B junk r sprite (mkWorld S0 h) =
  Returns (Renderer2D.mk (Renderer2D.batches r ++ [length h]))
    (mkWorld (<[sprite := inserted_sprite (length h)
                             (SpriteBatch_new B junk (Sprite.texture s)) s]> S0)
             (h ++ [inserted_batch (SpriteBatch_new B junk (Sprite.texture s)) s])).
Proof.
  intros Hcap Hok Hs Hff.
  rewrite (Renderer2D_addSprite_spec B junk r sprite s _ Hcap Hok Hs). rewrite Hff.
  cbv zeta. unfold inserted_world. cbn [heap sprites].
  rewrite insert_snoc. reflexivity.
Qed.

Lemma add_reuses (B : Z) (junk : nat -> f32) (r : Renderer2D.t) (sprite : SpritePtr)
    (s : Sprite.t) (S0 : gmap SpritePtr Sprite.t) (h : list SpriteBatch.t)
    (p : BatchPtr) (b : SpriteBatch.t) :
  capacity_ok B -> router_ok B r (mkWorld S0 h) -> S0 !! sprite = Some s ->
  first_fit B (mkWorld S0 h) (Sprite.texture s) (Renderer2D.batches r) = Some p ->
  h !! p = Some b ->
  Renderer2D_addSprite B junk r sprite (mkWorld S0 h) =
  Returns r (mkWorld (<[sprite := inserted_sprite p b s]> S0)
                     (<[p := inserted_batch b s]> h)).
Proof.
  intros Hcap Hok Hs Hff Hb.
  rewrite (Renderer2D_addSprite_spec B junk r sprite s _ Hcap Hok Hs). rewrite Hff.
  unfold batch_at. cbn [heap]. rewrite Hb. reflexivity.
Qed.

Lemma insert_snoc_app {A} (h t : list A) (x y : A) :
  <[length h := y]> ((h ++ [x]) ++ t) = (h ++ [y]) ++ t.
Proof.
  rewrite insert_app_l by (rewrite length_app; cbn; lia).
  rewrite insert_snoc. reflexivity.
Qed.

Section RouterScenario.

Variable B : Z.
Variable junk : nat -> f32.
Variable S0 : gmap SpritePtr Sprite.t.
Variable h0 : list SpriteBatch.t.
Variables p1 p2 p3 : SpritePtr.
Variables s1 s2 s3 : Sprite.t.
Variables T1 T2 : TexturePtr.

Hypothesis Hcap : capacity_ok B.
Hypothesis Htwo : 2 <= B.
Hypothesis HT : T1 <> T2.
Hypothesis H12 : p1 <> p2.
Hypothesis H13 : p1 <> p3.
Hypothesis H23 : p2 <> p3.
Hypothesis Hs1 : S0 !! p1 = Some s1.
Hypothesis Hs2 : S0 !! p2 = Some s2.
Hypothesis Hs3 : S0 !! p3 = Some s3.

Local Abbreviation fresh s := (SpriteBatch_new B junk (Sprite.texture s)).

Local Lemma fresh_ok (s : Sprite.t) : batch_ok B (inserted_batch (fresh s) s).
Proof.
  apply inserted_batch_ok; [apply SpriteBatch_new_ok, Hcap|]. cbn. lia.
Qed.

Local Lemma second_ok (s s' : Sprite.t) :
  batch_ok B (inserted_batch (inserted_batch (fresh s) s) s').
Proof. apply inserted_batch_ok; [apply fresh_ok|]. cbn. lia. Qed.

Local Lemma router_ok_one (S' : gmap SpritePtr Sprite.t) (b : SpriteBatch.t) :
  batch_ok B b ->
  router_ok B (Renderer2D.mk [length h0]) (mkWorld S' (h0 ++ [b])).
Proof.
  intros Hb. apply Forall_singleton. exists b. split; [|exact Hb].
  apply list_lookup_middle. reflexivity.
Qed.

Local Lemma router_ok_two (S' : gmap SpritePtr Sprite.t) (b b' : SpriteBatch.t) :
  batch_ok B b -> batch_ok B b' ->
  router_ok B (Renderer2D.mk [length h0; length (h0 ++ [b])])
            (mkWorld S' ((h0 ++ [b]) ++ [b'])).
Proof.
  intros Hb Hb'. apply Forall_cons. split; [|apply Forall_singleton].
  - exists b. split; [|exact Hb].
    apply lookup_app_l_Some, list_lookup_middle. reflexivity.
  - exists b'. split; [|exact Hb']. apply list_lookup_middle. reflexivity.
Qed.

(** The first sprite always opens the first batch. *)
Local Lemma first_add :
  Renderer2D_addSprite B junk (Renderer2D.mk []) p1 (mkWorld S0 h0) =
  Returns (Renderer2D.mk [length h0])
    (mkWorld (<[p1 := inserted_sprite (length h0) (fresh s1) s1]> S0)
             (h0 ++ [inserted_batch (fresh s1) s1])).
Proof.
  apply (add_creates B junk (Renderer2D.mk []) p1 s1 S0 h0 Hcap);
    [apply Forall_nil_2 | exact Hs1 | reflexivity].
Qed.

Lemma scenario_T1_T1_T2 :
  Sprite.texture s1 = T1 -> Sprite.texture s2 = T1 -> Sprite.texture s3 = T2 ->
  two_batches (add_three B junk p1 p2 p3 (mkWorld S0 h0)) T1 T2
              [(p1, s1); (p2, s2); (p3, s3)].
Proof.
  intros Ht1 Ht2 Ht3. unfold add_three.
  rewrite (bind_Returns _ _ _ _ _ first_add).
  set (b1 := inserted_batch (fresh s1) s1).
  set (S1 := <[p1 := inserted_sprite (length h0) (fresh s1) s1]> S0).
  assert (Hl1 : (h0 ++ [b1]) !! length h0 = Some b1)
    by (apply list_lookup_middle; reflexivity).
  erewrite bind_Returns;
    [| apply (add_reuses B junk _ p2 s2 S1 _ (length h0) b1 Hcap);
       [ apply router_ok_one, fresh_ok
       | unfold S1; rewrite lookup_insert_ne by exact H12; exact Hs2
       | cbn [Renderer2D.batches first_fit List.find];
         rewrite (fits_same B _ _ _ b1); [reflexivity | exact Hl1 | cbn; congruence | cbn; lia]
       | exact Hl1 ] ].
  rewrite insert_snoc.
  set (b2 := inserted_batch b1 s2).
  set (S2 := <[p2 := inserted_sprite (length h0) b1 s2]> S1).
  assert (Hl2 : (h0 ++ [b2]) !! length h0 = Some b2)
    by (apply list_lookup_middle; reflexivity).
  rewrite (add_creates B junk _ p3 s3 S2 _ Hcap);
    [ | apply router_ok_one, second_ok
      | unfold S2, S1; rewrite !lookup_insert_ne by congruence; exact Hs3
      | cbn [Renderer2D.batches first_fit List.find];
        rewrite (fits_other B _ _ _ b2); [reflexivity | exact Hl2 | cbn; congruence] ].
  cbn [Renderer2D.batches app].
  set (b3 := inserted_batch (SpriteBatch_new B junk (Sprite.texture s3)) s3).
  exists (Renderer2D.mk [length h0; length (h0 ++ [b2])]),
    (mkWorld (<[p3 := inserted_sprite (length (h0 ++ [b2]))
                         (SpriteBatch_new B junk (Sprite.texture s3)) s3]> S2)
             ((h0 ++ [b2]) ++ [b3])),
    (length h0), (length (h0 ++ [b2])), b2, b3.
  split; [reflexivity|]. split; [reflexivity|].
  split; [apply list_elem_of_here|].
  split; [apply list_elem_of_further, list_elem_of_here|].
  split; [rewrite length_app; cbn; lia|].
  split; [cbn [heap]; apply lookup_app_l_Some, Hl2|].
  split; [cbn; congruence|]. split; [reflexivity|].
  split; [cbn [heap]; apply list_lookup_middle; reflexivity|].
  split; [cbn; congruence|]. split; [reflexivity|].
  repeat apply Forall_cons_2; [| | | apply Forall_nil_2]; cbn [fst snd sprites].
  - rewrite Ht1, (bool_decide_eq_true_2 _ eq_refl).
    eexists. split;
      [unfold S2, S1; rewrite !lookup_insert_ne by congruence; apply lookup_insert_eq
      | reflexivity].
  - rewrite Ht2, (bool_decide_eq_true_2 _ eq_refl).
    eexists. split;
      [unfold S2; rewrite lookup_insert_ne by congruence; apply lookup_insert_eq
      | reflexivity].
  - rewrite Ht3, (bool_decide_eq_false_2 (T2 = T1)) by congruence.
    eexists. split; [apply lookup_insert_eq | reflexivity].
Qed.

Lemma scenario_T1_T2_T1 :
  Sprite.texture s1 = T1 -> Sprite.texture s2 = T2 -> Sprite.texture s3 = T1 ->
  two_batches (add_three B junk p1 p2 p3 (mkWorld S0 h0)) T1 T2
              [(p1, s1); (p2, s2); (p3, s3)].
Proof.
  intros Ht1 Ht2 Ht3. unfold add_three.
  rewrite (bind_Returns _ _ _ _ _ first_add).
  set (b1 := inserted_batch (fresh s1) s1).
  set (S1 := <[p1 := inserted_sprite (length h0) (fresh s1) s1]> S0).
  assert (Hl1 : (h0 ++ [b1]) !! length h0 = Some b1)
    by (apply list_lookup_middle; reflexivity).
  erewrite bind_Returns;
    [| apply (add_creates B junk _ p2 s2 S1 _ Hcap);
       [ apply router_ok_one, fresh_ok
       | unfold S1; rewrite lookup_insert_ne by exact H12; exact Hs2
       | cbn [Renderer2D.batches first_fit List.find];
         rewrite (fits_other B _ _ _ b1); [reflexivity | exact Hl1 | cbn; congruence] ] ].
  cbn [Renderer2D.batches app].
  set (b2 := inserted_batch (SpriteBatch_new B junk (Sprite.texture s2)) s2).
  set (S2 := <[p2 := inserted_sprite (length (h0 ++ [b1]))
                       (SpriteBatch_new B junk (Sprite.texture s2)) s2]> S1).
  assert (Hl1' : ((h0 ++ [b1]) ++ [b2]) !! length h0 = Some b1)
    by apply lookup_app_l_Some, Hl1.
  rewrite (add_reuses B junk _ p3 s3 S2 _ (length h0) b1 Hcap);
    [ | apply router_ok_two; [apply fresh_ok | apply fresh_ok]
      | unfold S2, S1; rewrite !lookup_insert_ne by congruence; exact Hs3
      | cbn [Renderer2D.batches first_fit List.find];
        rewrite (fits_same B _ _ _ b1); [reflexivity | exact Hl1' | cbn; congruence | cbn; lia]
      | exact Hl1' ].
  rewrite insert_snoc_app.
  set (b1' := inserted_batch b1 s3).
  exists (Renderer2D.mk [length h0; length (h0 ++ [b1])]),
    (mkWorld (<[p3 := inserted_sprite (length h0) b1 s3]> S2) ((h0 ++ [b1']) ++ [b2])),
    (length h0), (length (h0 ++ [b1])), b1', b2.
  split; [reflexivity|]. split; [reflexivity|].
  split; [apply list_elem_of_here|].
  split; [apply list_elem_of_further, list_elem_of_here|].
  split; [rewrite length_app; cbn; lia|].
  split; [cbn [heap]; apply lookup_app_l_Some, list_lookup_middle; reflexivity|].
  split; [cbn; congruence|]. split; [reflexivity|].
  split; [cbn [heap]; apply list_lookup_middle; rewrite !length_app; reflexivity|].
  split; [cbn; congruence|]. split; [reflexivity|].
  repeat apply Forall_cons_2; [| | | apply Forall_nil_2]; cbn [fst snd sprites].
  - rewrite Ht1, (bool_decide_eq_true_2 _ eq_refl).
    eexists. split;
      [unfold S2, S1; rewrite !lookup_insert_ne by congruence; apply lookup_insert_eq
      | reflexivity].
  - rewrite Ht2, (bool_decide_eq_false_2 (T2 = T1)) by congruence.
    eexists. split;
      [unfold S2; rewrite lookup_insert_ne by congruence; apply lookup_insert_eq
      | reflexivity].
  - rewrite Ht3, (bool_decide_eq_true_2 _ eq_refl).
    eexists. split; [apply lookup_insert_eq | reflexivity].
Qed.

Lemma scenario_T2_T1_T1 :
  Sprite.texture s1 = T2 -> Sprite.texture s2 = T1 -> Sprite.texture s3 = T1 ->
  two_batches (add_three B junk p1 p2 p3 (mkWorld S0 h0)) T1 T2
              [(p1, s1); (p2, s2); (p3, s3)].
Proof.
  intros Ht1 Ht2 Ht3. unfold add_three.
  rewrite (bind_Returns _ _ _ _ _ first_add).
  set (b1 := inserted_batch (fresh s1) s1).
  set (S1 := <[p1 := inserted_sprite (length h0) (fresh s1) s1]> S0).
  assert (Hl1 : (h0 ++ [b1]) !! length h0 = Some b1)
    by (apply list_lookup_middle; reflexivity).
  erewrite bind_Returns;
    [| apply (add_creates B junk _ p2 s2 S1 _ Hcap);
       [ apply router_ok_one, fresh_ok
       | unfold S1; rewrite lookup_insert_ne by exact H12; exact Hs2
       | cbn [Renderer2D.batches first_fit List.find];
         rewrite (fits_other B _ _ _ b1); [reflexivity | exact Hl1 | cbn; congruence] ] ].
  cbn [Renderer2D.batches app].
  set (b2 := inserted_batch (SpriteBatch_new B junk (Sprite.texture s2)) s2).
  set (S2 := <[p2 := inserted_sprite (length (h0 ++ [b1]))
                       (SpriteBatch_new B junk (Sprite.texture s2)) s2]> S1).
  assert (Hl1' : ((h0 ++ [b1]) ++ [b2]) !! length h0 = Some b1)
    by apply lookup_app_l_Some, Hl1.
  assert (Hl2 : ((h0 ++ [b1]) ++ [b2]) !! length (h0 ++ [b1]) = Some b2)
    by (apply list_lookup_middle; reflexivity).
  rewrite (add_reuses B junk _ p3 s3 S2 _ (length (h0 ++ [b1])) b2 Hcap);
    [ | apply router_ok_two; [apply fresh_ok | apply fresh_ok]
      | unfold S2, S1; rewrite !lookup_insert_ne by congruence; exact Hs3
      | cbn [Renderer2D.batches first_fit List.find];
        rewrite (fits_other B _ _ _ b1) by (first [exact Hl1' | cbn; congruence]);
        rewrite (fits_same B _ _ _ b2); [reflexivity | exact Hl2 | cbn; congruence | cbn; lia]
      | exact Hl2 ].
  rewrite insert_snoc.
  set (b2' := inserted_batch b2 s3).
  exists (Renderer2D.mk [length h0; length (h0 ++ [b1])]),
    (mkWorld (<[p3 := inserted_sprite (length (h0 ++ [b1])) b2 s3]> S2)
             ((h0 ++ [b1]) ++ [b2'])),
    (length (h0 ++ [b1])), (length h0), b2', b1.
  split; [reflexivity|]. split; [reflexivity|].
  split; [apply list_elem_of_further, list_elem_of_here|].
  split; [apply list_elem_of_here|].
  split; [rewrite length_app; cbn; lia|].
  split; [cbn [heap]; apply list_lookup_middle; reflexivity|].
  split; [cbn; congruence|]. split; [reflexivity|].
  split; [cbn [heap]; apply lookup_app_l_Some, Hl1|].
  split; [cbn; congruence|]. split; [reflexivity|].
  repeat apply Forall_cons_2; [| | | apply Forall_nil_2]; cbn [fst snd sprites].
  - rewrite Ht1, (bool_decide_eq_false_2 (T2 = T1)) by congruence.
    eexists. split;
      [unfold S2, S1; rewrite !lookup_insert_ne by congruence; apply lookup_insert_eq
      | reflexivity].
  - rewrite Ht2, (bool_decide_eq_true_2 _ eq_refl).
    eexists. split;
      [unfold S2; rewrite lookup_insert_ne by congruence; apply lookup_insert_eq
      | reflexivity].
  - rewrite Ht3, (bool_decide_eq_true_2 _ eq_refl).
    eexists. split; [apply lookup_insert_eq | reflexivity].
Qed.

End RouterScenario.

(** C5. [Renderer2D::addSprite] places a sprite in the first batch, in
    creation order, whose texture is the sprite's and which has space, and
    otherwise creates a batch for the texture.  When a router without
    batches is given three sprites, two of texture [T1] and one of texture
    [T2], in any of the three possible orders, exactly two batches exist
    afterwards: the one of texture [T1] holds 2 sprites, the one of texture
    [T2] holds 1, and each sprite points at the batch of its texture. *)
Theorem C5_router_two_textures (B : Z) (junk : nat -> f32)
    (S0 : gmap SpritePtr Sprite.t) (h0 : list SpriteBatch.t)
    (p1 p2 p3 : SpritePtr) (s1 s2 s3 : Sprite.t) (T1 T2 : TexturePtr) :
  capacity_ok B -> 2 <= B -> T1 <> T2 ->
  p1 <> p2 -> p1 <> p3 -> p2 <> p3 ->
  S0 !! p1 = Some s1 -> S0 !! p2 = Some s2 -> S0 !! p3 = Some s3 ->
  (Sprite.texture s1 = T1 /\ Sprite.texture s2 = T1 /\ Sprite.texture s3 = T2) \/
  (Sprite.texture s1 = T1 /\ Sprite.texture s2 = T2 /\ Sprite.texture s3 = T1) \/
  (Sprite.texture s1 = T2 /\ Sprite.texture s2 = T1 /\ Sprite.texture s3 = T1) ->
  (forall (r : Renderer2D.t) (sprite : SpritePtr) (s : Sprite.t) (w : World),
     router_ok B r w -> sprites w !! sprite = Some s ->
     Renderer2D_addSprite B junk r sprite w =
     match first_fit B w (Sprite.texture s) (Renderer2D.batches r) with
     | Some p => Returns r (inserted_world p sprite (batch_at w p) s w)
     | None =>
       let fresh := SpriteBatch_new B junk (Sprite.texture s) in
       Returns (Renderer2D.mk (Renderer2D.batches r ++ [length (heap w)]))
               (inserted_world (length (heap w)) sprite fresh s
                  (mkWorld (sprites w) (heap w ++ [fresh])))
     end) /\
  two_batches (add_three B junk p1 p2 p3 (mkWorld S0 h0)) T1 T2
              [(p1, s1); (p2, s2); (p3, s3)].
Proof.
  intros Hcap Htwo HT H12 H13 H23 Hs1 Hs2 Hs3 Horder. split.
  - intros r sprite s w Hok Hs. apply Renderer2D_addSprite_spec; assumption.
  - destruct Horder as [(Ht1 & Ht2 & Ht3) | [(Ht1 & Ht2 & Ht3) | (Ht1 & Ht2 & Ht3)]].
    + apply scenario_T1_T1_T2; assumption.
    + apply scenario_T1_T2_T1; assumption.
    + apply scenario_T2_T1_T1; assumption.
Qed.

Lemma C5_router_two_textures_witness :
  (forall (r : Renderer2D.t) (sprite : SpritePtr) (s : Sprite.t) (w : World),
     router_ok 2 r w -> sprites w !! sprite = Some s ->
     Renderer2D_addSprite 2 scenario_junk r sprite w =
     match first_fit 2 w (Sprite.texture s) (Renderer2D.batches r) with
     | Some p => Returns r (inserted_world p sprite (batch_at w p) s w)
     | None =>
       let fresh := SpriteBatch_new 2 scenario_junk (Sprite.texture s) in
       Returns (Renderer2D.mk (Renderer2D.batches r ++ [length (heap w)]))
               (inserted_world (length (heap w)) sprite fresh s
                  (mkWorld (sprites w) (heap w ++ [fresh])))
     end) /\
  two_batches (add_three 2 scenario_junk pA pD pB world_router) T T'
              [(pA, spriteA); (pD, spriteD); (pB, spriteB)].
Proof.
  apply (C5_router_two_textures 2 scenario_junk (sprites world_router) []
           pA pD pB spriteA spriteD spriteB T T').
  - split; reflexivity.
  - discriminate.
  - discriminate.
  - discriminate.
  - discriminate.
  - discriminate.
  - reflexivity.
  - reflexivity.
  - reflexivity.
  - right. left. repeat split.
Defined.

(** ** Text layout *)

Lemma get_list_ascii (str : string) (n : nat) :
  String.get n str = list_ascii_of_string str !! n.
Proof.
  revert n. induction str as [| c str IH]; intros [| n]; cbn; try reflexivity.
  apply IH.
Qed.

Lemma length_list_ascii (str : string) :
  length (list_ascii_of_string str) = String.length str.
Proof. induction str as [| c str IH]; cbn; [reflexivity | f_equal; exact IH]. Qed.

Section TextFacts.

Variable stbtt_packedchar : Type.
Variable packedCharsBuffer : list stbtt_packedchar.
Variable stbtt_GetPackedQuad : stbtt_packedchar -> stbtt_aligned_quad.t.
Variable stbtt_GetGlyphBitmapBox : Z -> f32 -> f32 -> option (Z * Z * Z * Z).
Variable getGlyphKern : ascii -> ascii -> Z.
Variable scale : f32.
Variable font_texture : TexturePtr.

Local Abbreviation glyphQuad := (getGlyphQuad packedCharsBuffer stbtt_GetPackedQuad).
Local Abbreviation body :=
  (createSprites_body packedCharsBuffer stbtt_GetPackedQuad stbtt_GetGlyphBitmapBox
     getGlyphKern scale font_texture).
Local Abbreviation upto :=
  (createSprites_upto packedCharsBuffer stbtt_GetPackedQuad stbtt_GetGlyphBitmapBox
     getGlyphKern scale font_texture).
Local Abbreviation createSprites :=
  (Text_createSprites packedCharsBuffer stbtt_GetPackedQuad stbtt_GetGlyphBitmapBox
     getGlyphKern scale font_texture).
Local Abbreviation the_font_ok :=
  (font_ok packedCharsBuffer stbtt_GetGlyphBitmapBox scale).

Lemma in_table_range (c : ascii) :
  in_table c = true <-> 32 <= int_of_char c <= 125.
Proof.
  unfold in_table. change (int_of_char " ") with 32.
  change packedCharsBufferSize with 94.
  rewrite andb_true_iff, Z.leb_le, Z.ltb_lt. lia.
Qed.

(** The table answers for the characters [' ' .. '}'] and for no other. *)
Lemma getGlyphQuad_in_table (c : ascii) :
  length packedCharsBuffer = Z.to_nat packedCharsBufferSize ->
  in_table c = true -> is_Some (glyphQuad c).
Proof.
  intros Hlen Hc. apply in_table_range in Hc. unfold getGlyphQuad.
  change (int_of_char " ") with 32. cbv zeta.
  replace (0 <=? int_of_char c - 32) with true by (symmetry; apply Z.leb_le; lia).
  apply fmap_is_Some, lookup_lt_is_Some. rewrite Hlen.
  change packedCharsBufferSize with 94. lia.
Qed.

Lemma getGlyphQuad_outside (c : ascii) :
  length packedCharsBuffer = Z.to_nat packedCharsBufferSize ->
  int_of_char c < 32 \/ 125 < int_of_char c -> glyphQuad c = None.
Proof.
  intros Hlen Hc. unfold getGlyphQuad.
  change (int_of_char " ") with 32. cbv zeta.
  destruct (0 <=? int_of_char c - 32) eqn:Hlow; [|reflexivity].
  apply Z.leb_le in Hlow. apply fmap_None, lookup_ge_None. rewrite Hlen.
  change packedCharsBufferSize with 94. lia.
Qed.

(** Iteration [n] takes the state before it to the state after it. *)
Lemma createSprites_upto_S (this : Text.t) (n : nat) :
  upto this (S n) = upto this n ≫= body this n.
Proof.
  unfold upto, createSprites_upto. rewrite seq_S, foldl_snoc. reflexivity.
Qed.

(** Once an iteration is undefined, so is the rest of the call. *)
Lemma createSprites_upto_None (this : Text.t) (n k : nat) :
  upto this n = None -> upto this (n + k) = None.
Proof.
  intros Hn. induction k as [| k IH].
  - rewrite Nat.add_0_r. exact Hn.
  - rewrite Nat.add_succ_r, createSprites_upto_S, IH. reflexivity.
Qed.

Lemma Text_createSprites_None (this : Text.t) (n : nat) :
  (n <= String.length (Text.str this))%nat ->
  upto this n = None -> createSprites this = None.
Proof.
  intros Hn Hnone. unfold Text_createSprites.
  replace (String.length (Text.str this))
    with (n + (String.length (Text.str this) - n))%nat by lia.
  rewrite (createSprites_upto_None this n _ Hnone). reflexivity.
Qed.

Lemma get_Some_lt (str : string) (i : nat) (c : ascii) :
  String.get i str = Some c -> (i < String.length str)%nat.
Proof.
  rewrite get_list_ascii. intros H. apply lookup_lt_Some in H.
  rewrite length_list_ascii in H. exact H.
Qed.

Lemma body_space (this : Text.t) (i : nat) (st : pen) :
  the_font_ok ->
  String.get i (Text.str this) = Some " "%char ->
  exists lineQuad,
    glyphQuad "-" = Some lineQuad /\
    body this i st =
    Some (mkPen
      (f32_add (xPos st)
         (f32_add
            (f32_add
               (f32_mul (f32_sub (stbtt_aligned_quad.x1 lineQuad)
                                 (stbtt_aligned_quad.x0 lineQuad))
                        (Text.size this))
               (Text.spacing this))
            (f32_mul (f32_mul (kern_at getGlyphKern (Text.str this) i "-")
                              (Text.size this)) scale)))
      (out st)).
Proof.
  intros [Hlen Hbox] Hc.
  destruct (getGlyphQuad_in_table " " Hlen eq_refl) as [quad Hquad].
  destruct (getGlyphQuad_in_table "A" Hlen eq_refl) as [a Ha].
  destruct (getGlyphQuad_in_table "-" Hlen eq_refl) as [lineQuad Hline].
  destruct (Hbox " "%char eq_refl) as [metrics Hmetrics].
  exists lineQuad. split; [exact Hline|].
  unfold createSprites_body. rewrite Hc. cbv zeta.
  rewrite Hquad. cbn [mbind option_bind]. rewrite Hmetrics. cbn [mbind option_bind].
  rewrite Ha. cbn [mbind option_bind]. rewrite Z.eqb_refl, Hline. reflexivity.
Qed.

Lemma body_outside (this : Text.t) (i : nat) (c : ascii) (st : pen) :
  length packedCharsBuffer = Z.to_nat packedCharsBufferSize ->
  String.get i (Text.str this) = Some c ->
  int_of_char c < 32 \/ 125 < int_of_char c ->
  body this i st = None.
Proof.
  intros Hlen Hc Hout. unfold createSprites_body.
  rewrite Hc, (getGlyphQuad_outside c Hlen Hout). reflexivity.
Qed.

(** C8. In [Text::createSprites], with the packed table that
    [Font::createFromTTF] allocates.  A space that is reached pushes no sprite and moves the pen
    by the width of the glyph of ['-'] times the text size, plus the spacing,
    plus the scaled kerning of ['-'] with the next character.  A character
    outside [' ' .. '}'] is not skipped silently: its quad is fetched before
    the character is tested, the entry [packedCharsBuffer[c - ' ']] that is
    read lies outside the table, and the iteration, and with it the whole
    call, is undefined.  ['~'] is one of these characters, although the
    range test accepts it: the table has ['~' - ' '] entries. *)
Theorem C8_space_and_unsupported_characters (this : Text.t) :
  the_font_ok ->
  (forall (i : nat) (st : pen),
     upto this i = Some st ->
     String.get i (Text.str this) = Some " "%char ->
     exists lineQuad,
       glyphQuad "-" = Some lineQuad /\
       upto this (S i) =
       Some (mkPen
         (f32_add (xPos st)
            (f32_add
               (f32_add
                  (f32_mul (f32_sub (stbtt_aligned_quad.x1 lineQuad)
                                    (stbtt_aligned_quad.x0 lineQuad))
                           (Text.size this))
                  (Text.spacing this))
               (f32_mul (f32_mul (kern_at getGlyphKern (Text.str this) i "-")
                                 (Text.size this)) scale)))
         (out st))) /\
  (forall (i : nat) (c : ascii),
     String.get i (Text.str this) = Some c ->
     int_of_char c < 32 \/ 125 < int_of_char c ->
     glyphQuad c = None /\
     upto this (S i) = None /\
     createSprites this = None).
Proof.
  intros Hfont. split.
  - intros i st Hst Hc.
    destruct (body_space this i st Hfont Hc) as (lineQuad & Hline & Hbody).
    exists lineQuad. split; [exact Hline|].
    rewrite createSprites_upto_S, Hst. exact Hbody.
  - intros i c Hc Hout. destruct Hfont as [Hlen _].
    assert (Hnone : upto this (S i) = None).
    { rewrite createSprites_upto_S.
      destruct (upto this i) as [st|]; [|reflexivity].
      exact (body_outside this i c st Hlen Hc Hout). }
    split; [exact (getGlyphQuad_outside c Hlen Hout)|]. split; [exact Hnone|].
    apply (Text_createSprites_None this (S i)); [|exact Hnone].
    apply get_Some_lt in Hc. lia.
Qed.

End TextFacts.

Lemma scenario_font_ok : font_ok scenario_packed scenario_box (f32_of_Z 1).
Proof. split; [reflexivity|]. intros c _. eexists. reflexivity. Qed.

Lemma C8_space_and_unsupported_characters_witness :
  let upto :=
    createSprites_upto scenario_packed scenario_GetPackedQuad scenario_box scenario_kern
      (f32_of_Z 1) T scenario_text in
  (exists (st : pen) (lineQuad : stbtt_aligned_quad.t),
     upto 1%nat = Some st /\
     getGlyphQuad scenario_packed scenario_GetPackedQuad "-" = Some lineQuad /\
     upto 2%nat =
     Some (mkPen
       (f32_add (xPos st)
          (f32_add
             (f32_add
                (f32_mul (f32_sub (stbtt_aligned_quad.x1 lineQuad)
                                  (stbtt_aligned_quad.x0 lineQuad))
                         (Text.size scenario_text))
                (Text.spacing scenario_text))
             (f32_mul (f32_mul (kern_at scenario_kern (Text.str scenario_text) 1 "-")
                               (Text.size scenario_text)) (f32_of_Z 1))))
       (out st))) /\
  getGlyphQuad scenario_packed scenario_GetPackedQuad "010" = None /\
  upto 3%nat = None /\
  Text_createSprites scenario_packed scenario_GetPackedQuad scenario_box scenario_kern
    (f32_of_Z 1) T scenario_text = None.
Proof.
  destruct (C8_space_and_unsupported_characters Z scenario_packed scenario_GetPackedQuad
              scenario_box scenario_kern (f32_of_Z 1) T scenario_text scenario_font_ok)
    as [Hspace Hskip].
  split.
  - destruct (createSprites_upto scenario_packed scenario_GetPackedQuad scenario_box
                scenario_kern (f32_of_Z 1) T scenario_text 1%nat) as [st|] eqn:Hst;
      [| vm_compute in Hst; discriminate].
    destruct (Hspace 1%nat st Hst eq_refl) as (lineQuad & Hline & Hnext).
    exists st, lineQuad. split; [reflexivity|]. split; [exact Hline | exact Hnext].
  - apply (Hskip 2%nat "010"%char); [reflexivity | left; reflexivity].
Defined.

(** * Further facts *)

(** ** Update and insertion in full *)

Lemma Sprite_update_run (this : BatchPtr) (sprite : SpritePtr)
    (b : SpriteBatch.t) (s : Sprite.t) (w : World) :
  heap w !! this = Some b -> sprites w !! sprite = Some s ->
  Sprite.batch s = Some this ->
  0 <= Sprite.batchIndex s -> Sprite.batchIndex s * 6 < 2 ^ 31 ->
  Sprite.batchIndex s * block_floats + block_floats
    <= Z.of_nat (length (SpriteBatch.data b)) ->
  Sprite_update sprite w =
  Returns tt (mkWorld (sprites w)
    (<[this := SpriteBatch.mk
                 (list_inserts (Z.to_nat (Sprite.batchIndex s * block_floats))
                    (vertices s) (SpriteBatch.data b))
                 (SpriteBatch.texture b) (SpriteBatch.spriteCount b) true]> (heap w))).
Proof.
  intros Hb Hs Hatt H0 H1 Hfit. unfold Sprite_update.
  rewrite (bind_Returns _ _ _ _ _ (load_sprite_run _ _ _ Hs)). rewrite Hatt.
  apply updateSprite_run; assumption.
Qed.

(** A block written at slot [i] of a storage that has room for it. *)
Lemma slot_of_inserts (mem blk : list f32) (i : Z) :
  0 <= i -> length blk = Z.to_nat block_floats ->
  i * block_floats + block_floats <= Z.of_nat (length mem) ->
  slot (list_inserts (Z.to_nat (i * block_floats)) blk mem) i = Some blk.
Proof.
  intros Hi Hlen Hfit. apply (slot_after_store mem); [exact Hi | exact Hlen |].
  apply store_floats_in_range.
  - unfold block_floats, Renderer2D.VERTEX_SIZE. lia.
  - rewrite Hlen. unfold block_floats, Renderer2D.VERTEX_SIZE in *. lia.
Qed.

Lemma slot_of_inserts_other (mem blk : list f32) (i j : Z) :
  0 <= i -> i <> j -> length blk = Z.to_nat block_floats ->
  i * block_floats + block_floats <= Z.of_nat (length mem) ->
  slot (list_inserts (Z.to_nat (i * block_floats)) blk mem) j = slot mem j.
Proof.
  intros Hi Hne Hlen Hfit. apply (slot_other_store mem blk _ i j); [exact Hi | exact Hne | exact Hlen |].
  apply store_floats_in_range.
  - unfold block_floats, Renderer2D.VERTEX_SIZE. lia.
  - rewrite Hlen. unfold block_floats, Renderer2D.VERTEX_SIZE in *. lia.
Qed.

(** What the bounds of a well-formed batch give for a slot below the
    capacity. *)
Lemma slot_fits (B : Z) (b : SpriteBatch.t) (i : Z) :
  capacity_ok B -> batch_ok B b -> 0 <= i < B ->
  i * 6 < 2 ^ 31 /\
  i * block_floats + block_floats <= Z.of_nat (length (SpriteBatch.data b)).
Proof.
  intros Hcap [Hcnt Hlen] Hi. pose proof (data_length_ok B Hcap) as HB.
  destruct Hcap as [Hpos H6].
  unfold block_floats, Renderer2D.VERTEX_SIZE in *. lia.
Qed.

(** X1. [Sprite::update] on an attached sprite whose index is a slot of the
    storage writes the six-vertex encoding of the sprite's fields to that
    slot, so that reading the slot back gives exactly that encoding; it
    marks the batch for upload and changes nothing else: the other slots,
    the count, the texture, the other batches and all sprites stay as they
    were.  The index is not compared with the count. *)
Theorem X1_update_round_trip (B : Z) (this : BatchPtr) (sprite : SpritePtr)
    (b : SpriteBatch.t) (s : Sprite.t) (w : World) :
  capacity_ok B -> batch_ok B b ->
  heap w !! this = Some b -> sprites w !! sprite = Some s ->
  Sprite.batch s = Some this -> 0 <= Sprite.batchIndex s < B ->
  exists w' b',
    Sprite_update sprite w = Returns tt w' /\
    sprites w' = sprites w /\
    heap w' !! this = Some b' /\
    slot (SpriteBatch.data b') (Sprite.batchIndex s) = Some (vertices s) /\
    (forall j : Z, j <> Sprite.batchIndex s ->
       slot (SpriteBatch.data b') j = slot (SpriteBatch.data b) j) /\
    SpriteBatch.spriteCount b' = SpriteBatch.spriteCount b /\
    SpriteBatch.texture b' = SpriteBatch.texture b /\
    SpriteBatch.shouldBuffer b' = true /\
    (forall p : BatchPtr, p <> this -> heap w' !! p = heap w !! p).
Proof.
  intros Hcap Hok Hb Hs Hatt Hidx.
  destruct (slot_fits B b _ Hcap Hok Hidx) as [H6 Hfit].
  eexists. eexists.
  split; [apply (Sprite_update_run this sprite b s w); try assumption; lia|].
  split; [reflexivity|].
  split; [cbn [heap]; eapply heap_lookup_insert, Hb|].
  cbn [SpriteBatch.data SpriteBatch.spriteCount SpriteBatch.texture SpriteBatch.shouldBuffer].
  split; [apply slot_of_inserts; [lia | apply vertices_length | exact Hfit]|].
  split.
  { intros j Hj. apply slot_of_inserts_other;
      [lia | congruence | apply vertices_length | exact Hfit]. }
  split; [reflexivity|]. split; [reflexivity|]. split; [reflexivity|].
  intros p Hp. cbn [heap]. apply list_lookup_insert_ne. congruence.
Qed.

Lemma X1_update_round_trip_witness :
  exists w' b',
    Sprite_update pB world3 = Returns tt w' /\
    sprites w' = sprites world3 /\
    heap w' !! 0%nat = Some b' /\
    slot (SpriteBatch.data b') 1 = Some (vertices (sprite_at world3 pB)) /\
    (forall j : Z, j <> 1 ->
       slot (SpriteBatch.data b') j = slot (SpriteBatch.data (batch_at world3 0%nat)) j) /\
    SpriteBatch.spriteCount b' = 3 /\
    SpriteBatch.texture b' = T /\
    SpriteBatch.shouldBuffer b' = true /\
    (forall p : BatchPtr, p <> 0%nat -> heap w' !! p = heap world3 !! p).
Proof.
  apply (X1_update_round_trip 3 0%nat pB (batch_at world3 0%nat) (sprite_at world3 pB) world3).
  - split; reflexivity.
  - split; [split; vm_compute; discriminate | vm_compute; reflexivity].
  - vm_compute. reflexivity.
  - vm_compute. reflexivity.
  - vm_compute. reflexivity.
  - split; vm_compute; [discriminate | reflexivity].
Defined.

(** X2. A successful [SpriteBatch::addSprite] touches nothing but the new
    slot, the count, the dirty flag and the sprite's placement: every other
    slot of the storage, the storage's length, the batch's texture, every
    other batch and every other sprite stay as they were, and the sprite
    keeps its descriptor and its visibility flag. *)
Theorem X2_insert_frame (B : Z) (this : BatchPtr) (sprite : SpritePtr)
    (b : SpriteBatch.t) (s : Sprite.t) (w : World) :
  capacity_ok B -> batch_ok B b ->
  heap w !! this = Some b -> sprites w !! sprite = Some s ->
  SpriteBatch.spriteCount b < B ->
  exists w' b' s',
    SpriteBatch_addSprite B this sprite w = Returns tt w' /\
    heap w' !! this = Some b' /\ sprites w' !! sprite = Some s' /\
    (forall j : Z, j <> SpriteBatch.spriteCount b ->
       slot (SpriteBatch.data b') j = slot (SpriteBatch.data b) j) /\
    length (SpriteBatch.data b') = length (SpriteBatch.data b) /\
    SpriteBatch.texture b' = SpriteBatch.texture b /\
    (forall p : BatchPtr, p <> this -> heap w' !! p = heap w !! p) /\
    (forall q : SpritePtr, q <> sprite -> sprites w' !! q = sprites w !! q) /\
    same_descriptor s s' /\ Sprite.invisible s' = Sprite.invisible s.
Proof.
  intros Hcap Hok Hb Hs Hlt.
  assert (Hidx : 0 <= SpriteBatch.spriteCount b < B) by (destruct Hok; lia).
  destruct (slot_fits B b _ Hcap Hok Hidx) as [H6 Hfit].
  exists (inserted_world this sprite b s w), (inserted_batch b s), (inserted_sprite this b s).
  split; [apply addSprite_run; assumption|].
  split; [cbn [inserted_world heap]; eapply heap_lookup_insert, Hb|].
  split; [cbn [inserted_world sprites]; apply lookup_insert_eq|].
  split.
  { intros j Hj. unfold inserted_batch. cbn [SpriteBatch.data].
    apply slot_of_inserts_other; [lia | congruence | apply vertices_length | exact Hfit]. }
  split; [apply length_inserts|]. split; [reflexivity|].
  split; [intros p Hp; cbn [inserted_world heap]; apply list_lookup_insert_ne; congruence|].
  split; [intros q Hq; cbn [inserted_world sprites]; apply lookup_insert_ne; congruence|].
  split; [repeat split | reflexivity].
Qed.

Lemma X2_insert_frame_witness :
  exists w' b' s',
    SpriteBatch_addSprite 2 0%nat pB (world_after (SpriteBatch_addSprite 2 0%nat pA) world0)
      = Returns tt w' /\
    heap w' !! 0%nat = Some b' /\ sprites w' !! pB = Some s' /\
    (forall j : Z, j <> 1 ->
       slot (SpriteBatch.data b') j
       = slot (SpriteBatch.data
                 (batch_at (world_after (SpriteBatch_addSprite 2 0%nat pA) world0) 0%nat)) j) /\
    length (SpriteBatch.data b')
      = length (SpriteBatch.data
                  (batch_at (world_after (SpriteBatch_addSprite 2 0%nat pA) world0) 0%nat)) /\
    SpriteBatch.texture b' = T /\
    (forall p : BatchPtr, p <> 0%nat ->
       heap w' !! p = heap (world_after (SpriteBatch_addSprite 2 0%nat pA) world0) !! p) /\
    (forall q : SpritePtr, q <> pB ->
       sprites w' !! q = sprites (world_after (SpriteBatch_addSprite 2 0%nat pA) world0) !! q) /\
    same_descriptor spriteB s' /\ Sprite.invisible s' = false.
Proof.
  apply (X2_insert_frame 2 0%nat pB
           (batch_at (world_after (SpriteBatch_addSprite 2 0%nat pA) world0) 0%nat)
           spriteB (world_after (SpriteBatch_addSprite 2 0%nat pA) world0)).
  - split; reflexivity.
  - split; [split; vm_compute; discriminate | vm_compute; reflexivity].
  - vm_compute. reflexivity.
  - vm_compute. reflexivity.
  - vm_compute. reflexivity.
Defined.

(** ** The dense-storage invariant under stack discipline *)

(** X3. Insertion keeps the batch dense: if the batch holds exactly the
    sprites [live], the i-th in slot i with index i and its encoding there,
    and a detached sprite is inserted while there is space, then the batch
    holds exactly [live ++ [sprite]] in the same sense, and stays well
    formed. *)
Theorem X3_insert_keeps_dense (B : Z) (this : BatchPtr) (sprite : SpritePtr)
    (b : SpriteBatch.t) (s : Sprite.t) (w : World) (live : list SpritePtr) :
  capacity_ok B -> batch_ok B b ->
  heap w !! this = Some b -> dense this w live ->
  sprites w !! sprite = Some s -> Sprite.batch s = None ->
  SpriteBatch.spriteCount b < B ->
  exists w' b',
    SpriteBatch_addSprite B this sprite w = Returns tt w' /\
    heap w' !! this = Some b' /\ batch_ok B b' /\
    dense this w' (live ++ [sprite]).
Proof.
  intros Hcap Hok Hb (b0 & Hb0 & Hcount & Hlive) Hs Hdet Hlt.
  assert (b0 = b) by congruence. subst b0.
  assert (Hidx : 0 <= SpriteBatch.spriteCount b < B) by (destruct Hok; lia).
  destruct (slot_fits B b _ Hcap Hok Hidx) as [H6 Hfit].
  exists (inserted_world this sprite b s w), (inserted_batch b s).
  split; [apply addSprite_run; assumption|].
  assert (Hb' : heap (inserted_world this sprite b s w) !! this = Some (inserted_batch b s))
    by (cbn [inserted_world heap]; eapply heap_lookup_insert, Hb).
  split; [exact Hb'|]. split; [apply inserted_batch_ok; assumption|].
  exists (inserted_batch b s). split; [exact Hb'|].
  split; [cbn [inserted_batch SpriteBatch.spriteCount]; rewrite length_app; cbn [length]; lia|].
  intros i q Hq. apply lookup_app_Some in Hq as [Hq | [Hge Hq]].
  - destruct (Hlive i q Hq) as (sq & Hsq & Hbq & Hiq & Hslot).
    assert (Hne : sprite <> q) by (intros ->; congruence).
    pose proof (lookup_lt_Some _ _ _ Hq) as Hi.
    exists sq. split; [cbn [inserted_world sprites]; rewrite lookup_insert_ne by exact Hne; exact Hsq|].
    split; [exact Hbq|]. split; [exact Hiq|].
    unfold inserted_batch. cbn [SpriteBatch.data].
    rewrite slot_of_inserts_other; [exact Hslot | lia | lia | apply vertices_length | exact Hfit].
  - apply list_lookup_singleton_Some in Hq as [Hi <-].
    assert (Hi' : i = length live) by lia. subst i.
    exists (inserted_sprite this b s).
    split; [cbn [inserted_world sprites]; apply lookup_insert_eq|].
    split; [reflexivity|].
    split; [cbn [inserted_sprite Sprite.set_batchIndex Sprite.batchIndex]; exact Hcount|].
    unfold inserted_batch. cbn [SpriteBatch.data]. rewrite <- Hcount.
    apply slot_of_inserts; [lia | apply vertices_length | exact Hfit].
Qed.

(** X4. Removing the sprite of the last live slot keeps the batch dense:
    if the batch holds exactly [live ++ [sprite]], then after
    [sprite.remove ()] it holds exactly [live], the removed sprite is
    detached with index 0, and the batch stays well formed.  (Removing any
    other sprite does not: see C1.) *)
Theorem X4_remove_last_keeps_dense (B : Z) (this : BatchPtr) (sprite : SpritePtr)
    (b : SpriteBatch.t) (w : World) (live : list SpritePtr) :
  capacity_ok B -> batch_ok B b ->
  heap w !! this = Some b -> dense this w (live ++ [sprite]) ->
  exists w' b' s',
    Sprite_remove sprite w = Returns tt w' /\
    heap w' !! this = Some b' /\ batch_ok B b' /\
    sprites w' !! sprite = Some s' /\
    Sprite.batch s' = None /\ Sprite.batchIndex s' = 0 /\
    dense this w' live.
Proof.
  intros Hcap Hok Hb (b0 & Hb0 & Hcount & Hlive).
  assert (b0 = b) by congruence. subst b0.
  rewrite length_app in Hcount. cbn [length] in Hcount.
  destruct (Hlive (length live) sprite) as (s & Hs & Hatt & Hidx & Hslot).
  { apply list_lookup_middle. reflexivity. }
  assert (Hin : 0 <= Sprite.batchIndex s < B) by (destruct Hok; lia).
  destruct (slot_fits B b _ Hcap Hok Hin) as [H6 Hfit].
  assert (Hlast : Sprite.batchIndex s = SpriteBatch.spriteCount b - 1) by lia.
  destruct (Sprite_remove_run this sprite b s w)
    as (last & d1 & d2 & Hl & H1 & H2 & Hrun); try assumption; try lia;
    try (rewrite <- Hlast; assumption).
  pose proof (load_floats_length _ _ _ _ Hl) as Hlen_last.
  eexists. eexists. eexists. split; [exact Hrun|].
  assert (Hb' : <[this := SpriteBatch.mk d2 (SpriteBatch.texture b)
                            (SpriteBatch.spriteCount b - 1) true]> (heap w) !! this
                = Some (SpriteBatch.mk d2 (SpriteBatch.texture b)
                          (SpriteBatch.spriteCount b - 1) true))
    by (eapply heap_lookup_insert, Hb).
  cbn [heap sprites].
  split; [exact Hb'|].
  split.
  { destruct Hok as [Hcnt Hlen]. split; cbn [SpriteBatch.spriteCount SpriteBatch.data].
    - lia.
    - rewrite (store_floats_length _ _ _ _ H2), (store_floats_length _ _ _ _ H1). exact Hlen. }
  split; [apply lookup_insert_eq|]. split; [reflexivity|]. split; [reflexivity|].
  eexists. split; [exact Hb'|].
  split; [cbn [SpriteBatch.spriteCount]; lia|].
  intros i q Hq.
  pose proof (lookup_lt_Some _ _ _ Hq) as Hi.
  destruct (Hlive i q) as (sq & Hsq & Hbq & Hiq & Hslotq).
  { apply lookup_app_l_Some, Hq. }
  assert (Hne : sprite <> q) by (intros ->; assert (sq = s) by congruence; subst; lia).
  exists sq. split; [cbn [sprites]; rewrite lookup_insert_ne by exact Hne; exact Hsq|].
  split; [exact Hbq|]. split; [exact Hiq|].
  cbn [SpriteBatch.data].
  rewrite (slot_other_store d1 zero_block d2 (SpriteBatch.spriteCount b - 1) (Z.of_nat i));
    [| lia | lia | reflexivity | exact H2].
  rewrite (slot_other_store (SpriteBatch.data b) last d1 (Sprite.batchIndex s) (Z.of_nat i));
    [exact Hslotq | lia | lia | exact Hlen_last | exact H1].
Qed.

Lemma world1_dense : dense 0%nat world1 [pA].
Proof.
  exists (batch_at world1 0%nat). split; [vm_compute; reflexivity|].
  split; [vm_compute; reflexivity|].
  intros [| i] p Hp; cbn in Hp; [| destruct i; discriminate].
  injection Hp as <-. exists (sprite_at world1 pA).
  repeat split; vm_compute; reflexivity.
Qed.

Lemma world2_dense : dense 0%nat world2 ([pA] ++ [pB]).
Proof.
  exists (batch_at world2 0%nat). split; [vm_compute; reflexivity|].
  split; [vm_compute; reflexivity|].
  intros [| [| i]] p Hp; cbn in Hp; [| | destruct i; discriminate].
  - injection Hp as <-. exists (sprite_at world2 pA).
    repeat split; vm_compute; reflexivity.
  - injection Hp as <-. exists (sprite_at world2 pB).
    repeat split; vm_compute; reflexivity.
Qed.

Lemma X3_insert_keeps_dense_witness :
  exists w' b',
    SpriteBatch_addSprite 2 0%nat pB world1 = Returns tt w' /\
    heap w' !! 0%nat = Some b' /\ batch_ok 2 b' /\
    dense 0%nat w' ([pA] ++ [pB]).
Proof.
  apply (X3_insert_keeps_dense 2 0%nat pB (batch_at world1 0%nat) spriteB world1 [pA]).
  - split; reflexivity.
  - split; [split; vm_compute; discriminate | vm_compute; reflexivity].
  - vm_compute. reflexivity.
  - exact world1_dense.
  - vm_compute. reflexivity.
  - reflexivity.
  - vm_compute. reflexivity.
Defined.

Lemma X4_remove_last_keeps_dense_witness :
  exists w' b' s',
    Sprite_remove pB world2 = Returns tt w' /\
    heap w' !! 0%nat = Some b' /\ batch_ok 2 b' /\
    sprites w' !! pB = Some s' /\
    Sprite.batch s' = None /\ Sprite.batchIndex s' = 0 /\
    dense 0%nat w' [pA].
Proof.
  apply (X4_remove_last_keeps_dense 2 0%nat pB (batch_at world2 0%nat) world2 [pA]).
  - split; reflexivity.
  - split; [split; vm_compute; discriminate | vm_compute; reflexivity].
  - vm_compute. reflexivity.
  - exact world2_dense.
Defined.

(** ** Removal, again *)

(** Whenever [Sprite::remove] returns, the sprite is detached. *)
Lemma Sprite_remove_detaches (sprite : SpritePtr) (w w' : World) (u : unit) :
  Sprite_remove sprite w = Returns u w' ->
  exists s', sprites w' !! sprite = Some s' /\ Sprite.batch s' = None.
Proof.
  unfold Sprite_remove, mbind, M_bind, load_sprite.
  destruct (sprites w !! sprite) as [s|] eqn:Hs; [|discriminate].
  destruct (Sprite.batch s) as [bp|] eqn:Hatt.
  - destruct (SpriteBatch_removeSprite bp sprite w) as [[] w1| |]; try discriminate.
    unfold store_sprite.
    destruct (sprites w1 !! sprite) as [s1|] eqn:Hs1; [|discriminate].
    rewrite Hs1. intros H. injection H as _ <-.
    eexists. split; [cbn [sprites]; apply lookup_insert_eq | reflexivity].
  - intros H. injection H as _ <-. exists s. split; assumption.
Qed.

(** X5. [Sprite::remove] is idempotent: whenever a call returns, the
    sprite is detached ([isAdded ()] is false), and a second call right
    after it returns too and changes nothing. *)
Theorem X5_remove_idempotent (sprite : SpritePtr) (w w' : World) :
  Sprite_remove sprite w = Returns tt w' ->
  Sprite_remove sprite w' = Returns tt w' /\
  exists s', sprites w' !! sprite = Some s' /\ Sprite.isAdded s' = false.
Proof.
  intros Hrun.
  destruct (Sprite_remove_detaches sprite w w' tt Hrun) as (s' & Hs' & Hdet).
  split.
  - unfold Sprite_remove.
    rewrite (bind_Returns _ _ _ _ _ (load_sprite_run _ _ _ Hs')). rewrite Hdet.
    reflexivity.
  - exists s'. split; [exact Hs'|]. unfold Sprite.isAdded. rewrite Hdet. reflexivity.
Qed.

Lemma X5_remove_idempotent_witness :
  let w' := world_after (Sprite_remove pA) world2 in
  Sprite_remove pA w' = Returns tt w' /\
  exists s', sprites w' !! pA = Some s' /\ Sprite.isAdded s' = false.
Proof.
  apply (X5_remove_idempotent pA world2). vm_compute. reflexivity.
Defined.

(** X6. Capacity freed by a removal is reused: when a batch is full and
    one of its sprites is removed, [hasSpace ()] is true again and the next
    [addSprite] succeeds, placing the new sprite in the last slot and
    bringing the count back to the capacity. *)
Theorem X6_removal_frees_capacity (B : Z) (this : BatchPtr) (old new : SpritePtr)
    (b : SpriteBatch.t) (s_old s_new : Sprite.t) (w : World) :
  capacity_ok B -> batch_ok B b ->
  heap w !! this = Some b -> SpriteBatch.spriteCount b = B ->
  sprites w !! old = Some s_old -> Sprite.batch s_old = Some this ->
  0 <= Sprite.batchIndex s_old < B ->
  sprites w !! new = Some s_new -> new <> old ->
  exists w1 w2 b2 s2,
    Sprite_remove old w = Returns tt w1 /\
    SpriteBatch_hasSpace B this w1 = Returns true w1 /\
    SpriteBatch_addSprite B this new w1 = Returns tt w2 /\
    heap w2 !! this = Some b2 /\ SpriteBatch.spriteCount b2 = B /\
    sprites w2 !! new = Some s2 /\
    Sprite.batch s2 = Some this /\ Sprite.batchIndex s2 = B - 1 /\
    slot (SpriteBatch.data b2) (B - 1) = Some (vertices s_new).
Proof.
  intros Hcap Hok Hb Hfull Hold Hatt Hidx Hnew Hne.
  destruct (slot_fits B b _ Hcap Hok Hidx) as [H6 Hfit].
  assert (Hlastidx : 0 <= SpriteBatch.spriteCount b - 1 < B) by (destruct Hcap; lia).
  destruct (slot_fits B b _ Hcap Hok Hlastidx) as [H6' Hfit'].
  destruct (Sprite_remove_run this old b s_old w)
    as (last & d1 & d2 & Hl & H1 & H2 & Hrun); try assumption; try lia.
  set (b1 := SpriteBatch.mk d2 (SpriteBatch.texture b) (SpriteBatch.spriteCount b - 1) true) in *.
  set (w1 := mkWorld (<[old := Sprite.set_batchIndex 0 (Sprite.set_batch None s_old)]> (sprites w))
                     (<[this := b1]> (heap w))) in *.
  assert (Hb1 : heap w1 !! this = Some b1) by (eapply heap_lookup_insert, Hb).
  assert (Hok1 : batch_ok B b1).
  { destruct Hok as [Hcnt Hlen]. destruct Hcap. split; cbn [b1 SpriteBatch.spriteCount SpriteBatch.data].
    - lia.
    - rewrite (store_floats_length _ _ _ _ H2), (store_floats_length _ _ _ _ H1). exact Hlen. }
  assert (Hnew1 : sprites w1 !! new = Some s_new)
    by (cbn [w1 sprites]; rewrite lookup_insert_ne by congruence; exact Hnew).
  assert (Hlt1 : SpriteBatch.spriteCount b1 < B) by (cbn [b1 SpriteBatch.spriteCount]; lia).
  exists w1, (inserted_world this new b1 s_new w1), (inserted_batch b1 s_new),
    (inserted_sprite this b1 s_new).
  split; [exact Hrun|].
  split.
  { rewrite (hasSpace_run B this b1 w1 Hb1). apply Z.ltb_lt in Hlt1. rewrite Hlt1. reflexivity. }
  split; [apply addSprite_run; assumption|].
  split; [cbn [inserted_world heap]; eapply heap_lookup_insert, Hb1|].
  split; [cbn [inserted_batch b1 SpriteBatch.spriteCount]; lia|].
  split; [cbn [inserted_world sprites]; apply lookup_insert_eq|].
  split; [reflexivity|].
  split; [cbn [inserted_sprite Sprite.set_batchIndex Sprite.batchIndex b1 SpriteBatch.spriteCount]; lia|].
  unfold inserted_batch. cbn [SpriteBatch.data b1 SpriteBatch.spriteCount].
  rewrite Hfull. apply slot_of_inserts.
  - destruct Hcap. lia.
  - apply vertices_length.
  - rewrite (store_floats_length _ _ _ _ H2), (store_floats_length _ _ _ _ H1).
    rewrite <- Hfull. exact Hfit'.
Qed.

Lemma X6_removal_frees_capacity_witness :
  exists w1 w2 b2 s2,
    Sprite_remove pA world2 = Returns tt w1 /\
    SpriteBatch_hasSpace 2 0%nat w1 = Returns true w1 /\
    SpriteBatch_addSprite 2 0%nat pC w1 = Returns tt w2 /\
    heap w2 !! 0%nat = Some b2 /\ SpriteBatch.spriteCount b2 = 2 /\
    sprites w2 !! pC = Some s2 /\
    Sprite.batch s2 = Some 0%nat /\ Sprite.batchIndex s2 = 2 - 1 /\
    slot (SpriteBatch.data b2) (2 - 1) = Some (vertices spriteC).
Proof.
  apply (X6_removal_frees_capacity 2 0%nat pA pC (batch_at world2 0%nat)
           (sprite_at world2 pA) spriteC world2).
  - split; reflexivity.
  - split; [split; vm_compute; discriminate | vm_compute; reflexivity].
  - vm_compute. reflexivity.
  - vm_compute. reflexivity.
  - vm_compute. reflexivity.
  - vm_compute. reflexivity.
  - split; vm_compute; [discriminate | reflexivity].
  - vm_compute. reflexivity.
  - discriminate.
Defined.

(** ** Invisibility, again *)

(** X7. [Sprite::update] does not look at the [invisible] flag: once a
    sprite was made invisible, an [update ()] puts its real vertices back
    into the slot while the flag stays true; the next
    [toggleInvisibility ()] then only clears the flag and rewrites the same
    vertices, so the sprite stays visible in the storage. *)
Theorem X7_update_undoes_invisibility (B : Z) (this : BatchPtr) (sprite : SpritePtr)
    (b : SpriteBatch.t) (s : Sprite.t) (w : World) :
  capacity_ok B -> batch_ok B b ->
  heap w !! this = Some b -> sprites w !! sprite = Some s ->
  Sprite.batch s = Some this -> Sprite.invisible s = false ->
  0 <= Sprite.batchIndex s < B ->
  exists w1 w2 b2 s2 w3 b3 s3,
    Sprite_toggleInvisibility sprite w = Returns tt w1 /\
    Sprite_update sprite w1 = Returns tt w2 /\
    heap w2 !! this = Some b2 /\ sprites w2 !! sprite = Some s2 /\
    Sprite.invisible s2 = true /\
    slot (SpriteBatch.data b2) (Sprite.batchIndex s) = Some (vertices s) /\
    Sprite_toggleInvisibility sprite w2 = Returns tt w3 /\
    heap w3 !! this = Some b3 /\ sprites w3 !! sprite = Some s3 /\
    Sprite.invisible s3 = false /\
    slot (SpriteBatch.data b3) (Sprite.batchIndex s) = Some (vertices s).
Proof.
  intros Hcap Hok Hb Hs Hatt Hvis Hidx.
  destruct (slot_fits B b _ Hcap Hok Hidx) as [H6 Hfit].
  pose proof (toggle_on_run this sprite b s w Hb Hs Hatt Hvis) as Hon.
  specialize (Hon ltac:(lia) H6 Hfit).
  set (d1 := list_inserts (Z.to_nat (Sprite.batchIndex s * block_floats))
               zero_block (SpriteBatch.data b)) in *.
  set (b1 := SpriteBatch.mk d1 (SpriteBatch.texture b) (SpriteBatch.spriteCount b) true) in *.
  set (s1 := Sprite.set_invisible true s) in *.
  set (w1 := mkWorld (<[sprite := s1]> (sprites w)) (<[this := b1]> (heap w))) in *.
  assert (Hb1 : heap w1 !! this = Some b1) by (eapply heap_lookup_insert, Hb).
  assert (Hs1 : sprites w1 !! sprite = Some s1) by apply lookup_insert_eq.
  assert (Hd1 : length d1 = length (SpriteBatch.data b)) by apply length_inserts.
  pose proof (Sprite_update_run this sprite b1 s1 w1 Hb1 Hs1 Hatt) as Hup.
  cbn [s1 Sprite.set_invisible Sprite.batchIndex b1 SpriteBatch.data] in Hup.
  specialize (Hup ltac:(lia) H6 ltac:(lia)).
  set (d2 := list_inserts (Z.to_nat (Sprite.batchIndex s * block_floats))
               (vertices (Sprite.set_invisible true s)) d1) in *.
  set (b2 := SpriteBatch.mk d2 (SpriteBatch.texture b1) (SpriteBatch.spriteCount b1) true) in *.
  set (w2 := mkWorld (sprites w1) (<[this := b2]> (heap w1))) in *.
  assert (Hb2 : heap w2 !! this = Some b2) by (eapply heap_lookup_insert, Hb1).
  assert (Hs2 : sprites w2 !! sprite = Some s1) by exact Hs1.
  assert (Hd2 : length d2 = length d1) by apply length_inserts.
  pose proof (toggle_off_run this sprite b2 s1 w2 Hb2 Hs2 Hatt eq_refl) as Hoff.
  cbn [s1 Sprite.set_invisible Sprite.batchIndex b2 SpriteBatch.data] in Hoff.
  specialize (Hoff ltac:(lia) H6 ltac:(lia)).
  eexists w1, w2, b2, s1, _, _, _.
  split; [exact Hon|]. split; [exact Hup|]. split; [exact Hb2|]. split; [exact Hs2|].
  split; [reflexivity|].
  split; [apply slot_of_inserts; [lia | apply vertices_length | lia]|].
  split; [exact Hoff|].
  split; [cbn [heap]; eapply heap_lookup_insert, Hb2|].
  split; [cbn [sprites]; apply lookup_insert_eq|].
  split; [reflexivity|].
  cbn [SpriteBatch.data]. apply slot_of_inserts; [lia | apply vertices_length | lia].
Qed.

Lemma X7_update_undoes_invisibility_witness :
  exists w1 w2 b2 s2 w3 b3 s3,
    Sprite_toggleInvisibility pB world3 = Returns tt w1 /\
    Sprite_update pB w1 = Returns tt w2 /\
    heap w2 !! 0%nat = Some b2 /\ sprites w2 !! pB = Some s2 /\
    Sprite.invisible s2 = true /\
    slot (SpriteBatch.data b2) 1 = Some (vertices (sprite_at world3 pB)) /\
    Sprite_toggleInvisibility pB w2 = Returns tt w3 /\
    heap w3 !! 0%nat = Some b3 /\ sprites w3 !! pB = Some s3 /\
    Sprite.invisible s3 = false /\
    slot (SpriteBatch.data b3) 1 = Some (vertices (sprite_at world3 pB)).
Proof.
  apply (X7_update_undoes_invisibility 3 0%nat pB (batch_at world3 0%nat)
           (sprite_at world3 pB) world3).
  - split; reflexivity.
  - split; [split; vm_compute; discriminate | vm_compute; reflexivity].
  - vm_compute. reflexivity.
  - vm_compute. reflexivity.
  - vm_compute. reflexivity.
  - vm_compute. reflexivity.
  - split; vm_compute; [discriminate | reflexivity].
Defined.

(** X8. [Sprite::toggleInvisibility] on a detached sprite does nothing at
    all, not even flip the flag; on an attached sprite whose index is a slot
    of the storage it flips the flag and rewrites that one slot, with zeros
    when the sprite becomes invisible and with the sprite's encoding when it
    becomes visible, marks the batch for upload, and leaves the count, the
    other slots, the sprite's placement and descriptor, the other sprites
    and the other batches as they were. *)
Theorem X8_toggle_effect (B : Z) (sprite : SpritePtr) (s : Sprite.t) (w : World) :
  capacity_ok B -> sprites w !! sprite = Some s ->
  (Sprite.batch s = None -> Sprite_toggleInvisibility sprite w = Returns tt w) /\
  (forall (this : BatchPtr) (b : SpriteBatch.t),
     Sprite.batch s = Some this -> heap w !! this = Some b -> batch_ok B b ->
     0 <= Sprite.batchIndex s < B ->
     exists w' b' s',
       Sprite_toggleInvisibility sprite w = Returns tt w' /\
       heap w' !! this = Some b' /\ sprites w' !! sprite = Some s' /\
       Sprite.invisible s' = negb (Sprite.invisible s) /\
       slot (SpriteBatch.data b') (Sprite.batchIndex s)
         = Some (if Sprite.invisible s then vertices s else zero_block) /\
       (forall j : Z, j <> Sprite.batchIndex s ->
          slot (SpriteBatch.data b') j = slot (SpriteBatch.data b) j) /\
       SpriteBatch.spriteCount b' = SpriteBatch.spriteCount b /\
       SpriteBatch.shouldBuffer b' = true /\
       Sprite.batch s' = Sprite.batch s /\ Sprite.batchIndex s' = Sprite.batchIndex s /\
       same_descriptor s s' /\
       (forall q : SpritePtr, q <> sprite -> sprites w' !! q = sprites w !! q) /\
       (forall p : BatchPtr, p <> this -> heap w' !! p = heap w !! p)).
Proof.
  intros Hcap Hs. split.
  - intros Hdet. unfold Sprite_toggleInvisibility.
    rewrite (bind_Returns _ _ _ _ _ (load_sprite_run _ _ _ Hs)). rewrite Hdet.
    reflexivity.
  - intros this b Hatt Hb Hok Hidx.
    destruct (slot_fits B b _ Hcap Hok Hidx) as [H6 Hfit].
    destruct (Sprite.invisible s) eqn:Hinv.
    + eexists. eexists. eexists.
      split; [apply (toggle_off_run this sprite b s w); try assumption; lia|].
      split; [cbn [heap]; eapply heap_lookup_insert, Hb|].
      split; [cbn [sprites]; apply lookup_insert_eq|].
      split; [reflexivity|]. cbn [SpriteBatch.data].
      split; [apply slot_of_inserts; [lia | apply vertices_length | exact Hfit]|].
      split; [intros j Hj; apply slot_of_inserts_other;
              [lia | congruence | apply vertices_length | exact Hfit]|].
      split; [reflexivity|]. split; [reflexivity|]. split; [reflexivity|].
      split; [reflexivity|]. split; [repeat split|].
      split; [intros q Hq; cbn [sprites]; apply lookup_insert_ne; congruence|].
      intros p Hp. cbn [heap]. apply list_lookup_insert_ne. congruence.
    + eexists. eexists. eexists.
      split; [apply (toggle_on_run this sprite b s w); try assumption; lia|].
      split; [cbn [heap]; eapply heap_lookup_insert, Hb|].
      split; [cbn [sprites]; apply lookup_insert_eq|].
      split; [reflexivity|]. cbn [SpriteBatch.data].
      split; [apply slot_of_inserts; [lia | reflexivity | exact Hfit]|].
      split; [intros j Hj; apply slot_of_inserts_other;
              [lia | congruence | reflexivity | exact Hfit]|].
      split; [reflexivity|]. split; [reflexivity|]. split; [reflexivity|].
      split; [reflexivity|]. split; [repeat split|].
      split; [intros q Hq; cbn [sprites]; apply lookup_insert_ne; congruence|].
      intros p Hp. cbn [heap]. apply list_lookup_insert_ne. congruence.
Qed.

Lemma X8_toggle_effect_witness :
  (Sprite.batch (sprite_at world3 pB) = None ->
   Sprite_toggleInvisibility pB world3 = Returns tt world3) /\
  (forall (this : BatchPtr) (b : SpriteBatch.t),
     Sprite.batch (sprite_at world3 pB) = Some this ->
     heap world3 !! this = Some b -> batch_ok 3 b ->
     0 <= Sprite.batchIndex (sprite_at world3 pB) < 3 ->
     exists w' b' s',
       Sprite_toggleInvisibility pB world3 = Returns tt w' /\
       heap w' !! this = Some b' /\ sprites w' !! pB = Some s' /\
       Sprite.invisible s' = negb (Sprite.invisible (sprite_at world3 pB)) /\
       slot (SpriteBatch.data b') (Sprite.batchIndex (sprite_at world3 pB))
         = Some (if Sprite.invisible (sprite_at world3 pB)
                 then vertices (sprite_at world3 pB) else zero_block) /\
       (forall j : Z, j <> Sprite.batchIndex (sprite_at world3 pB) ->
          slot (SpriteBatch.data b') j = slot (SpriteBatch.data b) j) /\
       SpriteBatch.spriteCount b' = SpriteBatch.spriteCount b /\
       SpriteBatch.shouldBuffer b' = true /\
       Sprite.batch s' = Sprite.batch (sprite_at world3 pB) /\
       Sprite.batchIndex s' = Sprite.batchIndex (sprite_at world3 pB) /\
       same_descriptor (sprite_at world3 pB) s' /\
       (forall q : SpritePtr, q <> pB -> sprites w' !! q = sprites world3 !! q) /\
       (forall p : BatchPtr, p <> this -> heap w' !! p = heap world3 !! p)).
Proof.
  apply (X8_toggle_effect 3 pB (sprite_at world3 pB) world3).
  - split; reflexivity.
  - vm_compute. reflexivity.
Defined.

(** ** The router, again *)

Lemma Renderer2D_addSprite_cases (B : Z) (junk : nat -> f32) (r : Renderer2D.t)
    (sprite : SpritePtr) (s : Sprite.t) (w : World) :
  capacity_ok B -> router_ok B r w -> sprites w !! sprite = Some s ->
  (exists p b,
     p ∈ Renderer2D.batches r /\ heap w !! p = Some b /\ batch_ok B b /\
     SpriteBatch.texture b = Sprite.texture s /\ SpriteBatch.spriteCount b < B /\
     Renderer2D_addSprite B junk r sprite w =
     Returns r (mkWorld (<[sprite := inserted_sprite p b s]> (sprites w))
                        (<[p := inserted_batch b s]> (heap w)))) \/
  (first_fit B w (Sprite.texture s) (Renderer2D.batches r) = None /\
   Renderer2D_addSprite B junk r sprite w =
   Returns (Renderer2D.mk (Renderer2D.batches r ++ [length (heap w)]))
     (mkWorld (<[sprite := inserted_sprite (length (heap w))
                             (SpriteBatch_new B junk (Sprite.texture s)) s]> (sprites w))
              (heap w ++ [inserted_batch (SpriteBatch_new B junk (Sprite.texture s)) s]))).
Proof.
  intros Hcap Hok Hs. destruct w as [S0 h]. cbn [sprites heap] in *.
  destruct (first_fit B (mkWorld S0 h) (Sprite.texture s) (Renderer2D.batches r))
    as [p|] eqn:Hff.
  - left. pose proof Hff as Hff'.
    apply first_fit_Some in Hff' as (Hin & b & Hb & Htex & Hlt). cbn [heap] in Hb.
    exists p, b. split; [exact Hin|]. split; [exact Hb|].
    split.
    { unfold router_ok in Hok. rewrite Forall_forall in Hok.
      destruct (Hok p Hin) as (b0 & Hb0 & Hb0ok). cbn [heap] in Hb0. congruence. }
    split; [exact Htex|]. split; [exact Hlt|].
    apply (add_reuses B junk r sprite s S0 h p b); assumption.
  - right. split; [reflexivity|].
    apply (add_creates B junk r sprite s S0 h); assumption.
Qed.

Lemma batch_at_insert_ne (S0 S1 : gmap SpritePtr Sprite.t) (h : list SpriteBatch.t)
    (p q : BatchPtr) (b : SpriteBatch.t) :
  p <> q -> batch_at (mkWorld S1 (<[p := b]> h)) q = batch_at (mkWorld S0 h) q.
Proof.
  intros Hne. unfold batch_at. cbn [heap]. rewrite list_lookup_insert_ne by exact Hne.
  reflexivity.
Qed.

Lemma batch_at_app (S0 S1 : gmap SpritePtr Sprite.t) (h t : list SpriteBatch.t)
    (q : BatchPtr) :
  (q < length h)%nat -> batch_at (mkWorld S1 (h ++ t)) q = batch_at (mkWorld S0 h) q.
Proof.
  intros Hq. unfold batch_at. cbn [heap]. rewrite lookup_app_l by exact Hq. reflexivity.
Qed.

(** The sum of the counts over a list of distinct batches, one of which
    was replaced. *)
Lemma count_sum_insert (S0 S1 : gmap SpritePtr Sprite.t) (h : list SpriteBatch.t)
    (p : BatchPtr) (b b' : SpriteBatch.t) (bs : list BatchPtr) :
  NoDup bs -> h !! p = Some b ->
  foldr Z.add 0 (map (fun q => SpriteBatch.spriteCount
                                 (batch_at (mkWorld S1 (<[p := b']> h)) q)) bs) =
  foldr Z.add 0 (map (fun q => SpriteBatch.spriteCount (batch_at (mkWorld S0 h) q)) bs)
  + (if bool_decide (p ∈ bs)
     then SpriteBatch.spriteCount b' - SpriteBatch.spriteCount b else 0).
Proof.
  intros Hnd Hb. induction Hnd as [| q bs Hq Hnd IH].
  - cbn. reflexivity.
  - cbn [map foldr]. rewrite IH. destruct (decide (p = q)) as [<-|Hne].
    + rewrite (bool_decide_eq_true_2 (p ∈ p :: bs)) by apply list_elem_of_here.
      rewrite (bool_decide_eq_false_2 (p ∈ bs)) by exact Hq.
      assert (H1 : batch_at (mkWorld S1 (<[p := b']> h)) p = b')
        by (unfold batch_at; cbn [heap]; rewrite (heap_lookup_insert h p b b' Hb);
            reflexivity).
      assert (H0 : batch_at (mkWorld S0 h) p = b)
        by (unfold batch_at; cbn [heap]; rewrite Hb; reflexivity).
      rewrite H1, H0. lia.
    + rewrite (batch_at_insert_ne S0 S1 h p q b') by exact Hne.
      destruct (decide (p ∈ bs)) as [Hin|Hnin].
      * rewrite (bool_decide_eq_true_2 (p ∈ bs)) by exact Hin.
        rewrite (bool_decide_eq_true_2 (p ∈ q :: bs))
          by (apply list_elem_of_further, Hin). lia.
      * rewrite (bool_decide_eq_false_2 (p ∈ bs)) by exact Hnin.
        rewrite (bool_decide_eq_false_2 (p ∈ q :: bs)); [lia|].
        intros Hin. apply elem_of_cons in Hin as [Heq | Hin]; congruence.
Qed.

Lemma count_sum_app (S0 S1 : gmap SpritePtr Sprite.t) (h t : list SpriteBatch.t)
    (bs : list BatchPtr) :
  Forall (fun q => (q < length h)%nat) bs ->
  foldr Z.add 0 (map (fun q => SpriteBatch.spriteCount
                                 (batch_at (mkWorld S1 (h ++ t)) q)) bs) =
  foldr Z.add 0 (map (fun q => SpriteBatch.spriteCount (batch_at (mkWorld S0 h) q)) bs).
Proof.
  intros Hall. induction Hall as [| q bs Hq Hall IH]; [reflexivity|].
  cbn [map foldr]. rewrite IH, (batch_at_app S0 S1 h t q Hq). reflexivity.
Qed.

Lemma foldr_add_snoc (l : list Z) (x : Z) :
  foldr Z.add 0 (l ++ [x]) = foldr Z.add 0 l + x.
Proof. induction l as [| y l IH]; cbn; [lia | rewrite IH; lia]. Qed.

Lemma router_ok_allocated (B : Z) (r : Renderer2D.t) (w : World) :
  router_ok B r w -> Forall (fun q => (q < length (heap w))%nat) (Renderer2D.batches r).
Proof.
  intros Hok. eapply Forall_impl; [exact Hok|].
  intros q (b & Hq & _). eapply lookup_lt_Some, Hq.
Qed.

(** Everything one [Renderer2D::addSprite] does to a well-formed router. *)
Lemma Renderer2D_addSprite_step (B : Z) (junk : nat -> f32) (r : Renderer2D.t)
    (sprite : SpritePtr) (s : Sprite.t) (w : World) :
  capacity_ok B -> router_ok B r w -> NoDup (Renderer2D.batches r) ->
  sprites w !! sprite = Some s ->
  exists r' w' p s' b',
    Renderer2D_addSprite B junk r sprite w = Returns r' w' /\
    (sprites w' !! sprite = Some s' /\ Sprite.batch s' = Some p /\
     same_descriptor s s' /\ p ∈ Renderer2D.batches r' /\
     heap w' !! p = Some b' /\ SpriteBatch.texture b' = Sprite.texture s) /\
    router_ok B r' w' /\ NoDup (Renderer2D.batches r') /\
    router_count r' w' = router_count r w + 1 /\
    (Renderer2D.batches r' = Renderer2D.batches r \/
     Renderer2D.batches r' = Renderer2D.batches r ++ [length (heap w)]) /\
    (forall q : SpritePtr, q <> sprite -> sprites w' !! q = sprites w !! q) /\
    (forall (p : BatchPtr) (b : SpriteBatch.t),
       heap w !! p = Some b ->
       exists b', heap w' !! p = Some b' /\
                  SpriteBatch.texture b' = SpriteBatch.texture b /\
                  SpriteBatch.spriteCount b <= SpriteBatch.spriteCount b').
Proof.
  intros Hcap Hok Hnd Hs.
  pose proof (router_ok_allocated B r w Hok) as Halloc.
  destruct (Renderer2D_addSprite_cases B junk r sprite s w Hcap Hok Hs)
    as [(p & b & Hin & Hb & Hbok & Htex & Hlt & Hrun) | [Hff Hrun]].
  - exists r, (mkWorld (<[sprite := inserted_sprite p b s]> (sprites w))
                       (<[p := inserted_batch b s]> (heap w))),
      p, (inserted_sprite p b s), (inserted_batch b s).
    split; [exact Hrun|].
    split.
    { split; [cbn [sprites]; apply lookup_insert_eq|]. split; [reflexivity|].
      split; [repeat split|]. split; [exact Hin|].
      split; [cbn [heap]; eapply heap_lookup_insert, Hb | exact Htex]. }
    split; [apply router_ok_insert; [exact Hok | apply inserted_batch_ok; assumption]|].
    split; [exact Hnd|].
    split.
    { unfold router_count. destruct w as [S0 h]. cbn [heap sprites] in *.
      rewrite (count_sum_insert S0 _ h p b _ _ Hnd Hb).
      rewrite (bool_decide_eq_true_2 _ Hin). cbn [inserted_batch SpriteBatch.spriteCount]. lia. }
    split; [left; reflexivity|].
    split; [intros q Hq; cbn [sprites]; apply lookup_insert_ne; congruence|].
    intros q bq Hq. cbn [heap]. destruct (decide (p = q)) as [<-|Hne].
    + exists (inserted_batch b s). split; [eapply heap_lookup_insert, Hb|].
      assert (bq = b) by congruence. subst bq.
      split; [reflexivity|]. cbn [inserted_batch SpriteBatch.spriteCount]. lia.
    + exists bq. split; [rewrite list_lookup_insert_ne by exact Hne; exact Hq|].
      split; [reflexivity | lia].
  - set (fresh := SpriteBatch_new B junk (Sprite.texture s)) in *.
    pose proof (SpriteBatch_new_ok B junk (Sprite.texture s) Hcap) as Hfresh.
    assert (Hib : batch_ok B (inserted_batch fresh s))
      by (apply inserted_batch_ok; [exact Hfresh | destruct Hcap; cbn; lia]).
    exists (Renderer2D.mk (Renderer2D.batches r ++ [length (heap w)])),
      (mkWorld (<[sprite := inserted_sprite (length (heap w)) fresh s]> (sprites w))
               (heap w ++ [inserted_batch fresh s])),
      (length (heap w)), (inserted_sprite (length (heap w)) fresh s),
      (inserted_batch fresh s).
    split; [exact Hrun|].
    split.
    { split; [cbn [sprites]; apply lookup_insert_eq|]. split; [reflexivity|].
      split; [repeat split|].
      split; [cbn [Renderer2D.batches]; apply elem_of_app; right;
              apply list_elem_of_singleton; reflexivity|].
      split; [cbn [heap]; apply list_lookup_middle; reflexivity | reflexivity]. }
    split; [apply router_ok_alloc; assumption|].
    split.
    { cbn [Renderer2D.batches]. apply NoDup_app. split; [exact Hnd|].
      split; [| apply NoDup_singleton].
      intros q Hq Hq'. apply list_elem_of_singleton in Hq'. subst q.
      rewrite Forall_forall in Halloc. specialize (Halloc _ Hq). lia. }
    split.
    { unfold router_count. cbn [Renderer2D.batches]. destruct w as [S0 h].
      cbn [heap sprites] in *. rewrite map_app. cbn [map]. rewrite foldr_add_snoc.
      rewrite (count_sum_app S0 _ h _ _ Halloc).
      assert (H1 : batch_at (mkWorld
                      (<[sprite := inserted_sprite (length h) fresh s]> S0)
                      (h ++ [inserted_batch fresh s])) (length h)
                   = inserted_batch fresh s)
        by (unfold batch_at; cbn [heap]; rewrite list_lookup_middle by reflexivity;
            reflexivity).
      rewrite H1. cbn. lia. }
    split; [right; reflexivity|].
    split; [intros q Hq; cbn [sprites]; apply lookup_insert_ne; congruence|].
    intros q bq Hq. exists bq. cbn [heap].
    split; [apply lookup_app_l_Some, Hq|]. split; [reflexivity | lia].
Qed.

(** X9. One [Renderer2D::addSprite] on a well-formed router with distinct
    batches adds exactly one sprite to the total the router draws, keeps
    the router well formed with distinct batches, keeps the existing
    batches in their order (at most one batch is pushed at the back, none is
    removed or reordered), never changes the texture of an existing batch nor
    lowers its count, and leaves every other sprite as it was. *)
Theorem X9_router_add_counts_one (B : Z) (junk : nat -> f32) (r : Renderer2D.t)
    (sprite : SpritePtr) (s : Sprite.t) (w : World) :
  capacity_ok B -> router_ok B r w -> NoDup (Renderer2D.batches r) ->
  sprites w !! sprite = Some s ->
  exists r' w',
    Renderer2D_addSprite B junk r sprite w = Returns r' w' /\
    router_ok B r' w' /\ NoDup (Renderer2D.batches r') /\
    router_count r' w' = router_count r w + 1 /\
    (Renderer2D.batches r' = Renderer2D.batches r \/
     Renderer2D.batches r' = Renderer2D.batches r ++ [length (heap w)]) /\
    (forall q : SpritePtr, q <> sprite -> sprites w' !! q = sprites w !! q) /\
    (forall (p : BatchPtr) (b : SpriteBatch.t),
       heap w !! p = Some b ->
       exists b', heap w' !! p = Some b' /\
                  SpriteBatch.texture b' = SpriteBatch.texture b /\
                  SpriteBatch.spriteCount b <= SpriteBatch.spriteCount b').
Proof.
  intros Hcap Hok Hnd Hs.
  destruct (Renderer2D_addSprite_step B junk r sprite s w Hcap Hok Hnd Hs)
    as (r' & w' & p & s' & b' & Hrun & _ & Hok' & Hnd' & Hcount & Hgrow & Hframe & Hkeep).
  exists r', w'. repeat split; assumption.
Qed.


Lemma X9_router_add_counts_one_witness :
  exists r' w',
    Renderer2D_addSprite 2 scenario_junk (Renderer2D.mk [0%nat]) pC world2 = Returns r' w' /\
    router_ok 2 r' w' /\ NoDup (Renderer2D.batches r') /\
    router_count r' w' = router_count (Renderer2D.mk [0%nat]) world2 + 1 /\
    (Renderer2D.batches r' = [0%nat] \/
     Renderer2D.batches r' = [0%nat] ++ [length (heap world2)]) /\
    (forall q : SpritePtr, q <> pC -> sprites w' !! q = sprites world2 !! q) /\
    (forall (p : BatchPtr) (b : SpriteBatch.t),
       heap world2 !! p = Some b ->
       exists b', heap w' !! p = Some b' /\
                  SpriteBatch.texture b' = SpriteBatch.texture b /\
                  SpriteBatch.spriteCount b <= SpriteBatch.spriteCount b').
Proof.
  apply (X9_router_add_counts_one 2 scenario_junk (Renderer2D.mk [0%nat]) pC spriteC world2).
  - split; reflexivity.
  - apply Forall_singleton. exists (batch_at world2 0%nat).
    split; [vm_compute; reflexivity|].
    split; [split; vm_compute; discriminate | vm_compute; reflexivity].
  - apply NoDup_singleton.
  - vm_compute. reflexivity.
Defined.

(** Everything [Renderer2D::addText] does, in the form that its induction
    needs. *)
Lemma Renderer2D_addText_steps (B : Z) (junk : nat -> f32) (ps : list SpritePtr) :
  capacity_ok B -> NoDup ps ->
  forall (r : Renderer2D.t) (w : World),
  router_ok B r w -> NoDup (Renderer2D.batches r) ->
  (forall p, p ∈ ps -> is_Some (sprites w !! p)) ->
  exists r' w',
    Renderer2D_addText B junk r ps w = Returns r' w' /\
    router_ok B r' w' /\ NoDup (Renderer2D.batches r') /\
    router_count r' w' = router_count r w + Z.of_nat (length ps) /\
    (exists new, Renderer2D.batches r' = Renderer2D.batches r ++ new) /\
    (forall (p : SpritePtr) (s : Sprite.t),
       p ∈ ps -> sprites w !! p = Some s ->
       exists s' q b,
         sprites w' !! p = Some s' /\ same_descriptor s s' /\
         Sprite.batch s' = Some q /\ q ∈ Renderer2D.batches r' /\
         heap w' !! q = Some b /\ SpriteBatch.texture b = Sprite.texture s) /\
    (forall q : SpritePtr, q ∉ ps -> sprites w' !! q = sprites w !! q) /\
    (forall (p : BatchPtr) (b : SpriteBatch.t),
       heap w !! p = Some b ->
       exists b', heap w' !! p = Some b' /\
                  SpriteBatch.texture b' = SpriteBatch.texture b).
Proof.
  intros Hcap Hnd. induction Hnd as [| p rest Hp Hnd IH]; intros r w Hok Hndr Hvalid.
  - exists r, w. split; [reflexivity|]. split; [exact Hok|]. split; [exact Hndr|].
    split; [cbn; lia|]. split; [exists []; rewrite app_nil_r; reflexivity|].
    split; [intros p s Hin; apply elem_of_nil in Hin; destruct Hin|].
    split; [reflexivity|]. intros p b Hb. exists b. split; [exact Hb | reflexivity].
  - destruct (Hvalid p (list_elem_of_here _ _)) as [s Hs].
    destruct (Renderer2D_addSprite_step B junk r p s w Hcap Hok Hndr Hs)
      as (r1 & w1 & q1 & s1 & b1 & Hrun1 & (Hs1 & Hatt1 & Hdesc1 & Hq1 & Hb1 & Htex1)
          & Hok1 & Hnd1 & Hcount1 & Hgrow1 & Hframe1 & Hkeep1).
    assert (Hvalid1 : forall p', p' ∈ rest -> is_Some (sprites w1 !! p')).
    { intros p' Hp'. rewrite Hframe1 by (intros ->; contradiction).
      apply Hvalid, list_elem_of_further, Hp'. }
    destruct (IH r1 w1 Hok1 Hnd1 Hvalid1)
      as (r' & w' & Hrun & Hok' & Hnd' & Hcount & (new & Hgrow) & Hatt & Hframe & Hkeep).
    exists r', w'.
    split; [cbn [Renderer2D_addText]; rewrite (bind_Returns _ _ _ _ _ Hrun1); exact Hrun|].
    split; [exact Hok'|]. split; [exact Hnd'|].
    split; [rewrite Hcount, Hcount1; cbn [length]; lia|].
    split.
    { destruct Hgrow1 as [Hg | Hg]; rewrite Hgrow, Hg.
      - exists new. reflexivity.
      - eexists. rewrite <- app_assoc. reflexivity. }
    split.
    { intros p0 s0 Hin Hs0. apply elem_of_cons in Hin as [-> | Hin].
      - assert (s0 = s) by congruence. subst s0.
        destruct (Hkeep q1 b1 Hb1) as (b' & Hb' & Htex').
        exists s1, q1, b'. rewrite (Hframe p Hp).
        split; [exact Hs1|]. split; [exact Hdesc1|]. split; [exact Hatt1|].
        split; [rewrite Hgrow; apply elem_of_app; left; exact Hq1|].
        split; [exact Hb' | congruence].
      - apply (Hatt p0 s0 Hin). rewrite Hframe1 by (intros ->; contradiction). exact Hs0. }
    split.
    { intros q Hq. apply not_elem_of_cons in Hq as [Hne Hq].
      rewrite (Hframe q Hq). apply Hframe1, Hne. }
    intros p0 b0 Hb0. destruct (Hkeep1 p0 b0 Hb0) as (b0' & Hb0' & Ht0 & _).
    destruct (Hkeep p0 b0' Hb0') as (b0'' & Hb0'' & Ht0').
    exists b0''. split; [exact Hb0'' | congruence].
Qed.

(** X10. [Renderer2D::addText] over the distinct sprites of a text leaves
    every one of them attached to a batch of the router that has the
    sprite's texture, with its descriptor unchanged; the router stays well
    formed, keeps its earlier batches as a prefix of its batch list, draws
    exactly as many more sprites as the text has, and no sprite outside the
    text is touched. *)
Theorem X10_addText_attaches_all (B : Z) (junk : nat -> f32) (r : Renderer2D.t)
    (ps : list SpritePtr) (w : World) :
  capacity_ok B -> router_ok B r w -> NoDup (Renderer2D.batches r) ->
  NoDup ps -> (forall p, p ∈ ps -> is_Some (sprites w !! p)) ->
  exists r' w',
    Renderer2D_addText B junk r ps w = Returns r' w' /\
    router_ok B r' w' /\ NoDup (Renderer2D.batches r') /\
    router_count r' w' = router_count r w + Z.of_nat (length ps) /\
    (exists new, Renderer2D.batches r' = Renderer2D.batches r ++ new) /\
    (forall (p : SpritePtr) (s : Sprite.t),
       p ∈ ps -> sprites w !! p = Some s ->
       exists s' q b,
         sprites w' !! p = Some s' /\ same_descriptor s s' /\
         Sprite.batch s' = Some q /\ q ∈ Renderer2D.batches r' /\
         heap w' !! q = Some b /\ SpriteBatch.texture b = Sprite.texture s) /\
    (forall q : SpritePtr, q ∉ ps -> sprites w' !! q = sprites w !! q).
Proof.
  intros Hcap Hok Hndr Hnd Hvalid.
  destruct (Renderer2D_addText_steps B junk ps Hcap Hnd r w Hok Hndr Hvalid)
    as (r' & w' & Hrun & Hok' & Hnd' & Hcount & Hgrow & Hatt & Hframe & _).
  exists r', w'. repeat split; assumption.
Qed.

Lemma scenario_text_sprites_distinct : NoDup [pA; pD; pB].
Proof. apply (bool_decide_unpack _). vm_compute. exact I. Qed.

Lemma X10_addText_attaches_all_witness :
  exists r' w',
    Renderer2D_addText 2 scenario_junk (Renderer2D.mk []) [pA; pD; pB] world_router
      = Returns r' w' /\
    router_ok 2 r' w' /\ NoDup (Renderer2D.batches r') /\
    router_count r' w' = router_count (Renderer2D.mk []) world_router + Z.of_nat 3 /\
    (exists new, Renderer2D.batches r' = [] ++ new) /\
    (forall (p : SpritePtr) (s : Sprite.t),
       p ∈ [pA; pD; pB] -> sprites world_router !! p = Some s ->
       exists s' q b,
         sprites w' !! p = Some s' /\ same_descriptor s s' /\
         Sprite.batch s' = Some q /\ q ∈ Renderer2D.batches r' /\
         heap w' !! q = Some b /\ SpriteBatch.texture b = Sprite.texture s) /\
    (forall q : SpritePtr, q ∉ [pA; pD; pB] -> sprites w' !! q = sprites world_router !! q).
Proof.
  apply (X10_addText_attaches_all 2 scenario_junk (Renderer2D.mk []) [pA; pD; pB] world_router).
  - split; reflexivity.
  - apply Forall_nil_2.
  - apply NoDup_nil_2.
  - exact scenario_text_sprites_distinct.
  - intros p Hp. apply list_elem_of_In in Hp. cbn in Hp.
    destruct Hp as [<- | [<- | [<- | []]]]; eexists; reflexivity.
Defined.

(** ** Rendering *)

Lemma set_shouldBuffer_clean (b : SpriteBatch.t) :
  SpriteBatch.shouldBuffer b = false -> SpriteBatch.set_shouldBuffer false b = b.
Proof. destruct b as [d t c f]. cbn. intros ->. reflexivity. Qed.

Lemma bufferData_run (B : Z) (this : BatchPtr) (b : SpriteBatch.t) (w : World) :
  capacity_ok B -> batch_ok B b -> heap w !! this = Some b ->
  SpriteBatch_bufferData B this w = Returns (SpriteBatch.data b) w.
Proof.
  intros Hcap [Hcnt Hlen] Hb. pose proof (data_length_ok B Hcap) as HB.
  destruct Hcap as [Hpos H6]. unfold SpriteBatch_bufferData.
  rewrite (bind_Returns _ _ _ _ _ (load_batch_run _ _ _ Hb)).
  assert (Hn : wrap_usize (wrap_u32 (B * 6) * Renderer2D.VERTEX_SIZE_BYTES) / sizeof_f32
               = Z.of_nat (length (SpriteBatch.data b))).
  { rewrite Hlen, HB. unfold wrap_usize, wrap_u32, block_floats, sizeof_f32,
      Renderer2D.VERTEX_SIZE_BYTES, Renderer2D.VERTEX_SIZE, sizeof_f32.
    rewrite (Z.mod_small (B * 6)) by lia. rewrite Z.mod_small by lia.
    replace (B * 6 * (8 * 4)) with (B * (6 * 8) * 4) by lia.
    apply Z.div_mul. discriminate. }
  rewrite Hn, load_floats_in_range by lia.
  rewrite Nat2Z.id, drop_0, take_ge by lia. reflexivity.
Qed.

Lemma render_run (B : Z) (this : BatchPtr) (b : SpriteBatch.t) (w : World) :
  capacity_ok B -> batch_ok B b -> heap w !! this = Some b ->
  SpriteBatch_render B this w =
  Returns (mkDraw (if SpriteBatch.shouldBuffer b then Some (SpriteBatch.data b) else None)
                  (SpriteBatch.spriteCount b * 6))
          (mkWorld (sprites w) (<[this := SpriteBatch.set_shouldBuffer false b]> (heap w))).
Proof.
  intros Hcap Hok Hb.
  assert (Hvc : forall c, 0 <= c <= B -> i32_of_u32 (wrap_u32 (c * 6)) = c * 6).
  { intros c Hc. destruct Hcap as [Hpos H6].
    rewrite wrap_u32_small by lia. apply i32_of_u32_small. lia. }
  unfold SpriteBatch_render.
  rewrite (bind_Returns _ _ _ _ _ (load_batch_run _ _ _ Hb)).
  destruct (SpriteBatch.shouldBuffer b) eqn:Hdirty.
  - erewrite bind_Returns.
    2:{ erewrite bind_Returns; [| apply (bufferData_run B this b w); assumption].
        erewrite bind_Returns; [| apply load_batch_run; exact Hb].
        erewrite bind_Returns; [| eapply store_batch_run; exact Hb].
        reflexivity. }
    erewrite bind_Returns;
      [| apply load_batch_run; cbn [heap]; eapply heap_lookup_insert, Hb].
    cbn [SpriteBatch.set_shouldBuffer SpriteBatch.spriteCount].
    rewrite Hvc by (destruct Hok; lia). reflexivity.
  - erewrite bind_Returns; [| reflexivity].
    rewrite (bind_Returns _ _ _ _ _ (load_batch_run _ _ _ Hb)).
    rewrite Hvc by (destruct Hok; lia).
    rewrite (set_shouldBuffer_clean b Hdirty).
    rewrite list_insert_id by exact Hb. destruct w. reflexivity.
Qed.

(** X11. [SpriteBatch::render] on a well-formed batch uploads the whole
    storage exactly when the batch is marked for upload, asks for
    [6 * spriteCount] vertices, and leaves the batch unmarked and otherwise
    unchanged; a second [render] right after it uploads nothing, asks for the
    same number of vertices and changes nothing. *)
Theorem X11_render_uploads_when_dirty (B : Z) (this : BatchPtr)
    (b : SpriteBatch.t) (w : World) :
  capacity_ok B -> batch_ok B b -> heap w !! this = Some b ->
  exists w',
    SpriteBatch_render B this w =
      Returns (mkDraw (if SpriteBatch.shouldBuffer b then Some (SpriteBatch.data b) else None)
                      (6 * SpriteBatch.spriteCount b)) w' /\
    sprites w' = sprites w /\
    heap w' !! this = Some (SpriteBatch.set_shouldBuffer false b) /\
    (forall p : BatchPtr, p <> this -> heap w' !! p = heap w !! p) /\
    SpriteBatch_render B this w' =
      Returns (mkDraw None (6 * SpriteBatch.spriteCount b)) w'.
Proof.
  intros Hcap Hok Hb.
  set (b' := SpriteBatch.set_shouldBuffer false b).
  set (w' := mkWorld (sprites w) (<[this := b']> (heap w))).
  assert (Hb' : heap w' !! this = Some b') by (eapply heap_lookup_insert, Hb).
  assert (Hok' : batch_ok B b') by exact Hok.
  exists w'. rewrite (Z.mul_comm 6).
  split; [apply render_run; assumption|]. split; [reflexivity|].
  split; [exact Hb'|].
  split; [intros p Hp; cbn [w' heap]; apply list_lookup_insert_ne; congruence|].
  rewrite (render_run B this b' w' Hcap Hok' Hb').
  cbn [b' SpriteBatch.set_shouldBuffer SpriteBatch.shouldBuffer SpriteBatch.spriteCount
       w' sprites heap].
  rewrite list_insert_insert_eq. reflexivity.
Qed.

Lemma X11_render_uploads_when_dirty_witness :
  exists w',
    SpriteBatch_render 2 0%nat world2 =
      Returns (mkDraw (if SpriteBatch.shouldBuffer (batch_at world2 0%nat)
                       then Some (SpriteBatch.data (batch_at world2 0%nat)) else None)
                      (6 * SpriteBatch.spriteCount (batch_at world2 0%nat))) w' /\
    sprites w' = sprites world2 /\
    heap w' !! 0%nat = Some (SpriteBatch.set_shouldBuffer false (batch_at world2 0%nat)) /\
    (forall p : BatchPtr, p <> 0%nat -> heap w' !! p = heap world2 !! p) /\
    SpriteBatch_render 2 0%nat w' =
      Returns (mkDraw None (6 * SpriteBatch.spriteCount (batch_at world2 0%nat))) w'.
Proof.
  apply (X11_render_uploads_when_dirty 2 0%nat (batch_at world2 0%nat) world2).
  - split; reflexivity.
  - split; [split; vm_compute; discriminate | vm_compute; reflexivity].
  - vm_compute. reflexivity.
Defined.

(** X12. What is inserted reaches the GPU with the next render: after a
    successful [addSprite], [render] uploads the storage, in which the new
    slot holds the sprite's six vertices and every other slot is as before
    the insertion, and asks for six vertices more than the old count. *)
Theorem X12_insert_then_render (B : Z) (this : BatchPtr) (sprite : SpritePtr)
    (b : SpriteBatch.t) (s : Sprite.t) (w : World) :
  capacity_ok B -> batch_ok B b ->
  heap w !! this = Some b -> sprites w !! sprite = Some s ->
  SpriteBatch.spriteCount b < B ->
  exists w1 w2 d,
    SpriteBatch_addSprite B this sprite w = Returns tt w1 /\
    SpriteBatch_render B this w1 =
      Returns (mkDraw (Some d) (6 * (SpriteBatch.spriteCount b + 1))) w2 /\
    slot d (SpriteBatch.spriteCount b) = Some (vertices s) /\
    (forall j : Z, j <> SpriteBatch.spriteCount b -> slot d j = slot (SpriteBatch.data b) j).
Proof.
  intros Hcap Hok Hb Hs Hlt.
  assert (Hidx : 0 <= SpriteBatch.spriteCount b < B) by (destruct Hok; lia).
  destruct (slot_fits B b _ Hcap Hok Hidx) as [H6 Hfit].
  pose proof (inserted_batch_ok B b s Hok Hlt) as Hok1.
  assert (Hb1 : heap (inserted_world this sprite b s w) !! this = Some (inserted_batch b s))
    by (cbn [inserted_world heap]; eapply heap_lookup_insert, Hb).
  eexists. eexists. eexists.
  split; [apply (addSprite_run B this sprite b s w); assumption|].
  split.
  { rewrite (render_run B this _ _ Hcap Hok1 Hb1).
    cbn [inserted_batch SpriteBatch.shouldBuffer SpriteBatch.spriteCount SpriteBatch.data].
    rewrite (Z.mul_comm 6). reflexivity. }
  split; [apply slot_of_inserts; [lia | apply vertices_length | exact Hfit]|].
  intros j Hj. apply slot_of_inserts_other;
    [lia | congruence | apply vertices_length | exact Hfit].
Qed.

Lemma X12_insert_then_render_witness :
  exists w1 w2 d,
    SpriteBatch_addSprite 2 0%nat pB world1 = Returns tt w1 /\
    SpriteBatch_render 2 0%nat w1 = Returns (mkDraw (Some d) (6 * (1 + 1))) w2 /\
    slot d 1 = Some (vertices spriteB) /\
    (forall j : Z, j <> 1 -> slot d j = slot (SpriteBatch.data (batch_at world1 0%nat)) j).
Proof.
  apply (X12_insert_then_render 2 0%nat pB (batch_at world1 0%nat) spriteB world1).
  - split; reflexivity.
  - split; [split; vm_compute; discriminate | vm_compute; reflexivity].
  - vm_compute. reflexivity.
  - vm_compute. reflexivity.
  - vm_compute. reflexivity.
Defined.

(** X13. An invisible sprite is still drawn: after
    [toggleInvisibility ()] on an attached, visible sprite, [render] uploads
    a storage whose slot for the sprite is all zero and asks for exactly as
    many vertices as before, [6 * spriteCount]. *)
Theorem X13_invisible_still_drawn (B : Z) (this : BatchPtr) (sprite : SpritePtr)
    (b : SpriteBatch.t) (s : Sprite.t) (w : World) :
  capacity_ok B -> batch_ok B b ->
  heap w !! this = Some b -> sprites w !! sprite = Some s ->
  Sprite.batch s = Some this -> Sprite.invisible s = false ->
  0 <= Sprite.batchIndex s < B ->
  exists w1 w2 d,
    Sprite_toggleInvisibility sprite w = Returns tt w1 /\
    SpriteBatch_render B this w1 =
      Returns (mkDraw (Some d) (6 * SpriteBatch.spriteCount b)) w2 /\
    slot d (Sprite.batchIndex s) = Some zero_block /\
    (forall j : Z, j <> Sprite.batchIndex s -> slot d j = slot (SpriteBatch.data b) j).
Proof.
  intros Hcap Hok Hb Hs Hatt Hvis Hidx.
  destruct (slot_fits B b _ Hcap Hok Hidx) as [H6 Hfit].
  pose proof (toggle_on_run this sprite b s w Hb Hs Hatt Hvis) as Hon.
  specialize (Hon ltac:(lia) H6 Hfit).
  set (b1 := SpriteBatch.mk
               (list_inserts (Z.to_nat (Sprite.batchIndex s * block_floats))
                  zero_block (SpriteBatch.data b))
               (SpriteBatch.texture b) (SpriteBatch.spriteCount b) true) in *.
  assert (Hok1 : batch_ok B b1).
  { destruct Hok as [Hcnt Hlen]. split; [exact Hcnt|].
    cbn [b1 SpriteBatch.data]. rewrite length_inserts. exact Hlen. }
  eexists. eexists. eexists. split; [exact Hon|].
  split.
  { erewrite (render_run B this b1); [| exact Hcap | exact Hok1
                                       | cbn [heap]; eapply heap_lookup_insert, Hb].
    cbn [b1 SpriteBatch.shouldBuffer SpriteBatch.spriteCount SpriteBatch.data].
    rewrite (Z.mul_comm 6). reflexivity. }
  split; [apply slot_of_inserts; [lia | reflexivity | exact Hfit]|].
  intros j Hj. apply slot_of_inserts_other; [lia | congruence | reflexivity | exact Hfit].
Qed.

Lemma X13_invisible_still_drawn_witness :
  exists w1 w2 d,
    Sprite_toggleInvisibility pB world3 = Returns tt w1 /\
    SpriteBatch_render 3 0%nat w1 = Returns (mkDraw (Some d) (6 * 3)) w2 /\
    slot d 1 = Some zero_block /\
    (forall j : Z, j <> 1 -> slot d j = slot (SpriteBatch.data (batch_at world3 0%nat)) j).
Proof.
  apply (X13_invisible_still_drawn 3 0%nat pB (batch_at world3 0%nat)
           (sprite_at world3 pB) world3).
  - split; reflexivity.
  - split; [split; vm_compute; discriminate | vm_compute; reflexivity].
  - vm_compute. reflexivity.
  - vm_compute. reflexivity.
  - vm_compute. reflexivity.
  - vm_compute. reflexivity.
  - split; vm_compute; [discriminate | reflexivity].
Defined.

Lemma render_batches_steps (B : Z) (bs : list BatchPtr) :
  capacity_ok B -> NoDup bs ->
  forall w : World,
  Forall (fun p => exists b, heap w !! p = Some b /\ batch_ok B b) bs ->
  exists w',
    render_batches B bs w = Returns (map (fun p => draw_of (batch_at w p)) bs) w' /\
    sprites w' = sprites w /\
    forall p : BatchPtr, heap w' !! p = rendered bs p <$> heap w !! p.
Proof.
  intros Hcap Hnd. induction Hnd as [| p rest Hp Hnd IH]; intros w Hall.
  - exists w. split; [reflexivity|]. split; [reflexivity|].
    intros p. unfold rendered. destruct (heap w !! p); reflexivity.
  - apply Forall_cons in Hall as [(b & Hb & Hok) Hall].
    set (w1 := mkWorld (sprites w) (<[p := SpriteBatch.set_shouldBuffer false b]> (heap w))).
    assert (Hother : forall q, q <> p -> heap w1 !! q = heap w !! q)
      by (intros q Hq; cbn [w1 heap]; apply list_lookup_insert_ne; congruence).
    assert (Hall1 : Forall (fun q => exists bq, heap w1 !! q = Some bq /\ batch_ok B bq) rest).
    { rewrite Forall_forall in Hall. apply Forall_forall. intros q Hq.
      rewrite Hother by (intros ->; contradiction). apply Hall, Hq. }
    destruct (IH w1 Hall1) as (w' & Hrun & Hsp & Hheap).
    exists w'. split.
    { cbn [render_batches map].
      rewrite (bind_Returns _ _ _ _ _ (render_run B p b w Hcap Hok Hb)).
      fold w1. rewrite (bind_Returns _ _ _ _ _ Hrun).
      unfold mret, M_ret. f_equal. f_equal.
      - unfold draw_of, batch_at. rewrite Hb. cbn [default].
        rewrite (Z.mul_comm 6). reflexivity.
      - apply List.map_ext_in. intros q Hq. apply list_elem_of_In in Hq.
        unfold batch_at. rewrite Hother by (intros ->; contradiction). reflexivity. }
    split; [exact Hsp|].
    intros q. rewrite Hheap. unfold rendered. destruct (decide (q = p)) as [->|Hne].
    + cbn [w1 heap]. rewrite (heap_lookup_insert _ _ _ _ Hb), Hb. cbn [fmap option_fmap option_map].
      rewrite (bool_decide_eq_false_2 (p ∈ rest)) by exact Hp.
      rewrite (bool_decide_eq_true_2 (p ∈ p :: rest)) by apply list_elem_of_here.
      reflexivity.
    + rewrite (Hother q Hne). destruct (heap w !! q) as [bq|]; [|reflexivity].
      cbn [fmap option_fmap option_map]. f_equal.
      destruct (decide (q ∈ rest)) as [Hin|Hnin].
      * rewrite (bool_decide_eq_true_2 (q ∈ rest)) by exact Hin.
        rewrite (bool_decide_eq_true_2 (q ∈ p :: rest)) by (apply list_elem_of_further, Hin).
        reflexivity.
      * rewrite (bool_decide_eq_false_2 (q ∈ rest)) by exact Hnin.
        rewrite (bool_decide_eq_false_2 (q ∈ p :: rest)); [reflexivity|].
        intros Hin. apply elem_of_cons in Hin as [Heq | Hin]; contradiction.
Qed.

Lemma rendered_idem (bs : list BatchPtr) (p : BatchPtr) (b : SpriteBatch.t) :
  rendered bs p (rendered bs p b) = rendered bs p b.
Proof.
  unfold rendered. destruct (bool_decide (p ∈ bs)) eqn:E; rewrite ?E; reflexivity.
Qed.

(** X14. [Renderer2D::render] on a well-formed router with distinct
    batches issues one draw call per batch, in creation order, each
    uploading the batch's storage exactly if the batch was marked and asking
    for six vertices per sprite; afterwards every batch of the router is
    unmarked and nothing else has changed, so that rendering the next frame
    with no change in between uploads nothing and asks for the same vertex
    counts. *)
Theorem X14_frame_render (B : Z) (r : Renderer2D.t) (w : World) :
  capacity_ok B -> router_ok B r w -> NoDup (Renderer2D.batches r) ->
  exists w',
    Renderer2D_render B r w =
      Returns (map (fun p => draw_of (batch_at w p)) (Renderer2D.batches r)) w' /\
    sprites w' = sprites w /\
    (forall p : BatchPtr,
       heap w' !! p = rendered (Renderer2D.batches r) p <$> heap w !! p) /\
    Renderer2D_render B r w' =
      Returns (map (fun p => mkDraw None (6 * SpriteBatch.spriteCount (batch_at w p)))
                   (Renderer2D.batches r)) w'.
Proof.
  intros Hcap Hok Hnd.
  destruct (render_batches_steps B _ Hcap Hnd w Hok) as (w' & Hrun & Hsp & Hheap).
  exists w'. split; [exact Hrun|]. split; [exact Hsp|]. split; [exact Hheap|].
  assert (Hok' : router_ok B r w').
  { unfold router_ok in *. rewrite Forall_forall in Hok. apply Forall_forall.
    intros p Hp. destruct (Hok p Hp) as (b & Hb & Hbok).
    exists (rendered (Renderer2D.batches r) p b).
    split; [rewrite Hheap, Hb; reflexivity|].
    unfold rendered. destruct (bool_decide (p ∈ Renderer2D.batches r)); exact Hbok. }
  destruct (render_batches_steps B _ Hcap Hnd w' Hok') as (w'' & Hrun' & Hsp' & Hheap').
  assert (Hsame : w'' = w').
  { destruct w'' as [S2 h2], w' as [S1 h1]. cbn [sprites heap] in *. f_equal; [exact Hsp'|].
    apply list_eq. intros p.
    transitivity (rendered (Renderer2D.batches r) p <$> h1 !! p); [exact (Hheap' p)|].
    transitivity (rendered (Renderer2D.batches r) p <$>
                  (rendered (Renderer2D.batches r) p <$> heap w !! p));
      [f_equal; exact (Hheap p)|].
    transitivity (rendered (Renderer2D.batches r) p <$> heap w !! p);
      [| symmetry; exact (Hheap p)].
    destruct (heap w !! p) as [b|]; [|reflexivity].
    cbn [fmap option_fmap option_map]. f_equal. apply rendered_idem. }
  rewrite Hsame in Hrun'. unfold Renderer2D_render. rewrite Hrun'. f_equal.
  apply List.map_ext_in. intros p Hp. apply list_elem_of_In in Hp.
  unfold router_ok in Hok. rewrite Forall_forall in Hok.
  destruct (Hok p Hp) as (b & Hb & _).
  unfold draw_of, batch_at. rewrite Hheap, Hb. cbn [fmap option_fmap option_map default].
  unfold rendered. rewrite (bool_decide_eq_true_2 _ Hp). reflexivity.
Qed.

Lemma X14_frame_render_witness :
  exists w',
    Renderer2D_render 2 (Renderer2D.mk [0%nat]) world2 =
      Returns (map (fun p => draw_of (batch_at world2 p)) [0%nat]) w' /\
    sprites w' = sprites world2 /\
    (forall p : BatchPtr, heap w' !! p = rendered [0%nat] p <$> heap world2 !! p) /\
    Renderer2D_render 2 (Renderer2D.mk [0%nat]) w' =
      Returns (map (fun p => mkDraw None (6 * SpriteBatch.spriteCount (batch_at world2 p)))
                   [0%nat]) w'.
Proof.
  apply (X14_frame_render 2 (Renderer2D.mk [0%nat]) world2).
  - split; reflexivity.
  - apply Forall_singleton. exists (batch_at world2 0%nat).
    split; [vm_compute; reflexivity|].
    split; [split; vm_compute; discriminate | vm_compute; reflexivity].
  - apply NoDup_singleton.
Defined.

(** ** Text layout, again *)

Lemma string_length_append (s1 s2 : string) :
  String.length (s1 ++ s2) = (String.length s1 + String.length s2)%nat.
Proof. induction s1 as [| c s1 IH]; simpl; [reflexivity | f_equal; exact IH]. Qed.

Lemma list_ascii_append (s1 s2 : string) :
  list_ascii_of_string (s1 ++ s2) = list_ascii_of_string s1 ++ list_ascii_of_string s2.
Proof. induction s1 as [| c s1 IH]; simpl; [reflexivity | f_equal; exact IH]. Qed.

Section TextFacts2.

Variable stbtt_packedchar : Type.
Variable packedCharsBuffer : list stbtt_packedchar.
Variable stbtt_GetPackedQuad : stbtt_packedchar -> stbtt_aligned_quad.t.
Variable stbtt_GetGlyphBitmapBox : Z -> f32 -> f32 -> option (Z * Z * Z * Z).
Variable getGlyphKern : ascii -> ascii -> Z.
Variable scale : f32.
Variable font_texture : TexturePtr.

Local Abbreviation glyphQuad := (getGlyphQuad packedCharsBuffer stbtt_GetPackedQuad).
Local Abbreviation body :=
  (createSprites_body packedCharsBuffer stbtt_GetPackedQuad stbtt_GetGlyphBitmapBox
     getGlyphKern scale font_texture).
Local Abbreviation upto :=
  (createSprites_upto packedCharsBuffer stbtt_GetPackedQuad stbtt_GetGlyphBitmapBox
     getGlyphKern scale font_texture).
Local Abbreviation createSprites :=
  (Text_createSprites packedCharsBuffer stbtt_GetPackedQuad stbtt_GetGlyphBitmapBox
     getGlyphKern scale font_texture).
Local Abbreviation the_font_ok :=
  (font_ok packedCharsBuffer stbtt_GetGlyphBitmapBox scale).

(** Every branch of an iteration, one after the other. *)
Ltac body_cases c :=
  unfold createSprites_body, getGlyphTexCoords;
  cbn [with_sprites with_str Text.str Text.size Text.pos Text.spacing xPos out];
  try match goal with
      | |- context [String.get ?i ?s] => destruct (String.get i s) as [c|]
      end;
  [ destruct (glyphQuad c); cbn [mbind option_bind];
    [ destruct (stbtt_GetGlyphBitmapBox (int_of_char c) scale scale);
      cbn [mbind option_bind];
      [ destruct (glyphQuad "A"); cbn [mbind option_bind];
        [ destruct (int_of_char c =? int_of_char " ");
          [ destruct (glyphQuad "-"); cbn [mbind option_bind]
          | destruct ((int_of_char " " <=? int_of_char c)
                      && (int_of_char c <=? int_of_char "~")) ]
        | ]
      | ]
    | ]
  | ].

(** An iteration only pushes at the back, and never looks at the sprites
    pushed before. *)
Lemma body_after_prefix (this : Text.t) (sprites0 : list Sprite.t) (i : nat)
    (x : f32) (pre o : list Sprite.t) :
  body (with_sprites sprites0 this) i (mkPen x (pre ++ o)) =
  (fun st' => mkPen (xPos st') (pre ++ out st')) <$> body this i (mkPen x o).
Proof.
  body_cases c; try reflexivity.
  cbn [fmap option_fmap option_map xPos out]. rewrite app_assoc. reflexivity.
Qed.

Lemma upto_after_prefix (this : Text.t) (n : nat) :
  upto this n =
  (fun st' => mkPen (xPos st') (Text.sprites this ++ out st'))
    <$> upto (with_sprites [] this) n.
Proof.
  induction n as [| n IH].
  - cbn. rewrite app_nil_r. reflexivity.
  - rewrite !createSprites_upto_S, IH.
    destruct (upto (with_sprites [] this) n) as [[x o]|]; [|reflexivity].
    cbn [fmap option_fmap option_map mbind option_bind xPos out].
    pose proof (body_after_prefix (with_sprites [] this) (Text.sprites this) n
                  x (Text.sprites this) o) as H.
    replace (with_sprites (Text.sprites this) (with_sprites [] this)) with this in H
      by (destruct this; reflexivity).
    exact H.
Qed.

Lemma body_fresh (this : Text.t) (i : nat) (st st' : pen) :
  body this i st = Some st' ->
  Forall (fresh_glyph font_texture) (out st) ->
  Forall (fresh_glyph font_texture) (out st').
Proof.
  intros Hrun Hst. revert Hrun.
  body_cases c; intros Hrun; try discriminate; injection Hrun as <-;
    try exact Hst.
  cbn [out]. apply Forall_app_2; [exact Hst|]. apply Forall_singleton.
  repeat split.
Qed.

Lemma upto_fresh (this : Text.t) (n : nat) (st : pen) :
  upto (with_sprites [] this) n = Some st ->
  Forall (fresh_glyph font_texture) (out st).
Proof.
  revert st. induction n as [| n IH]; intros st.
  - cbn. intros H. injection H as <-. apply Forall_nil_2.
  - rewrite createSprites_upto_S.
    destruct (upto (with_sprites [] this) n) as [st0|]; [|discriminate].
    cbn [mbind option_bind]. intros Hrun.
    exact (body_fresh _ n st0 st Hrun (IH st0 eq_refl)).
Qed.

(** With the table of [Font::createFromTTF], the iterations on the
    characters of the table are defined. *)
Lemma body_defined (this : Text.t) (i : nat) (st : pen) :
  the_font_ok ->
  (forall c, String.get i (Text.str this) = Some c -> in_table c = true) ->
  is_Some (body this i st).
Proof.
  intros [Hlen Hbox] Hin. unfold createSprites_body, getGlyphTexCoords.
  destruct (String.get i (Text.str this)) as [c|]; [|eexists; reflexivity].
  specialize (Hin c eq_refl).
  destruct (getGlyphQuad_in_table _ packedCharsBuffer stbtt_GetPackedQuad c Hlen Hin)
    as [quad Hquad].
  destruct (getGlyphQuad_in_table _ packedCharsBuffer stbtt_GetPackedQuad "A" Hlen eq_refl)
    as [a Ha].
  destruct (getGlyphQuad_in_table _ packedCharsBuffer stbtt_GetPackedQuad "-" Hlen eq_refl)
    as [lineQuad Hline].
  destruct (Hbox c Hin) as [metrics Hmetrics].
  rewrite Hquad. cbn [mbind option_bind]. rewrite Hmetrics. cbn [mbind option_bind].
  rewrite Ha. cbn [mbind option_bind].
  destruct (int_of_char c =? int_of_char " ").
  - rewrite Hline. eexists. reflexivity.
  - destruct ((int_of_char " " <=? int_of_char c) && (int_of_char c <=? int_of_char "~"));
      eexists; reflexivity.
Qed.

Lemma upto_defined (this : Text.t) (n : nat) :
  the_font_ok ->
  Forall (fun c => in_table c = true) (list_ascii_of_string (Text.str this)) ->
  is_Some (upto this n).
Proof.
  intros Hfont Hchars. induction n as [| n [st IH]].
  - eexists. reflexivity.
  - rewrite createSprites_upto_S, IH. cbn [mbind option_bind].
    apply body_defined; [exact Hfont|].
    intros c Hc. rewrite get_list_ascii in Hc.
    rewrite Forall_forall in Hchars. apply Hchars.
    apply list_elem_of_lookup. exists n. exact Hc.
Qed.

Lemma with_sprites_twice (l1 l2 : list Sprite.t) (this : Text.t) :
  with_sprites l1 (with_sprites l2 this) = with_sprites l1 this.
Proof. reflexivity. Qed.

(** X15. [Text::createSprites] appends.  With the packed table that
    [Font::createFromTTF] allocates and a string of characters of the table
    ([' ' .. '}']), the call returns; the sprites already in the vector stay
    in front, unchanged, and what is pushed behind them does not depend on
    them, so a second call without [clear ()] pushes the same glyphs once
    more; every pushed sprite is detached, visible, opaque white and on the
    font's texture; and for the empty string nothing is pushed. *)
Theorem X15_createSprites_appends (this : Text.t) :
  the_font_ok ->
  Forall (fun c => in_table c = true) (list_ascii_of_string (Text.str this)) ->
  exists glyphs : list Sprite.t,
    createSprites (with_sprites [] this) = Some (with_sprites glyphs this) /\
    createSprites this = Some (with_sprites (Text.sprites this ++ glyphs) this) /\
    createSprites (with_sprites (Text.sprites this ++ glyphs) this) =
      Some (with_sprites ((Text.sprites this ++ glyphs) ++ glyphs) this) /\
    Forall (fresh_glyph font_texture) glyphs /\
    (Text.str this = EmptyString -> glyphs = []).
Proof.
  intros Hfont Hchars.
  destruct (upto_defined (with_sprites [] this) (String.length (Text.str this)) Hfont Hchars)
    as [[x glyphs] Hrun].
  assert (Happ : forall l : list Sprite.t,
            createSprites (with_sprites l this) = Some (with_sprites (l ++ glyphs) this)).
  { intros l. unfold Text_createSprites.
    rewrite (upto_after_prefix (with_sprites l this)).
    cbn [with_sprites Text.str Text.sprites Text.pos Text.size Text.spacing].
    rewrite with_sprites_twice. cbn [with_sprites Text.str] in Hrun |- *.
    rewrite Hrun. reflexivity. }
  exists glyphs. split; [exact (Happ [])|].
  split; [rewrite <- (Happ (Text.sprites this)); f_equal; destruct this; reflexivity|].
  split; [exact (Happ _)|].
  split; [exact (upto_fresh this _ _ Hrun)|].
  intros Hempty. cbn [with_sprites Text.str] in Hrun. rewrite Hempty in Hrun.
  cbn in Hrun. injection Hrun as _ <-. reflexivity.
Qed.

Lemma body_grows (this : Text.t) (i : nat) (st st' : pen) :
  body this i st = Some st' -> exists more, out st' = out st ++ more.
Proof.
  body_cases c; intros Hrun; try discriminate; injection Hrun as <-;
    try (exists []; rewrite app_nil_r; reflexivity).
  eexists. reflexivity.
Qed.

Lemma upto_grows (this : Text.t) (n k : nat) (st st' : pen) :
  upto this n = Some st -> upto this (n + k) = Some st' ->
  exists more, out st' = out st ++ more.
Proof.
  intros Hn. revert st'. induction k as [| k IH]; intros st'.
  - rewrite Nat.add_0_r, Hn. intros H. injection H as <-.
    exists []. rewrite app_nil_r. reflexivity.
  - rewrite Nat.add_succ_r, createSprites_upto_S.
    destruct (upto this (n + k)) as [st1|]; [|discriminate].
    cbn [mbind option_bind]. intros Hrun.
    destruct (IH st1 eq_refl) as (more & Hmore).
    destruct (body_grows this (n + k) st1 st' Hrun) as (more' & H).
    exists (more ++ more'). rewrite H, Hmore, app_assoc. reflexivity.
Qed.

(** The sprites of an iteration depend on the string only through the
    character at its index; the pen also through the next character. *)
Lemma body_out_same_char (this : Text.t) (str' : string) (i : nat) (st : pen) :
  String.get i str' = String.get i (Text.str this) ->
  out <$> body (with_str str' this) i st = out <$> body this i st.
Proof.
  intros Hc. unfold createSprites_body.
  cbn [with_str Text.str Text.size Text.pos Text.spacing]. rewrite Hc.
  body_cases c; reflexivity.
Qed.

Lemma body_same_chars (this : Text.t) (str' : string) (i : nat) (st : pen) :
  String.get i str' = String.get i (Text.str this) ->
  String.get (S i) str' = String.get (S i) (Text.str this) ->
  body (with_str str' this) i st = body this i st.
Proof.
  intros Hc Hn. unfold createSprites_body, kern_at.
  cbn [with_str Text.str Text.size Text.pos Text.spacing]. rewrite Hc, Hn. reflexivity.
Qed.

Lemma upto_extended (this : Text.t) (suffix : string) (n : nat) :
  (n <= String.length (Text.str this))%nat ->
  out <$> upto (with_str (Text.str this ++ suffix) this) n = out <$> upto this n /\
  ((n < String.length (Text.str this))%nat ->
   upto (with_str (Text.str this ++ suffix) this) n = upto this n).
Proof.
  induction n as [| n IH]; intros Hn.
  - split; reflexivity.
  - destruct IH as [_ IH]; [lia|]. specialize (IH ltac:(lia)).
    rewrite !createSprites_upto_S, IH.
    assert (Hc : String.get n (Text.str this ++ suffix) = String.get n (Text.str this))
      by (symmetry; apply append_correct1; lia).
    destruct (upto this n) as [st|]; [|split; reflexivity].
    cbn [mbind option_bind]. split.
    + apply body_out_same_char, Hc.
    + intros Hlt. apply body_same_chars; [exact Hc|].
      symmetry. apply append_correct1. lia.
Qed.

(** X16. The layout is stable under appending.  With the packed table
    that [Font::createFromTTF] allocates and characters of the table
    ([' ' .. '}']), [Text::createSprites] returns for a string and for the
    string with more text behind it, and the sprites of the first call are
    exactly the first sprites of the second. *)
Theorem X16_layout_prefix_stable (this : Text.t) (suffix : string) :
  the_font_ok ->
  Forall (fun c => in_table c = true)
         (list_ascii_of_string (Text.str this ++ suffix)) ->
  exists (glyphs more : list Sprite.t),
    createSprites this = Some (with_sprites glyphs this) /\
    createSprites (with_str (Text.str this ++ suffix) this) =
      Some (with_sprites (glyphs ++ more) (with_str (Text.str this ++ suffix) this)).
Proof.
  intros Hfont Hchars.
  set (long := with_str (Text.str this ++ suffix) this).
  assert (Hshort : Forall (fun c => in_table c = true)
                     (list_ascii_of_string (Text.str this))).
  { rewrite list_ascii_append in Hchars. apply Forall_app in Hchars. apply Hchars. }
  destruct (upto_defined this (String.length (Text.str this)) Hfont Hshort) as [st Hst].
  destruct (upto_defined long (String.length (Text.str this)) Hfont Hchars) as [st1 Hst1].
  destruct (upto_defined long (String.length (Text.str this) + String.length suffix)
              Hfont Hchars) as [st2 Hst2].
  destruct (upto_grows long _ _ st1 st2 Hst1 Hst2) as (more & Hmore).
  destruct (upto_extended this suffix (String.length (Text.str this))) as [Hout _]; [lia|].
  fold long in Hout. rewrite Hst1, Hst in Hout. cbn in Hout. injection Hout as Hout.
  exists (out st), more. unfold Text_createSprites.
  rewrite Hst. cbn [mbind option_bind]. split; [reflexivity|].
  cbn [long with_str Text.str]. rewrite string_length_append.
  fold long. rewrite Hst2. cbn [mbind option_bind]. rewrite Hmore, Hout. reflexivity.
Qed.

End TextFacts2.

Lemma X15_createSprites_appends_witness :
  exists glyphs : list Sprite.t,
    Text_createSprites scenario_packed scenario_GetPackedQuad scenario_box scenario_kern
      (f32_of_Z 1) T (with_sprites [] scenario_label)
      = Some (with_sprites glyphs scenario_label) /\
    Text_createSprites scenario_packed scenario_GetPackedQuad scenario_box scenario_kern
      (f32_of_Z 1) T scenario_label
      = Some (with_sprites (Text.sprites scenario_label ++ glyphs) scenario_label) /\
    Text_createSprites scenario_packed scenario_GetPackedQuad scenario_box scenario_kern
      (f32_of_Z 1) T (with_sprites (Text.sprites scenario_label ++ glyphs) scenario_label)
      = Some (with_sprites ((Text.sprites scenario_label ++ glyphs) ++ glyphs)
                scenario_label) /\
    Forall (fresh_glyph T) glyphs /\
    (Text.str scenario_label = EmptyString -> glyphs = []).
Proof.
  apply (X15_createSprites_appends Z scenario_packed scenario_GetPackedQuad scenario_box
           scenario_kern (f32_of_Z 1) T scenario_label scenario_font_ok).
  repeat constructor.
Defined.

Lemma X16_layout_prefix_stable_witness :
  exists (glyphs more : list Sprite.t),
    Text_createSprites scenario_packed scenario_GetPackedQuad scenario_box scenario_kern
      (f32_of_Z 1) T scenario_label
      = Some (with_sprites glyphs scenario_label) /\
    Text_createSprites scenario_packed scenario_GetPackedQuad scenario_box scenario_kern
      (f32_of_Z 1) T (with_str (Text.str scenario_label ++ "CD") scenario_label)
      = Some (with_sprites (glyphs ++ more)
                (with_str (Text.str scenario_label ++ "CD") scenario_label)).
Proof.
  apply (X16_layout_prefix_stable Z scenario_packed scenario_GetPackedQuad scenario_box
           scenario_kern (f32_of_Z 1) T scenario_label "CD" scenario_font_ok).
  repeat constructor.
Defined.

(** ** The font atlas *)

Lemma store_u8_in_range (buf : list Z) (j : nat) (i v : Z) :
  i = Z.of_nat j -> (j < length buf)%nat ->
  store_u8 buf i v = Some (<[j := v]> buf).
Proof.
  intros -> Hj. unfold store_u8.
  replace (0 <=? Z.of_nat j) with true by (symmetry; apply Z.leb_le; lia).
  replace (Z.of_nat j <? Z.of_nat (length buf)) with true
    by (symmetry; apply Z.ltb_lt; lia).
  cbn [andb]. rewrite Nat2Z.id. reflexivity.
Qed.

Lemma flat_map_pixel_length (l : list Z) :
  length (List.flat_map rgba_pixel l) = (4 * length l)%nat.
Proof. induction l as [| m l IH]; cbn [List.flat_map length app rgba_pixel]; lia. Qed.

Ltac u8_side :=
  first [ lia | rewrite length_app, ?length_insert; cbn [length]; lia ].

(** One iteration fills the next four bytes. *)
Lemma rgba_body_run (mono done rest : list Z) (k : nat) (m d0 d1 d2 d3 : Z) :
  mono !! k = Some m -> length done = (4 * k)%nat ->
  Z.of_nat k * 4 + 3 < 2 ^ 31 ->
  rgba_body mono (Z.of_nat k) (done ++ d0 :: d1 :: d2 :: d3 :: rest) =
  Some ((done ++ rgba_pixel m) ++ rest).
Proof.
  intros Hm Hlen Hi. unfold rgba_body, in_i32.
  replace (- 2 ^ 31 <=? Z.of_nat k * 4 + 3) with true by (symmetry; apply Z.leb_le; lia).
  replace (Z.of_nat k * 4 + 3 <? 2 ^ 31) with true by (symmetry; apply Z.ltb_lt; lia).
  cbn [andb]. unfold load_u8.
  replace (0 <=? Z.of_nat k) with true by (symmetry; apply Z.leb_le; lia).
  rewrite Nat2Z.id, Hm. cbn [mbind option_bind].
  assert (Hins : forall (j : nat) (v : Z) (l : list Z),
            <[(length done + j)%nat := v]> (done ++ l) = done ++ <[j := v]> l)
    by (intros; apply insert_app_r).
  rewrite (store_u8_in_range _ (length done + 0)) by u8_side.
  rewrite Hins. cbn [mbind option_bind].
  rewrite (store_u8_in_range _ (length done + 1)) by u8_side.
  rewrite Hins. cbn [mbind option_bind].
  rewrite (store_u8_in_range _ (length done + 2)) by u8_side.
  rewrite Hins. cbn [mbind option_bind].
  unfold rgba_pixel. destruct (m >? 1).
  - rewrite (store_u8_in_range _ (length done + 3)) by u8_side.
    rewrite Hins. cbn. rewrite <- app_assoc. reflexivity.
  - rewrite (store_u8_in_range _ (length done + 3)) by u8_side.
    rewrite Hins. cbn. rewrite <- app_assoc. reflexivity.
Qed.

Lemma rgba_loop_upto (mono rgba0 : list Z) (k : nat) :
  length rgba0 = (4 * length mono)%nat ->
  Z.of_nat (length mono) * 4 <= 2 ^ 31 ->
  (k <= length mono)%nat ->
  rgba_loop mono k rgba0 =
  Some (List.flat_map rgba_pixel (take k mono) ++ drop (4 * k) rgba0).
Proof.
  intros Hlen Hmax. induction k as [| k IH]; intros Hk.
  - cbn. rewrite drop_0. reflexivity.
  - unfold rgba_loop in *. rewrite seq_S, foldl_snoc. cbn [Nat.add]. rewrite IH by lia.
    cbn [mbind option_bind].
    destruct (mono !! k) as [m|] eqn:Hm;
      [| apply lookup_ge_None in Hm; lia].
    destruct (drop (4 * k) rgba0) as [| d0 [| d1 [| d2 [| d3 rest]]]] eqn:Hdrop;
      try (apply (f_equal length) in Hdrop; rewrite length_drop in Hdrop;
           cbn [length] in Hdrop; lia).
    rewrite (rgba_body_run mono _ rest k m d0 d1 d2 d3 Hm);
      [| rewrite flat_map_pixel_length, length_take; lia | lia].
    f_equal. rewrite (take_S_r _ _ _ Hm), List.flat_map_app. cbn [List.flat_map].
    rewrite app_nil_r. f_equal.
    replace (4 * S k)%nat with (4 * k + 4)%nat by lia.
    rewrite <- drop_drop, Hdrop. reflexivity.
Qed.

(** X17. The conversion loop of [Font::createFromTTF] initialises every
    byte of the RGBA buffer, whatever the buffer held before: pixel [i]
    becomes [(m, m, m, a)] for the coverage byte [m] of pixel [i], with
    [a = 255] when [m > 1] and [a = 0] otherwise (coverage 1 is fully
    transparent, like coverage 0), and all its accesses stay in bounds. *)
Theorem X17_font_rgba_expansion (mono rgba0 : list Z) :
  length rgba0 = (4 * length mono)%nat ->
  Z.of_nat (length mono) * 4 <= 2 ^ 31 ->
  rgba_loop mono (length mono) rgba0 = Some (List.flat_map rgba_pixel mono).
Proof.
  intros Hlen Hmax. rewrite (rgba_loop_upto mono rgba0 _ Hlen Hmax) by lia.
  rewrite take_ge by lia. rewrite drop_ge by lia. rewrite app_nil_r. reflexivity.
Qed.

Lemma X17_font_rgba_expansion_witness :
  rgba_loop [0; 1; 2; 255] (length [0; 1; 2; 255])
            [7; 7; 7; 7; 7; 7; 7; 7; 7; 7; 7; 7; 7; 7; 7; 7]
  = Some (List.flat_map rgba_pixel [0; 1; 2; 255]).
Proof.
  apply (X17_font_rgba_expansion [0; 1; 2; 255]
           [7; 7; 7; 7; 7; 7; 7; 7; 7; 7; 7; 7; 7; 7; 7; 7]).
  - reflexivity.
  - discriminate.
Defined.

(** ** Packing of one texture *)

Lemma find_all_false {A} (f : A -> bool) (l : list A) :
  (forall x, x ∈ l -> f x = false) -> List.find f l = None.
Proof.
  induction l as [| x l IH]; intros H; [reflexivity|].
  cbn [List.find]. rewrite (H x (list_elem_of_here _ _)).
  apply IH. intros y Hy. apply H, list_elem_of_further, Hy.
Qed.

Lemma find_last {A} (f : A -> bool) (pre : list A) (x : A) :
  (forall y, y ∈ pre -> f y = false) -> f x = true ->
  List.find f (pre ++ [x]) = Some x.
Proof.
  induction pre as [| y pre IH]; intros H Hx.
  - cbn. rewrite Hx. reflexivity.
  - cbn [app List.find]. rewrite (H y (list_elem_of_here _ _)).
    apply IH; [| exact Hx]. intros z Hz. apply H, list_elem_of_further, Hz.
Qed.

(** The batches summarised as full do not fit. *)
Lemma full_batches_do_not_fit (B : Z) (w : World) (T0 tex : TexturePtr)
    (pre : list BatchPtr) (m : nat) :
  map (fun p => (SpriteBatch.texture (batch_at w p), SpriteBatch.spriteCount (batch_at w p))) pre
    = map (fun c => (T0, c)) (replicate m B) ->
  forall p, p ∈ pre -> fits B w tex p = false.
Proof.
  intros Hsum p Hp.
  assert (Hc : SpriteBatch.spriteCount (batch_at w p) = B).
  { assert (Hin : (SpriteBatch.texture (batch_at w p), SpriteBatch.spriteCount (batch_at w p))
                  ∈ map (fun c => (T0, c)) (replicate m B)).
    { rewrite <- Hsum. apply list_elem_of_In.
      apply (List.in_map (fun q => (SpriteBatch.texture (batch_at w q),
                                    SpriteBatch.spriteCount (batch_at w q))) pre p).
      apply list_elem_of_In, Hp. }
    apply list_elem_of_In, List.in_map_iff in Hin as (c & Heq & Hc).
    apply list_elem_of_In, elem_of_replicate in Hc as [-> _]. congruence. }
  unfold fits. unfold batch_at in Hc. destruct (heap w !! p) as [b|]; [|reflexivity].
  cbn in Hc. rewrite Hc, Z.ltb_irrefl. apply andb_false_r.
Qed.

Lemma summary_unchanged_insert (S0 S1 : gmap SpritePtr Sprite.t) (h : list SpriteBatch.t)
    (p : BatchPtr) (b' : SpriteBatch.t) (bs : list BatchPtr) :
  p ∉ bs ->
  map (fun q => (SpriteBatch.texture (batch_at (mkWorld S1 (<[p := b']> h)) q),
                 SpriteBatch.spriteCount (batch_at (mkWorld S1 (<[p := b']> h)) q))) bs =
  map (fun q => (SpriteBatch.texture (batch_at (mkWorld S0 h) q),
                 SpriteBatch.spriteCount (batch_at (mkWorld S0 h) q))) bs.
Proof.
  intros Hp. apply List.map_ext_in. intros q Hq. apply list_elem_of_In in Hq.
  rewrite (batch_at_insert_ne S0 S1 h p q b') by (intros ->; contradiction). reflexivity.
Qed.

Lemma summary_unchanged_app (S0 S1 : gmap SpritePtr Sprite.t) (h t : list SpriteBatch.t)
    (bs : list BatchPtr) :
  Forall (fun q => (q < length h)%nat) bs ->
  map (fun q => (SpriteBatch.texture (batch_at (mkWorld S1 (h ++ t)) q),
                 SpriteBatch.spriteCount (batch_at (mkWorld S1 (h ++ t)) q))) bs =
  map (fun q => (SpriteBatch.texture (batch_at (mkWorld S0 h) q),
                 SpriteBatch.spriteCount (batch_at (mkWorld S0 h) q))) bs.
Proof.
  intros Hall. apply List.map_ext_in. intros q Hq. apply list_elem_of_In in Hq.
  rewrite Forall_forall in Hall.
  rewrite (batch_at_app S0 S1 h t q (Hall q Hq)). reflexivity.
Qed.

(** The packing after one more sprite. *)
Lemma packing_next (B : Z) (tex : TexturePtr) (m : nat) (c : Z) :
  0 <= c < B ->
  map (fun x => (tex, x)) (replicate m B ++ [c + 1]) =
  if c + 1 =? B then packing B tex (S m) 0 else packing B tex m (c + 1).
Proof.
  intros Hc. unfold packing. destruct (c + 1 =? B) eqn:E.
  - apply Z.eqb_eq in E. rewrite E. cbn [Z.eqb]. rewrite app_nil_r.
    rewrite replicate_S_end. reflexivity.
  - replace (c + 1 =? 0) with false by (symmetry; apply Z.eqb_neq; lia). reflexivity.
Qed.

(** One sprite of the texture added to a packed router. *)
Lemma packed_step (B : Z) (junk : nat -> f32) (tex : TexturePtr) (r : Renderer2D.t)
    (sprite : SpritePtr) (s : Sprite.t) (w : World) (m : nat) (c : Z) :
  capacity_ok B -> packed B tex r w m c ->
  sprites w !! sprite = Some s -> Sprite.texture s = tex ->
  exists r' w' m' c',
    Renderer2D_addSprite B junk r sprite w = Returns r' w' /\
    packed B tex r' w' m' c' /\
    Z.of_nat m' * B + c' = Z.of_nat m * B + c + 1 /\
    (forall q : SpritePtr, q <> sprite -> sprites w' !! q = sprites w !! q).
Proof.
  intros Hcap (Hok & Hnd & Hc & Hsum) Hs Htex.
  pose proof (router_ok_allocated B r w Hok) as Halloc.
  destruct w as [S0 h]. cbn [sprites heap] in *.
  unfold router_summary, packing in Hsum.
  destruct (c =? 0) eqn:Hc0.
  - (* every batch is full: a batch is created *)
    apply Z.eqb_eq in Hc0. subst c. rewrite app_nil_r in Hsum.
    set (fresh := SpriteBatch_new B junk (Sprite.texture s)).
    assert (Hff : first_fit B (mkWorld S0 h) (Sprite.texture s) (Renderer2D.batches r) = None)
      by (apply find_all_false;
          apply (full_batches_do_not_fit B _ tex _ _ m Hsum)).
    assert (Hib : batch_ok B (inserted_batch fresh s))
      by (apply inserted_batch_ok; [apply SpriteBatch_new_ok, Hcap | destruct Hcap; cbn; lia]).
    exists (Renderer2D.mk (Renderer2D.batches r ++ [length h])),
      (mkWorld (<[sprite := inserted_sprite (length h) fresh s]> S0)
               (h ++ [inserted_batch fresh s])),
      (if 0 + 1 =? B then S m else m), (if 0 + 1 =? B then 0 else 0 + 1).
    split; [apply (add_creates B junk r sprite s S0 h); assumption|].
    split.
    { split; [apply (router_ok_alloc B r (mkWorld S0 h)); assumption|].
      split.
      { cbn [Renderer2D.batches]. apply NoDup_app. split; [exact Hnd|].
        split; [| apply NoDup_singleton].
        intros q Hq Hq'. apply list_elem_of_singleton in Hq'. subst q.
        rewrite Forall_forall in Halloc. specialize (Halloc _ Hq). lia. }
      split; [destruct (0 + 1 =? B) eqn:E; [lia | apply Z.eqb_neq in E; lia]|].
      unfold router_summary. cbn [Renderer2D.batches]. rewrite map_app.
      rewrite (summary_unchanged_app S0 _ h _ _ Halloc), Hsum. cbn [map].
      assert (H1 : batch_at (mkWorld (<[sprite := inserted_sprite (length h) fresh s]> S0)
                                     (h ++ [inserted_batch fresh s])) (length h)
                   = inserted_batch fresh s)
        by (unfold batch_at; cbn [heap]; rewrite list_lookup_middle by reflexivity;
            reflexivity).
      rewrite H1. cbn [inserted_batch fresh SpriteBatch_new SpriteBatch.texture
                       SpriteBatch.spriteCount]. rewrite Htex.
      pose proof (packing_next B tex m 0 Hc) as Hnext. rewrite map_app in Hnext.
      cbn [map] in Hnext. rewrite Hnext. destruct (0 + 1 =? B); reflexivity. }
    split; [destruct (0 + 1 =? B) eqn:E; [apply Z.eqb_eq in E | ]; lia|].
    intros q Hq. cbn [sprites]. apply lookup_insert_ne. congruence.
  - (* the last batch has space: it takes the sprite *)
    apply Z.eqb_neq in Hc0.
    rewrite map_app in Hsum.
    apply List.map_eq_app in Hsum as (pre & lst & Hbs & Hpre & Hlast).
    cbn [map] in Hlast. destruct lst as [| p [| p' lst]]; try discriminate.
    cbn [map] in Hlast. injection Hlast as Hpt Hpc.
    rewrite Hbs in *. apply NoDup_app in Hnd as (Hndpre & Hdisj & _).
    assert (Hpnot : p ∉ pre)
      by (intros Hin; apply (Hdisj p Hin), list_elem_of_here).
    destruct (proj1 (Forall_forall _ _) Hok p) as (b & Hb & Hbok);
      [rewrite Hbs; apply elem_of_app; right; apply list_elem_of_here|].
    cbn [heap] in Hb.
    assert (Hbat : batch_at (mkWorld S0 h) p = b)
      by (unfold batch_at; cbn [heap]; rewrite Hb; reflexivity).
    rewrite Hbat in Hpt, Hpc.
    assert (Hff : first_fit B (mkWorld S0 h) (Sprite.texture s) (pre ++ [p]) = Some p).
    { apply find_last.
      - apply (full_batches_do_not_fit B _ tex _ _ m). exact Hpre.
      - apply (fits_same B _ _ _ b); [exact Hb | congruence | lia]. }
    exists r, (mkWorld (<[sprite := inserted_sprite p b s]> S0) (<[p := inserted_batch b s]> h)),
      (if c + 1 =? B then S m else m), (if c + 1 =? B then 0 else c + 1).
    split; [apply (add_reuses B junk r sprite s S0 h p b); try assumption;
            rewrite Hbs; exact Hff|].
    split.
    { split; [apply (router_ok_insert B r (mkWorld S0 h)); [exact Hok|];
              apply inserted_batch_ok; [exact Hbok | lia]|].
      split; [rewrite Hbs; apply NoDup_app; split; [exact Hndpre|];
              split; [exact Hdisj | apply NoDup_singleton]|].
      split; [destruct (c + 1 =? B) eqn:E; [lia | apply Z.eqb_neq in E; lia]|].
      unfold router_summary. rewrite Hbs, map_app.
      rewrite (summary_unchanged_insert S0 _ h p _ pre Hpnot), Hpre. cbn [map].
      assert (H1 : batch_at (mkWorld (<[sprite := inserted_sprite p b s]> S0)
                                     (<[p := inserted_batch b s]> h)) p
                   = inserted_batch b s)
        by (unfold batch_at; cbn [heap]; rewrite (heap_lookup_insert h p b _ Hb);
            reflexivity).
      rewrite H1. cbn [inserted_batch SpriteBatch.texture SpriteBatch.spriteCount].
      rewrite Hpt, Hpc.
      pose proof (packing_next B tex m c Hc) as Hnext. rewrite map_app in Hnext.
      cbn [map] in Hnext. rewrite Hnext. destruct (c + 1 =? B); reflexivity. }
    split; [destruct (c + 1 =? B) eqn:E; [apply Z.eqb_eq in E | ]; lia|].
    intros q Hq. cbn [sprites]. apply lookup_insert_ne. congruence.
Qed.

Lemma addText_packed (B : Z) (junk : nat -> f32) (tex : TexturePtr) (ps : list SpritePtr) :
  capacity_ok B -> NoDup ps ->
  forall (r : Renderer2D.t) (w : World) (m : nat) (c : Z),
  packed B tex r w m c ->
  (forall p, p ∈ ps -> exists s, sprites w !! p = Some s /\ Sprite.texture s = tex) ->
  exists r' w' m' c',
    Renderer2D_addText B junk r ps w = Returns r' w' /\
    packed B tex r' w' m' c' /\
    Z.of_nat m' * B + c' = Z.of_nat m * B + c + Z.of_nat (length ps).
Proof.
  intros Hcap Hnd. induction Hnd as [| p rest Hp Hnd IH]; intros r w m c Hpk Hvalid.
  - exists r, w, m, c. split; [reflexivity|]. split; [exact Hpk|]. cbn [length]. lia.
  - destruct (Hvalid p (list_elem_of_here _ _)) as (s & Hs & Htex).
    destruct (packed_step B junk tex r p s w m c Hcap Hpk Hs Htex)
      as (r1 & w1 & m1 & c1 & Hrun1 & Hpk1 & Hsum1 & Hframe1).
    destruct (IH r1 w1 m1 c1 Hpk1) as (r' & w' & m' & c' & Hrun & Hpk' & Hsum').
    { intros q Hq. rewrite Hframe1 by (intros ->; contradiction).
      apply Hvalid, list_elem_of_further, Hq. }
    exists r', w', m', c'.
    split; [cbn [Renderer2D_addText]; rewrite (bind_Returns _ _ _ _ _ Hrun1); exact Hrun|].
    split; [exact Hpk'|]. cbn [length]. lia.
Qed.

(** X18. Sprites of one texture are packed first fit: when
    [Renderer2D::addText] adds [n] distinct sprites of the same texture to a
    router without batches, the router ends with [n / BATCH_SIZE] full
    batches followed, unless [BATCH_SIZE] divides [n], by one batch holding
    the remaining [n mod BATCH_SIZE] sprites, all of that texture. *)
Theorem X18_one_texture_is_packed (B : Z) (junk : nat -> f32) (tex : TexturePtr)
    (ps : list SpritePtr) (w : World) :
  capacity_ok B -> NoDup ps ->
  (forall p, p ∈ ps -> exists s, sprites w !! p = Some s /\ Sprite.texture s = tex) ->
  exists r' w',
    Renderer2D_addText B junk (Renderer2D.mk []) ps w = Returns r' w' /\
    router_summary r' w' =
      packing B tex (Z.to_nat (Z.of_nat (length ps) / B)) (Z.of_nat (length ps) mod B).
Proof.
  intros Hcap Hnd Hvalid.
  assert (Hpk0 : packed B tex (Renderer2D.mk []) w 0 0).
  { split; [apply Forall_nil_2|]. split; [apply NoDup_nil_2|].
    split; [destruct Hcap; lia | reflexivity]. }
  destruct (addText_packed B junk tex ps Hcap Hnd _ w 0%nat 0 Hpk0 Hvalid)
    as (r' & w' & m' & c' & Hrun & (_ & _ & Hc' & Hsum) & Htotal).
  exists r', w'. split; [exact Hrun|]. rewrite Hsum.
  assert (Hn : Z.of_nat (length ps) = B * Z.of_nat m' + c') by lia.
  rewrite <- (Z.div_unique_pos _ _ _ _ Hc' Hn), <- (Z.mod_unique_pos _ _ _ _ Hc' Hn).
  rewrite Nat2Z.id. reflexivity.
Qed.

Lemma scenario_sprites_distinct : NoDup [pA; pB; pC].
Proof. apply (bool_decide_unpack _). vm_compute. exact I. Qed.

Lemma X18_one_texture_is_packed_witness :
  exists r' w',
    Renderer2D_addText 2 scenario_junk (Renderer2D.mk []) [pA; pB; pC]
      (mkWorld (sprites world0) []) = Returns r' w' /\
    router_summary r' w' =
      packing 2 T (Z.to_nat (Z.of_nat (length [pA; pB; pC]) / 2))
              (Z.of_nat (length [pA; pB; pC]) mod 2).
Proof.
  apply (X18_one_texture_is_packed 2 scenario_junk T [pA; pB; pC]
           (mkWorld (sprites world0) [])).
  - split; reflexivity.
  - exact scenario_sprites_distinct.
  - intros p Hp. apply list_elem_of_In in Hp. cbn in Hp.
    destruct Hp as [<- | [<- | [<- | []]]]; eexists; split; reflexivity.
Defined.

(** ** The count and the attached sprites *)

Lemma counted_insert (B : Z) (this : BatchPtr) (sprite : SpritePtr) (s : Sprite.t)
    (w : World) :
  capacity_ok B -> counted B this w ->
  sprites w !! sprite = Some s -> Sprite.batch s = None ->
  exists w', SpriteBatch_addSprite B this sprite w = Returns tt w' /\ counted B this w'.
Proof.
  intros Hcap (b & Hb & Hok & Hcount & Hidx) Hs Hdet.
  destruct (Z.lt_ge_cases (SpriteBatch.spriteCount b) B) as [Hlt | Hge].
  - exists (inserted_world this sprite b s w).
    split; [apply addSprite_run; assumption|].
    exists (inserted_batch b s).
    split; [cbn [inserted_world heap]; eapply heap_lookup_insert, Hb|].
    split; [apply inserted_batch_ok; assumption|].
    split.
    + unfold attached_to. cbn [inserted_world sprites inserted_batch SpriteBatch.spriteCount].
      rewrite map_filter_insert_True by reflexivity.
      rewrite map_size_insert_None.
      * unfold attached_to in Hcount. lia.
      * apply map_lookup_filter_None. right. intros x Hx. cbn [snd].
        assert (x = s) by congruence. subst x. congruence.
    + intros q sq Hq Hatt. cbn [inserted_world sprites] in Hq.
      destruct (decide (sprite = q)) as [<- | Hne].
      * rewrite lookup_insert_eq in Hq. injection Hq as <-.
        cbn [inserted_sprite Sprite.set_batchIndex Sprite.batchIndex]. destruct Hok. lia.
      * rewrite lookup_insert_ne in Hq by exact Hne. apply (Hidx q sq Hq Hatt).
  - exists w. split; [apply (addSprite_full B this sprite b w Hb Hge)|].
    exists b. split; [exact Hb|]. split; [exact Hok|]. split; [exact Hcount | exact Hidx].
Qed.

Lemma counted_remove (B : Z) (this : BatchPtr) (sprite : SpritePtr) (s : Sprite.t)
    (w : World) :
  capacity_ok B -> counted B this w ->
  sprites w !! sprite = Some s -> Sprite.batch s = Some this ->
  exists w' b b',
    Sprite_remove sprite w = Returns tt w' /\ counted B this w' /\
    heap w !! this = Some b /\ heap w' !! this = Some b' /\
    SpriteBatch.spriteCount b' = SpriteBatch.spriteCount b - 1 /\
    sprites w' = <[sprite := Sprite.set_batchIndex 0 (Sprite.set_batch None s)]> (sprites w).
Proof.
  intros Hcap (b & Hb & Hok & Hcount & Hidx) Hs Hatt.
  pose proof (Hidx sprite s Hs Hatt) as Hin.
  destruct (slot_fits B b _ Hcap Hok Hin) as [H6 Hfit].
  assert (Hmem : attached_to this w !! sprite = Some s)
    by (apply map_lookup_filter_Some; split; [exact Hs | exact Hatt]).
  assert (Hpos : size (attached_to this w) <> 0%nat).
  { intros H0. apply map_size_empty_inv in H0. rewrite H0 in Hmem.
    rewrite lookup_empty in Hmem. discriminate. }
  assert (Hlast : 0 <= SpriteBatch.spriteCount b - 1 < B) by (destruct Hok; lia).
  destruct (slot_fits B b _ Hcap Hok Hlast) as [H6' Hfit'].
  destruct (Sprite_remove_run this sprite b s w)
    as (last & d1 & d2 & Hl & H1 & H2 & Hrun); try assumption; try lia.
  eexists. exists b. eexists. split; [exact Hrun|].
  split; [| split; [exact Hb | split; [cbn [heap]; eapply heap_lookup_insert, Hb |
                                       split; reflexivity]]].
  eexists. split; [cbn [heap]; eapply heap_lookup_insert, Hb|].
  split.
  { destruct Hok as [Hcnt Hlen]. split; cbn [SpriteBatch.spriteCount SpriteBatch.data].
    - lia.
    - rewrite (store_floats_length _ _ _ _ H2), (store_floats_length _ _ _ _ H1). exact Hlen. }
  split.
  - unfold attached_to. cbn [sprites SpriteBatch.spriteCount].
    rewrite map_filter_insert_False by (cbn; discriminate).
    rewrite map_filter_delete.
    rewrite map_size_delete_Some by (eexists; exact Hmem).
    unfold attached_to in Hcount, Hpos. lia.
  - intros q sq Hq Hattq. cbn [sprites] in Hq.
    destruct (decide (sprite = q)) as [<- | Hne].
    + rewrite lookup_insert_eq in Hq. injection Hq as <-. discriminate.
    + rewrite lookup_insert_ne in Hq by exact Hne. apply (Hidx q sq Hq Hattq).
Qed.

(** X19. The count is always the number of attached sprites: if the count
    of a well-formed batch equals the number of sprites that point at it
    (each with a slot of the storage as index), this still holds after
    [addSprite] of a detached sprite, whether the batch has space or is full,
    and after [remove ()] of a sprite that is attached to the batch or
    detached; neither call has undefined behaviour.  (The slot contents are
    another matter: see C3.) *)
Theorem X19_count_is_number_attached (B : Z) (this : BatchPtr) (sprite : SpritePtr)
    (s : Sprite.t) (w : World) :
  capacity_ok B -> counted B this w -> sprites w !! sprite = Some s ->
  (Sprite.batch s = None ->
   exists w', SpriteBatch_addSprite B this sprite w = Returns tt w' /\ counted B this w') /\
  (Sprite.batch s = None \/ Sprite.batch s = Some this ->
   exists w', Sprite_remove sprite w = Returns tt w' /\ counted B this w').
Proof.
  intros Hcap Hcounted Hs. split.
  - intros Hdet. apply (counted_insert B this sprite s w); assumption.
  - intros [Hdet | Hatt].
    + exists w. split; [| exact Hcounted]. unfold Sprite_remove.
      rewrite (bind_Returns _ _ _ _ _ (load_sprite_run _ _ _ Hs)). rewrite Hdet.
      reflexivity.
    + destruct (counted_remove B this sprite s w Hcap Hcounted Hs Hatt)
        as (w' & b & b' & Hrun & Hcounted' & _).
      exists w'. split; assumption.
Qed.

Lemma world0_counted : counted 2 0%nat world0.
Proof.
  exists (batch_at world0 0%nat). split; [reflexivity|].
  split; [split; [split; vm_compute; discriminate | vm_compute; reflexivity]|].
  split; [vm_compute; reflexivity|].
  assert (H : map_Forall (fun _ s => Sprite.batch s = Some 0%nat ->
                                     0 <= Sprite.batchIndex s < 2) (sprites world0))
    by (apply (bool_decide_unpack _); vm_compute; exact I).
  intros p s Hs. apply (H p s Hs).
Qed.

Lemma world2_counted : counted 2 0%nat world2.
Proof.
  exists (batch_at world2 0%nat). split; [vm_compute; reflexivity|].
  split; [split; [split; vm_compute; discriminate | vm_compute; reflexivity]|].
  split; [vm_compute; reflexivity|].
  assert (H : map_Forall (fun _ s => Sprite.batch s = Some 0%nat ->
                                     0 <= Sprite.batchIndex s < 2) (sprites world2))
    by (apply (bool_decide_unpack _); vm_compute; exact I).
  intros p s Hs. apply (H p s Hs).
Qed.

Lemma X19_count_is_number_attached_witness :
  (Sprite.batch spriteA = None ->
   exists w', SpriteBatch_addSprite 2 0%nat pA world0 = Returns tt w' /\
              counted 2 0%nat w') /\
  (Sprite.batch spriteA = None \/ Sprite.batch spriteA = Some 0%nat ->
   exists w', Sprite_remove pA world0 = Returns tt w' /\ counted 2 0%nat w').
Proof.
  apply (X19_count_is_number_attached 2 0%nat pA spriteA world0).
  - split; reflexivity.
  - exact world0_counted.
  - reflexivity.
Defined.

Lemma removals_run (B : Z) (this : BatchPtr) (ps : list SpritePtr) :
  capacity_ok B -> NoDup ps ->
  forall w : World,
  counted B this w ->
  (forall p, p ∈ ps -> exists s, sprites w !! p = Some s /\ Sprite.batch s = Some this) ->
  exists w' b b',
    Text_update_removals ps w = Returns tt w' /\ counted B this w' /\
    heap w !! this = Some b /\ heap w' !! this = Some b' /\
    SpriteBatch.spriteCount b' = SpriteBatch.spriteCount b - Z.of_nat (length ps) /\
    (forall p, p ∈ ps ->
       exists s', sprites w' !! p = Some s' /\ Sprite.batch s' = None /\
                  Sprite.batchIndex s' = 0) /\
    (forall q, q ∉ ps -> sprites w' !! q = sprites w !! q).
Proof.
  intros Hcap Hnd. induction Hnd as [| p rest Hp Hnd IH]; intros w Hcounted Hvalid.
  - destruct Hcounted as (b & Hb & Hrest).
    exists w, b, b. split; [reflexivity|]. split; [exists b; split; [exact Hb | exact Hrest]|].
    split; [exact Hb|]. split; [exact Hb|]. split; [cbn [length]; lia|].
    split; [intros q Hq; apply elem_of_nil in Hq; destruct Hq | reflexivity].
  - destruct (Hvalid p (list_elem_of_here _ _)) as (s & Hs & Hatt).
    destruct (counted_remove B this p s w Hcap Hcounted Hs Hatt)
      as (w1 & b & b1 & Hrun1 & Hcounted1 & Hb & Hb1 & Hcount1 & Hsp1).
    destruct (IH w1 Hcounted1) as (w' & b1' & b' & Hrun & Hcounted' & Hb1' & Hb' & Hcount'
                                    & Hdet & Hframe).
    { intros q Hq. rewrite Hsp1, lookup_insert_ne by (intros ->; contradiction).
      apply Hvalid, list_elem_of_further, Hq. }
    assert (b1' = b1) by congruence. subst b1'.
    exists w', b, b'.
    split; [cbn [Text_update_removals]; rewrite (bind_Returns _ _ _ _ _ Hrun1); exact Hrun|].
    split; [exact Hcounted'|]. split; [exact Hb|]. split; [exact Hb'|].
    split; [cbn [length]; lia|].
    split.
    + intros q Hq. apply elem_of_cons in Hq as [-> | Hq]; [| apply Hdet, Hq].
      rewrite (Hframe p Hp), Hsp1, lookup_insert_eq.
      eexists. split; [reflexivity|]. split; reflexivity.
    + intros q Hq. apply not_elem_of_cons in Hq as [Hne Hq].
      rewrite (Hframe q Hq), Hsp1. apply lookup_insert_ne. congruence.
Qed.

(** X20. The removal loop of [Text::update] empties what it is given: when
    the count of a batch is the number of sprites attached to it and the
    loop runs over distinct sprites attached to that batch, in any order,
    every call is defined, the count drops by the number of sprites, each of
    them ends detached with index 0, the count is again the number of
    attached sprites, and the sprites outside the list are untouched. *)
Theorem X20_text_update_removals (B : Z) (this : BatchPtr) (ps : list SpritePtr)
    (w : World) :
  capacity_ok B -> NoDup ps -> counted B this w ->
  (forall p, p ∈ ps -> exists s, sprites w !! p = Some s /\ Sprite.batch s = Some this) ->
  exists w' b b',
    Text_update_removals ps w = Returns tt w' /\ counted B this w' /\
    heap w !! this = Some b /\ heap w' !! this = Some b' /\
    SpriteBatch.spriteCount b' = SpriteBatch.spriteCount b - Z.of_nat (length ps) /\
    (forall p, p ∈ ps ->
       exists s', sprites w' !! p = Some s' /\ Sprite.batch s' = None /\
                  Sprite.batchIndex s' = 0) /\
    (forall q, q ∉ ps -> sprites w' !! q = sprites w !! q).
Proof.
  intros Hcap Hnd Hcounted Hvalid. apply removals_run; assumption.
Qed.

Lemma scenario_pair_distinct : NoDup [pA; pB].
Proof. apply (bool_decide_unpack _). vm_compute. exact I. Qed.

Lemma X20_text_update_removals_witness :
  exists w' b b',
    Text_update_removals [pA; pB] world2 = Returns tt w' /\ counted 2 0%nat w' /\
    heap world2 !! 0%nat = Some b /\ heap w' !! 0%nat = Some b' /\
    SpriteBatch.spriteCount b' = SpriteBatch.spriteCount b - Z.of_nat (length [pA; pB]) /\
    (forall p, p ∈ [pA; pB] ->
       exists s', sprites w' !! p = Some s' /\ Sprite.batch s' = None /\
                  Sprite.batchIndex s' = 0) /\
    (forall q, q ∉ [pA; pB] -> sprites w' !! q = sprites world2 !! q).
Proof.
  apply (X20_text_update_removals 2 0%nat [pA; pB] world2).
  - split; reflexivity.
  - exact scenario_pair_distinct.
  - exact world2_counted.
  - intros p Hp. apply list_elem_of_In in Hp. cbn in Hp.
    destruct Hp as [<- | [<- | []]]; eexists; split; vm_compute; reflexivity.
Defined.
